(** * gorgonia, CUDA build: per-device execution state (cuda.go)

    A shallow embedding of [ExternMetadata] and its methods: the launch
    geometry calculator ([ElemGridSize], [calcBlocks]), the memory arena
    ([Get], [Put]), the flush routine ([DoWork]), the registry lifecycle
    ([init], [initFail]), the work-signal relays ([collectWork]) and the
    kernel-source table ([AddToStdLib]).

    Conventions.
    - Go's [int] is the 64-bit two's complement integer of the platforms the
      CUDA build targets; it is a [Z] kept in range by [GoInt.wrap].
    - A run-time panic is the [Panic] outcome; it aborts the computation.
    - A slice is a list ([nil] is the empty list, except for the context
      slice [c] whose nil-ness the code sets and the lifecycle observes);
      a map is [option (gmap K V)], [None] being the nil map. *)

From Stdlib Require Import ZArith Lia.
From stdpp Require Import gmap strings list fin_maps.

Local Open Scope Z_scope.

(** ** Outcomes of Go code that may panic *)

Inductive panic : Type :=
  | IndexOutOfRange
  | DivideByZero
  | NilMapAssign
  | NilDereference
  | NegativeLen
  | CloseOfClosed.

Inductive outcome (A : Type) : Type :=
  | Ret (a : A)
  | Panic (p : panic).
Arguments Ret {A} a.
Arguments Panic {A} p.

Definition obind {A B} (x : outcome A) (k : A -> outcome B) : outcome B :=
  match x with
  | Ret a => k a
  | Panic p => Panic p
  end.

Notation "'let*' x ':=' e 'in' k" := (obind e (fun x => k))
  (at level 10, x pattern, e at level 100, k at level 200).

(** ** Go's [int] *)

Module GoInt.

Definition min_int : Z := - 2 ^ 63.
Definition max_int : Z := 2 ^ 63 - 1.

Definition in_range (z : Z) : Prop := min_int <= z <= max_int.

(** Two's complement wrap-around of an exact result. *)
Definition wrap (z : Z) : Z := (z + 2 ^ 63) mod 2 ^ 64 - 2 ^ 63.

Definition add (a b : Z) : Z := wrap (a + b).
Definition sub (a b : Z) : Z := wrap (a - b).
Definition mul (a b : Z) : Z := wrap (a * b).

(** [a / b]: truncated towards zero, panics on a zero divisor. *)
Definition quo (a b : Z) : outcome Z :=
  if b =? 0 then Panic DivideByZero else Ret (wrap (Z.quot a b)).

(** [a % b]: the sign follows the dividend, panics on a zero divisor. *)
Definition rem (a b : Z) : outcome Z :=
  if b =? 0 then Panic DivideByZero else Ret (Z.rem a b).

End GoInt.

(** [s[i]] for a slice [s] and an [int] index [i]. *)
Definition index {A} (s : list A) (i : Z) : outcome A :=
  if i <? 0 then Panic IndexOutOfRange
  else match s !! Z.to_nat i with
       | Some a => Ret a
       | None => Panic IndexOutOfRange
       end.

(** [len(s)] as an [int]. *)
Definition len {A} (s : list A) : Z := Z.of_nat (length s).

(** ** Launch geometry *)

(** [calcBlocks]: [(n + maxThreads - 1) / maxThreads]. *)
Definition calcBlocks (n maxThreads : Z) : outcome Z :=
  GoInt.quo (GoInt.sub (GoInt.add n maxThreads) 1) maxThreads.

Record GridSize : Type := mkGridSize {
  gridDimX : Z; gridDimY : Z; gridDimZ : Z;
  blockDimX : Z; blockDimY : Z; blockDimZ : Z
}.

(** The [switch] of [ElemGridSize], once the four limits of the device
    have been read. *)
Definition elemGridSwitch (n maxThreads maxGridX maxGridY maxGridZ : Z)
  : outcome GridSize :=
  let* blocks := calcBlocks n maxThreads in
  if blocks =? 1 then
    Ret (mkGridSize 1 1 1 n 1 1)
  else if blocks >=? GoInt.mul (GoInt.mul maxGridX maxGridY) maxGridZ then
    Ret (mkGridSize 1 1 1 1 1 1)
  else if blocks >=? GoInt.mul maxGridX maxGridY then
    let* r := GoInt.rem blocks (GoInt.mul maxGridX maxGridY) in
    let* gz := calcBlocks r maxGridZ in
    Ret (mkGridSize maxGridX maxGridY gz maxThreads 1 1)
  else if blocks >=? maxGridX then
    let* r := GoInt.rem blocks maxGridX in
    let* gy := calcBlocks r maxGridY in
    Ret (mkGridSize maxGridX gy 1 maxThreads 1 1)
  else
    Ret (mkGridSize blocks 1 1 maxThreads 1 1).

(** ** The state of the machine *)

(** Go's [error] values met in this file; [nil] is [None]. *)
Inductive error : Type :=
  | noopError
  | cuOutOfMemory
  | cuError (code : Z).

(** What the file consumes from outside through narrow interfaces: the
    [Memory] handles, the batched contexts of package [cu] and the batched
    BLAS backend, with the effect of their flush calls. *)
Class Externals : Type := {
  Memory : Type;
  BatchedContext : Type;
  batchedBLAS : Type;
  (** [cu.BatchedContext.DoWork] *)
  bc_DoWork : BatchedContext -> BatchedContext;
  (** [cu.BatchedContext.Errors] *)
  bc_Errors : BatchedContext -> option error;
  (** [batchedBLAS.DoWork] *)
  blas_DoWork : batchedBLAS -> batchedBLAS
}.

Inductive chanState : Type := ChanOpen | ChanClosed.

Section Machine.
Context `{Ext : Externals}.

(** Modelled from the spec: [memoryQueue], [newMemoryQueue], [get] and [add]
    are declared in another file of the package. A pool is a collection of
    blocks of one size class, created empty; [add] inserts the block; [get]
    removes and returns one block, or reports "not found" on an empty pool.
    The retrieval order is left open; first-in first-out is chosen here. *)
Record memoryQueue : Type := mkMemoryQueue {
  mq_size : N;
  mq_data : list Memory
}.

Definition newMemoryQueue (size : N) : memoryQueue :=
  mkMemoryQueue size [].

Definition mq_get (q : memoryQueue) : (option Memory * option error) * memoryQueue :=
  match mq_data q with
  | [] => ((None, Some noopError), q)
  | blk :: rest => ((Some blk, None), mkMemoryQueue (mq_size q) rest)
  end.

Definition mq_add (mem : Memory) (q : memoryQueue) : memoryQueue :=
  mkMemoryQueue (mq_size q) (mq_data q ++ [mem]).

(** [ExternMetadata]. A [*memoryQueue] is an address in the store [queues]
    of the world below, a channel an address in [chans]. *)
Record ExternMetadata : Type := mkExternMetadata {
  warp : list Z;
  mtpb : list Z;
  mgdx : list Z;
  mgdy : list Z;
  mgdz : list Z;
  mbdx : list Z;
  mbdy : list Z;
  mbdz : list Z;
  freeMem : list Z;
  totalMem : list Z;
  arena : list (option (gmap N nat));
  b : option batchedBLAS;
  c : option (list (option BatchedContext));
  hasWork : list bool;
  workAvailable : option nat;
  m : option (gmap string (list Z));
  f : option (gmap string (list Z));
  blasHasWork : bool;
  initialzed : bool
}.

(** The zero value of the struct. *)
Definition zeroExternMetadata : ExternMetadata :=
  mkExternMetadata [] [] [] [] [] [] [] [] [] [] [] None None [] None None None
    false false.

Definition set_warp v (x : ExternMetadata) :=
  let '(mkExternMetadata _ a2 a3 a4 a5 a6 a7 a8 a9 a10 a11 a12 a13 a14 a15 a16 a17 a18 a19) := x in
  mkExternMetadata v a2 a3 a4 a5 a6 a7 a8 a9 a10 a11 a12 a13 a14 a15 a16 a17 a18 a19.
Definition set_mtpb v (x : ExternMetadata) :=
  let '(mkExternMetadata a1 _ a3 a4 a5 a6 a7 a8 a9 a10 a11 a12 a13 a14 a15 a16 a17 a18 a19) := x in
  mkExternMetadata a1 v a3 a4 a5 a6 a7 a8 a9 a10 a11 a12 a13 a14 a15 a16 a17 a18 a19.
Definition set_mgdx v (x : ExternMetadata) :=
  let '(mkExternMetadata a1 a2 _ a4 a5 a6 a7 a8 a9 a10 a11 a12 a13 a14 a15 a16 a17 a18 a19) := x in
  mkExternMetadata a1 a2 v a4 a5 a6 a7 a8 a9 a10 a11 a12 a13 a14 a15 a16 a17 a18 a19.
Definition set_mgdy v (x : ExternMetadata) :=
  let '(mkExternMetadata a1 a2 a3 _ a5 a6 a7 a8 a9 a10 a11 a12 a13 a14 a15 a16 a17 a18 a19) := x in
  mkExternMetadata a1 a2 a3 v a5 a6 a7 a8 a9 a10 a11 a12 a13 a14 a15 a16 a17 a18 a19.
Definition set_mgdz v (x : ExternMetadata) :=
  let '(mkExternMetadata a1 a2 a3 a4 _ a6 a7 a8 a9 a10 a11 a12 a13 a14 a15 a16 a17 a18 a19) := x in
  mkExternMetadata a1 a2 a3 a4 v a6 a7 a8 a9 a10 a11 a12 a13 a14 a15 a16 a17 a18 a19.
Definition set_mbdx v (x : ExternMetadata) :=
  let '(mkExternMetadata a1 a2 a3 a4 a5 _ a7 a8 a9 a10 a11 a12 a13 a14 a15 a16 a17 a18 a19) := x in
  mkExternMetadata a1 a2 a3 a4 a5 v a7 a8 a9 a10 a11 a12 a13 a14 a15 a16 a17 a18 a19.
Definition set_mbdy v (x : ExternMetadata) :=
  let '(mkExternMetadata a1 a2 a3 a4 a5 a6 _ a8 a9 a10 a11 a12 a13 a14 a15 a16 a17 a18 a19) := x in
  mkExternMetadata a1 a2 a3 a4 a5 a6 v a8 a9 a10 a11 a12 a13 a14 a15 a16 a17 a18 a19.
Definition set_mbdz v (x : ExternMetadata) :=
  let '(mkExternMetadata a1 a2 a3 a4 a5 a6 a7 _ a9 a10 a11 a12 a13 a14 a15 a16 a17 a18 a19) := x in
  mkExternMetadata a1 a2 a3 a4 a5 a6 a7 v a9 a10 a11 a12 a13 a14 a15 a16 a17 a18 a19.
Definition set_freeMem v (x : ExternMetadata) :=
  let '(mkExternMetadata a1 a2 a3 a4 a5 a6 a7 a8 _ a10 a11 a12 a13 a14 a15 a16 a17 a18 a19) := x in
  mkExternMetadata a1 a2 a3 a4 a5 a6 a7 a8 v a10 a11 a12 a13 a14 a15 a16 a17 a18 a19.
Definition set_totalMem v (x : ExternMetadata) :=
  let '(mkExternMetadata a1 a2 a3 a4 a5 a6 a7 a8 a9 _ a11 a12 a13 a14 a15 a16 a17 a18 a19) := x in
  mkExternMetadata a1 a2 a3 a4 a5 a6 a7 a8 a9 v a11 a12 a13 a14 a15 a16 a17 a18 a19.
Definition set_arena v (x : ExternMetadata) :=
  let '(mkExternMetadata a1 a2 a3 a4 a5 a6 a7 a8 a9 a10 _ a12 a13 a14 a15 a16 a17 a18 a19) := x in
  mkExternMetadata a1 a2 a3 a4 a5 a6 a7 a8 a9 a10 v a12 a13 a14 a15 a16 a17 a18 a19.
Definition set_c v (x : ExternMetadata) :=
  let '(mkExternMetadata a1 a2 a3 a4 a5 a6 a7 a8 a9 a10 a11 a12 _ a14 a15 a16 a17 a18 a19) := x in
  mkExternMetadata a1 a2 a3 a4 a5 a6 a7 a8 a9 a10 a11 a12 v a14 a15 a16 a17 a18 a19.
Definition set_b v (x : ExternMetadata) :=
  let '(mkExternMetadata a1 a2 a3 a4 a5 a6 a7 a8 a9 a10 a11 _ a13 a14 a15 a16 a17 a18 a19) := x in
  mkExternMetadata a1 a2 a3 a4 a5 a6 a7 a8 a9 a10 a11 v a13 a14 a15 a16 a17 a18 a19.
Definition set_hasWork v (x : ExternMetadata) :=
  let '(mkExternMetadata a1 a2 a3 a4 a5 a6 a7 a8 a9 a10 a11 a12 a13 _ a15 a16 a17 a18 a19) := x in
  mkExternMetadata a1 a2 a3 a4 a5 a6 a7 a8 a9 a10 a11 a12 a13 v a15 a16 a17 a18 a19.
Definition set_workAvailable v (x : ExternMetadata) :=
  let '(mkExternMetadata a1 a2 a3 a4 a5 a6 a7 a8 a9 a10 a11 a12 a13 a14 _ a16 a17 a18 a19) := x in
  mkExternMetadata a1 a2 a3 a4 a5 a6 a7 a8 a9 a10 a11 a12 a13 a14 v a16 a17 a18 a19.
Definition set_m v (x : ExternMetadata) :=
  let '(mkExternMetadata a1 a2 a3 a4 a5 a6 a7 a8 a9 a10 a11 a12 a13 a14 a15 _ a17 a18 a19) := x in
  mkExternMetadata a1 a2 a3 a4 a5 a6 a7 a8 a9 a10 a11 a12 a13 a14 a15 v a17 a18 a19.
Definition set_f v (x : ExternMetadata) :=
  let '(mkExternMetadata a1 a2 a3 a4 a5 a6 a7 a8 a9 a10 a11 a12 a13 a14 a15 a16 _ a18 a19) := x in
  mkExternMetadata a1 a2 a3 a4 a5 a6 a7 a8 a9 a10 a11 a12 a13 a14 a15 a16 v a18 a19.
Definition set_blasHasWork v (x : ExternMetadata) :=
  let '(mkExternMetadata a1 a2 a3 a4 a5 a6 a7 a8 a9 a10 a11 a12 a13 a14 a15 a16 a17 _ a19) := x in
  mkExternMetadata a1 a2 a3 a4 a5 a6 a7 a8 a9 a10 a11 a12 a13 a14 a15 a16 a17 v a19.
Definition set_initialzed v (x : ExternMetadata) :=
  let '(mkExternMetadata a1 a2 a3 a4 a5 a6 a7 a8 a9 a10 a11 a12 a13 a14 a15 a16 a17 a18 _) := x in
  mkExternMetadata a1 a2 a3 a4 a5 a6 a7 a8 a9 a10 a11 a12 a13 a14 a15 a16 a17 a18 v.

(** [ElemGridSize]. The guard on [dev] has an empty body. *)
Definition ElemGridSize (md : ExternMetadata) (n dev : Z) : outcome GridSize :=
  let _ := if dev >? len (warp md) then tt else tt in
  let* maxThreads := index (mtpb md) dev in
  let* maxGridX := index (mgdx md) dev in
  let* maxGridY := index (mgdy md) dev in
  let* maxGridZ := index (mgdz md) dev in
  elemGridSwitch n maxThreads maxGridX maxGridY maxGridZ.

(** *** The world around the receiver *)

(** A goroutine started with [go]. *)
Inductive goroutine : Type :=
  | CollectWork (devID : Z) (src : BatchedContext)
  | CollectBLASWork.

(** The lines written by [cudaLogf]. *)
Inductive logmsg : Type :=
  | LogNumDevicesFailed (err : error)
  | LogNoDevices
  | LogGetDeviceFailed (i : Z) (err : error)
  | LogMemInfoError (err : error)
  | LogOutOfMemory (free total : Z)
  | LogMakeContextFailed (i : Z) (err : error)
  | LogAttributesFailed (i : Z) (err : error)
  | LogMemInfoFailed (i : Z)
  | LogCleanup
  | LogInitialized (contexts : option (list (option BatchedContext))).

Record World : Type := mkWorld {
  md : ExternMetadata;                       (* the receiver [m] *)
  queues : list memoryQueue;                 (* the allocated [memoryQueue]s *)
  chans : list chanState;                    (* the allocated channels *)
  goroutines : list goroutine;               (* started so far *)
  logged : list logmsg;                      (* oldest first *)
  current : option BatchedContext;           (* made current by [SetCurrent] *)
  cudaStdLib : option (gmap string string)   (* the package-level table *)
}.

Definition set_md v (w : World) :=
  let '(mkWorld _ a2 a3 a4 a5 a6 a7) := w in mkWorld v a2 a3 a4 a5 a6 a7.
Definition set_queues v (w : World) :=
  let '(mkWorld a1 _ a3 a4 a5 a6 a7) := w in mkWorld a1 v a3 a4 a5 a6 a7.
Definition set_chans v (w : World) :=
  let '(mkWorld a1 a2 _ a4 a5 a6 a7) := w in mkWorld a1 a2 v a4 a5 a6 a7.
Definition set_goroutines v (w : World) :=
  let '(mkWorld a1 a2 a3 _ a5 a6 a7) := w in mkWorld a1 a2 a3 v a5 a6 a7.
Definition set_logged v (w : World) :=
  let '(mkWorld a1 a2 a3 a4 _ a6 a7) := w in mkWorld a1 a2 a3 a4 v a6 a7.
Definition set_current v (w : World) :=
  let '(mkWorld a1 a2 a3 a4 a5 _ a7) := w in mkWorld a1 a2 a3 a4 a5 v a7.
Definition set_cudaStdLib v (w : World) :=
  let '(mkWorld a1 a2 a3 a4 a5 a6 _) := w in mkWorld a1 a2 a3 a4 a5 a6 v.

(** Statements: a world transformer that may panic. *)
Definition M (A : Type) : Type := World -> outcome (A * World).

Definition ret {A} (a : A) : M A := fun w => Ret (a, w).

Definition bind {A B} (x : M A) (k : A -> M B) : M B :=
  fun w => match x w with
           | Ret (a, w') => k a w'
           | Panic p => Panic p
           end.

Definition lift {A} (x : outcome A) : M A :=
  fun w => match x with Ret a => Ret (a, w) | Panic p => Panic p end.

Definition getMD : M ExternMetadata := fun w => Ret (md w, w).

Definition modifyMD (g : ExternMetadata -> ExternMetadata) : M unit :=
  fun w => Ret (tt, set_md (g (md w)) w).

(** Modelled from the spec: [cudaLogf] is declared in another file of the
    package; it logs a diagnostic, here a line added to the log. *)
Definition cudaLogf (msg : logmsg) : M unit :=
  fun w => Ret (tt, set_logged (logged w ++ [msg]) w).

Definition go (g : goroutine) : M unit :=
  fun w => Ret (tt, set_goroutines (goroutines w ++ [g]) w).

End Machine.

Notation "x <- e ;; k" := (bind e (fun x => k))
  (at level 100, e at next level, k at level 200, right associativity).
Notation "e ;; k" := (bind e (fun _ => k))
  (at level 100, k at level 200, right associativity).

(** ** The methods of [ExternMetadata] *)

(** [s[i] = v] *)
Definition assign {A} (s : list A) (i : Z) (v : A) : outcome (list A) :=
  if i <? 0 then Panic IndexOutOfRange
  else if (Z.to_nat i <? length s)%nat then Ret (<[Z.to_nat i := v]> s)
  else Panic IndexOutOfRange.

(** [make([]T, n)] with [zero] the zero value of [T]. *)
Definition make_slice {A} (zero : A) (n : Z) : outcome (list A) :=
  if n <? 0 then Panic NegativeLen else Ret (replicate (Z.to_nat n) zero).

(** [v, ok := mp[k]]; reading a nil map finds nothing. *)
Definition map_read {V} (mp : option (gmap N V)) (k : N) : option V :=
  match mp with
  | Some g => g !! k
  | None => None
  end.

(** [mp[k] = v]; writing a nil map panics. *)
Definition map_write {K V} `{Countable K} (mp : option (gmap K V)) (k : K) (v : V)
  : outcome (option (gmap K V)) :=
  match mp with
  | Some g => Ret (Some (<[k := v]> g))
  | None => Panic NilMapAssign
  end.

Section Methods.
Context `{Ext : Externals}.

(** Run a method of the [memoryQueue] at address [p]. *)
Definition withQueue {A} (p : nat) (op : memoryQueue -> A * memoryQueue) : M A :=
  fun w => match queues w !! p with
           | Some q => let '(a, q') := op q in
                       Ret (a, set_queues (<[p := q']> (queues w)) w)
           | None => Panic NilDereference
           end.

(** Allocate a [memoryQueue]; the result is its address. *)
Definition allocQueue (q : memoryQueue) : M nat :=
  fun w => Ret (length (queues w), set_queues (queues w ++ [q]) w).

(** [Get]. [Device] is an integer type declared in another file of the
    package; [dev] stands for the value of [int(dev)]. *)
Definition Get (dev : Z) (size : N) : M (option Memory * option error) :=
  let d := dev in
  m <- getMD ;;
  if d >=? len (arena m) then ret (None, Some noopError)
  else
    mp <- lift (index (arena m) d) ;;
    match map_read mp size with
    | Some pool => withQueue pool mq_get
    | None => ret (None, Some noopError)
    end.

(** [Put] *)
Definition Put (dev : Z) (mem : Memory) (size : N) : M unit :=
  let d := dev in
  m <- getMD ;;
  if d >=? len (arena m) then ret tt
  else
    mp <- lift (index (arena m) d) ;;
    pool <- match map_read mp size with
            | Some pool => ret pool
            | None =>
                pool <- allocQueue (newMemoryQueue size) ;;
                mp' <- lift (map_write mp size pool) ;;
                arena' <- lift (assign (arena m) d mp') ;;
                modifyMD (set_arena arena') ;;
                ret pool
            end ;;
    withQueue pool (fun q => (tt, mq_add mem q)).

(** [m.c[i]], dereferenced. *)
Definition contextAt (i : Z) : M BatchedContext :=
  m <- getMD ;;
  match c m with
  | None => lift (Panic IndexOutOfRange)
  | Some cs =>
      p <- lift (index cs i) ;;
      match p with
      | Some ctx => ret ctx
      | None => lift (Panic NilDereference)
      end
  end.

(** Store the new state of the context [m.c[i]] points to. *)
Definition updateContext (i : Z) (ctx : BatchedContext) : M unit :=
  m <- getMD ;;
  match c m with
  | None => lift (Panic IndexOutOfRange)
  | Some cs =>
      cs' <- lift (assign cs i (Some ctx)) ;;
      modifyMD (set_c (Some cs'))
  end.

(** One iteration of the loop of [DoWork]; the result is the error
    returned from inside the loop, if any. *)
Definition doWorkDevice (i : nat) : M (option error) :=
  m <- getMD ;;
  hw <- lift (index (hasWork m) (Z.of_nat i)) ;;
  if hw then
    ctx <- contextAt (Z.of_nat i) ;;
    updateContext (Z.of_nat i) (bc_DoWork ctx) ;;
    ctx' <- contextAt (Z.of_nat i) ;;
    match bc_Errors ctx' with
    | Some err => ret (Some err)
    | None =>
        m <- getMD ;;
        hasWork' <- lift (assign (hasWork m) (Z.of_nat i) false) ;;
        modifyMD (set_hasWork hasWork') ;;
        ret None
    end
  else ret None.

Fixpoint doWorkLoop (idxs : list nat) : M (option error) :=
  match idxs with
  | [] => ret None
  | i :: rest =>
      r <- doWorkDevice i ;;
      match r with
      | Some err => ret (Some err)
      | None => doWorkLoop rest
      end
  end.

(** [DoWork] *)
Definition DoWork : M (option error) :=
  m <- getMD ;;
  r <- doWorkLoop (seq 0 (length (hasWork m))) ;;
  match r with
  | Some err => ret (Some err)
  | None =>
      m <- getMD ;;
      (if blasHasWork m then
         match b m with
         | Some blas =>
             modifyMD (set_b (Some (blas_DoWork blas))) ;;
             modifyMD (set_blasHasWork false)
         | None => lift (Panic NilDereference)
         end
       else ret tt) ;;
      ret None
  end.

(** [AddToStdLib] *)
Definition AddToStdLib (name data : string) : M unit :=
  fun w =>
    let* lib := map_write (cudaStdLib w) name data in
    Ret (tt, set_cudaStdLib lib w).

End Methods.

(** ** The registry lifecycle *)

(** The answers of package [cu] during one run of [init]: each call returns
    its values together with an [error] ([None] is [nil]). A [cu.Device] and
    a [cu.Context] are handles; [cu_MemInfo i] is the answer of [cu.MemInfo]
    asked while device [i] is being set up. *)
Record cuDriver `{Ext : Externals} : Type := mkCuDriver {
  cu_NumDevices : Z * option error;
  cu_GetDevice : Z -> Z * option error;
  cu_MakeContext : Z -> Z * option error;
  cu_Attributes : Z -> list Z * option error;
  cu_MemInfo : Z -> (Z * Z) * option error;
  cu_NewBatchedContext : Z -> Z -> BatchedContext
}.

Section Lifecycle.
Context `{Ext : Externals}.

(** [make(chan struct{})]; the result is the address of the channel. *)
Definition makeChan : M nat :=
  fun w => Ret (length (chans w), set_chans (chans w ++ [ChanOpen]) w).

(** [close(ch)] *)
Definition closeChan (ch : nat) : M unit :=
  fun w => match chans w !! ch with
           | Some ChanOpen => Ret (tt, set_chans (<[ch := ChanClosed]> (chans w)) w)
           | Some ChanClosed => Panic CloseOfClosed
           | None => Panic NilDereference
           end.

(** [initFail] *)
Definition initFail : M unit :=
  cudaLogf LogCleanup ;;
  modifyMD (set_c None) ;;
  modifyMD (set_m None) ;;
  modifyMD (set_f None) ;;
  m <- getMD ;;
  match workAvailable m with
  | Some ch => closeChan ch
  | None => ret tt
  end ;;
  modifyMD (set_workAvailable None).

(** [m.fld[i] = v] for one of the per-device slices. *)
Definition store {A} (get : ExternMetadata -> list A)
    (set : list A -> ExternMetadata -> ExternMetadata) (i : Z) (v : A) : M unit :=
  m <- getMD ;;
  s <- lift (assign (get m) i v) ;;
  modifyMD (set s).

(** The body of the loop of [init] for device [i]. The result tells whether
    the loop goes on ([true]) or [init] has returned ([false]). *)
Definition initDevice (drv : cuDriver) (i : Z) : M bool :=
  let '(dev, err) := cu_GetDevice drv i in
  match err with
  | Some e => cudaLogf (LogGetDeviceFailed i e) ;; initFail ;; ret false
  | None =>
  let '(ctx, err) := cu_MakeContext drv dev in
  match err with
  | Some cuOutOfMemory =>
      let '((free, total), err) := cu_MemInfo drv i in
      match err with
      | Some e => cudaLogf (LogMemInfoError e)
      | None => ret tt
      end ;;
      cudaLogf (LogOutOfMemory free total) ;;
      initFail ;;
      ret false
  | Some e => cudaLogf (LogMakeContextFailed i e) ;; initFail ;; ret false
  | None =>
  let '(attrs, err) := cu_Attributes drv dev in
  match err with
  | Some e => cudaLogf (LogAttributesFailed i e) ;; initFail ;; ret false
  | None =>
      a <- lift (index attrs 0) ;; store warp set_warp i a ;;
      a <- lift (index attrs 1) ;; store mtpb set_mtpb i a ;;
      a <- lift (index attrs 2) ;; store mgdx set_mgdx i a ;;
      a <- lift (index attrs 3) ;; store mgdy set_mgdy i a ;;
      a <- lift (index attrs 4) ;; store mgdz set_mgdz i a ;;
      a <- lift (index attrs 5) ;; store mbdx set_mbdx i a ;;
      a <- lift (index attrs 6) ;; store mbdy set_mbdy i a ;;
      a <- lift (index attrs 7) ;; store mbdz set_mbdz i a ;;
      let '((free, total), err) := cu_MemInfo drv i in
      match err with
      | Some _ => cudaLogf (LogMemInfoFailed i) ;; initFail ;; ret false
      | None =>
          store freeMem set_freeMem i free ;;
          store totalMem set_totalMem i total ;;
          store arena set_arena i (Some ∅) ;;
          updateContext i (cu_NewBatchedContext drv ctx dev) ;;
          bc <- contextAt i ;;
          go (CollectWork i bc) ;;
          ret true
      end
  end
  end
  end.

Fixpoint initLoop (drv : cuDriver) (idxs : list nat) : M bool :=
  match idxs with
  | [] => ret true
  | i :: rest =>
      continue <- initDevice drv (Z.of_nat i) ;;
      if continue then initLoop drv rest else ret false
  end.

(** [len(m.c)] *)
Definition len_c (m : ExternMetadata) : Z :=
  match c m with Some cs => len cs | None => 0 end.

(** [init] *)
Definition init (drv : cuDriver) : M unit :=
  m <- getMD ;;
  if initialzed m then ret tt
  else
    let '(devices, err) := cu_NumDevices drv in
    match err with
    | Some e => cudaLogf (LogNumDevicesFailed e)
    | None =>
      if devices =? 0 then cudaLogf LogNoDevices
      else
        ch <- makeChan ;;
        modifyMD (set_workAvailable (Some ch)) ;;
        s <- lift (make_slice None devices) ;; modifyMD (set_c (Some s)) ;;
        s <- lift (make_slice false devices) ;; modifyMD (set_hasWork s) ;;
        s <- lift (make_slice 0 devices) ;; modifyMD (set_warp s) ;;
        s <- lift (make_slice 0 devices) ;; modifyMD (set_mtpb s) ;;
        s <- lift (make_slice 0 devices) ;; modifyMD (set_mgdx s) ;;
        s <- lift (make_slice 0 devices) ;; modifyMD (set_mgdy s) ;;
        s <- lift (make_slice 0 devices) ;; modifyMD (set_mgdz s) ;;
        s <- lift (make_slice 0 devices) ;; modifyMD (set_mbdx s) ;;
        s <- lift (make_slice 0 devices) ;; modifyMD (set_mbdy s) ;;
        s <- lift (make_slice 0 devices) ;; modifyMD (set_mbdz s) ;;
        s <- lift (make_slice 0 devices) ;; modifyMD (set_freeMem s) ;;
        s <- lift (make_slice 0 devices) ;; modifyMD (set_totalMem s) ;;
        s <- lift (make_slice None devices) ;; modifyMD (set_arena s) ;;
        m <- getMD ;;
        continue <- initLoop drv (seq 0 (Z.to_nat (len_c m))) ;;
        if continue then
          m <- getMD ;;
          (if len_c m >? 0 then
             bc <- contextAt 0 ;;
             fun w => Ret (tt, set_current (Some bc) w)
           else ret tt) ;;
          modifyMD (set_m (Some ∅)) ;;
          modifyMD (set_f (Some ∅)) ;;
          go CollectBLASWork ;;
          modifyMD (set_initialzed true) ;;
          m <- getMD ;;
          cudaLogf (LogInitialized (c m))
        else ret tt
    end.

End Lifecycle.

(** ** The work-signal relays *)

(** Where the goroutine running [collectWork] stands: blocked on the receive
    of [for range workAvailable], about to run [m.hasWork[devID] = true],
    blocked on the send [m.workAvailable <- struct{}{}], or past the loop
    because its source was closed. *)
Inductive relayPC : Type := AwaitSignal | MarkWork | Forward | Stopped.

(** The relays (the one of device [i] at position [i]), the [hasWork] flags
    they share with the consumer, and the number of signals the consumer has
    received from the shared channel. The channel is unbuffered: a send
    completes in the step in which the consumer receives. *)
Record Hub : Type := mkHub {
  relayAt : list relayPC;
  hubHasWork : list bool;
  yielded : nat
}.

(** The moves of the scheduler and of the environment. *)
Inductive event : Type :=
  | SourceSignal (devID : nat)   (* the source of the relay delivers a signal *)
  | SourceClosed (devID : nat)   (* the source of the relay is closed *)
  | Mark (devID : nat)           (* the relay sets its flag *)
  | Deliver (devID : nat).       (* the relay's send meets the consumer's receive *)

Definition relayOf (e : event) : nat :=
  match e with
  | SourceSignal i | SourceClosed i | Mark i | Deliver i => i
  end.

Definition relay_goto (i : nat) (pc : relayPC) (h : Hub) : Hub :=
  mkHub (<[i := pc]> (relayAt h)) (hubHasWork h) (yielded h).

(** One step of [collectWork] in the relay the event names; [None] when the
    relay is not at that point (or the flag store would be out of range). *)
Definition hubStep (h : Hub) (e : event) : option Hub :=
  match e, relayAt h !! relayOf e with
  | SourceSignal i, Some AwaitSignal => Some (relay_goto i MarkWork h)
  | SourceClosed i, Some AwaitSignal => Some (relay_goto i Stopped h)
  | Mark i, Some MarkWork =>
      if (i <? length (hubHasWork h))%nat
      then Some (mkHub (<[i := Forward]> (relayAt h))
                       (<[i := true]> (hubHasWork h)) (yielded h))
      else None
  | Deliver i, Some Forward =>
      Some (mkHub (<[i := AwaitSignal]> (relayAt h)) (hubHasWork h) (S (yielded h)))
  | _, _ => None
  end.

Fixpoint hubRun (h : Hub) (t : list event) : option Hub :=
  match t with
  | [] => Some h
  | e :: t' => match hubStep h e with
               | Some h' => hubRun h' t'
               | None => None
               end
  end.

(** After [init] over [n] devices: every relay waits, no flag is set. *)
Definition hubStart (n : nat) : Hub :=
  mkHub (replicate n AwaitSignal) (replicate n false) 0.

Definition isSignalOf (i : nat) (e : event) : bool :=
  match e with SourceSignal j => (i =? j)%nat | _ => false end.

Definition isDeliveryOf (i : nat) (e : event) : bool :=
  match e with Deliver j => (i =? j)%nat | _ => false end.

(** How many signals relay [i] received, and forwarded, along a trace. *)
Definition receivedBy (i : nat) (t : list event) : nat :=
  length (filter (fun e => isSignalOf i e = true) t).

Definition forwardedBy (i : nat) (t : list event) : nat :=
  length (filter (fun e => isDeliveryOf i e = true) t).

Definition isDelivery (e : event) : bool :=
  match e with Deliver _ => true | _ => false end.

(** The trace order the relay loop imposes: a delivery by relay [i] comes
    after a [Mark i] with no step of relay [i] in between. *)
Definition marked_before_delivery (t : list event) : Prop :=
  forall t1 t2 i, t = t1 ++ Deliver i :: t2 ->
    exists u v, t1 = u ++ Mark i :: v /\ Forall (fun e => relayOf e <> i) v.

(** ** The launch geometry as the specification words it *)

(** Integer ceiling division: the quotient, and one more when something
    remains. *)
Definition ceil_div (a b : Z) : Z :=
  a / b + (if a mod b =? 0 then 0 else 1).

(** The five-way case ladder of the specification, over unbounded
    integers. *)
Definition spec_ElemGridSize (n maxThreads maxGridX maxGridY maxGridZ : Z) : GridSize :=
  let blocks := ceil_div n maxThreads in
  if blocks =? 1 then mkGridSize 1 1 1 n 1 1
  else if blocks >=? maxGridX * maxGridY * maxGridZ then mkGridSize 1 1 1 1 1 1
  else if blocks >=? maxGridX * maxGridY then
    mkGridSize maxGridX maxGridY
      (ceil_div (blocks mod (maxGridX * maxGridY)) maxGridZ) maxThreads 1 1
  else if blocks >=? maxGridX then
    mkGridSize maxGridX (ceil_div (blocks mod maxGridX) maxGridY) 1 maxThreads 1 1
  else mkGridSize blocks 1 1 maxThreads 1 1.

(** The number of work items a launch geometry addresses. *)
Definition lanes (g : GridSize) : Z :=
  gridDimX g * gridDimY g * gridDimZ g * blockDimX g * blockDimY g * blockDimZ g.

(** Every dimension is within the declared maximum of the device. *)
Definition within_limits (g : GridSize) (maxThreads maxGridX maxGridY maxGridZ : Z) : Prop :=
  gridDimX g <= maxGridX /\ gridDimY g <= maxGridY /\ gridDimZ g <= maxGridZ /\
  blockDimX g <= maxThreads.

(** A capability profile whose four limits are at least one and whose grid
    capacity is an [int]. *)
Definition profile_ok (maxThreads maxGridX maxGridY maxGridZ : Z) : Prop :=
  1 <= maxThreads <= GoInt.max_int /\ 1 <= maxGridX /\ 1 <= maxGridY /\ 1 <= maxGridZ /\
  maxGridX * maxGridY * maxGridZ <= GoInt.max_int.

Section Profiles.
Context `{Ext : Externals}.

(** Device [dev] of [m] has the limits [maxThreads], [maxGridX], [maxGridY]
    and [maxGridZ]. *)
Definition has_profile (m : ExternMetadata) (dev : nat)
    (maxThreads maxGridX maxGridY maxGridZ : Z) : Prop :=
  mtpb m !! dev = Some maxThreads /\ mgdx m !! dev = Some maxGridX /\
  mgdy m !! dev = Some maxGridY /\ mgdz m !! dev = Some maxGridZ.

(** A receiver holding the capability profiles given as
    [(maxThreads, maxGridX, maxGridY, maxGridZ)], one per device. *)
Definition withProfiles (ps : list (Z * Z * Z * Z)) : ExternMetadata :=
  set_mtpb (map (fun p => p.1.1.1) ps)
    (set_mgdx (map (fun p => p.1.1.2) ps)
      (set_mgdy (map (fun p => p.1.2) ps)
        (set_mgdz (map (fun p => p.2) ps)
          (set_warp (map (fun _ => 32) ps) zeroExternMetadata)))).

End Profiles.

(** A launch that covers its work: the call returns a geometry that
    addresses at least [n] work items within the limits. *)
Definition geometry_covers `{Ext : Externals} (m : ExternMetadata) (n dev : Z)
    (maxThreads maxGridX maxGridY maxGridZ : Z) : Prop :=
  match ElemGridSize m n dev with
  | Ret g => n <= lanes g /\ within_limits g maxThreads maxGridX maxGridY maxGridZ
  | Panic _ => False
  end.

(** ** Observing the arena *)

Section ArenaViews.
Context `{Ext : Externals}.

(** [k] calls of [Get] in a row, with their results in order. *)
Fixpoint GetN (k : nat) (dev : Z) (size : N) : M (list (option Memory * option error)) :=
  match k with
  | O => ret []
  | S k' =>
      r <- Get dev size ;;
      rs <- GetN k' dev size ;;
      ret (r :: rs)
  end.

(** The result of a [Get] that found the block [blk]. *)
Definition found (blk : Memory) : option Memory * option error := (Some blk, None).

(** The advisory "not found" result. *)
Definition notFound : option Memory * option error := (None, Some noopError).

Definition emptyWorld : World :=
  mkWorld zeroExternMetadata [] [] [] [] None None.

(** A world whose receiver has the arena [a] over the pools [qs]. *)
Definition worldWithArena (a : list (option (gmap N nat))) (qs : list memoryQueue) : World :=
  set_queues qs (set_md (set_arena a zeroExternMetadata) emptyWorld).

End ArenaViews.

(** ** Observing the flush *)

Section FlushViews.
Context `{Ext : Externals}.

(** What [DoWork] may touch of the world: the flags, the contexts and the
    BLAS fields of the receiver. *)
Definition same_but_flush (w w' : World) (hw' : list bool)
    (cs' : list (option BatchedContext)) : Prop :=
  hasWork (md w') = hw' /\ c (md w') = Some cs' /\
  b (md w') = b (md w) /\ blasHasWork (md w') = blasHasWork (md w).

(** Device [i] is ready to be flushed without error, or has no work. *)
Definition flushes_clean (w : World) (cs : list (option BatchedContext)) (i : nat) : Prop :=
  hasWork (md w) !! i = Some false \/
  (hasWork (md w) !! i = Some true /\
   exists ctx, cs !! i = Some (Some ctx) /\ bc_Errors (bc_DoWork ctx) = None).

End FlushViews.

(** ** Observing the lifecycle *)

Section LifecycleViews.
Context `{Ext : Externals}.

(** Every step of the set-up of device [i] succeeds. *)
Definition device_ready (drv : cuDriver) (i : Z) : Prop :=
  let '(dev, e1) := cu_GetDevice drv i in
  let '(_, e2) := cu_MakeContext drv dev in
  let '(attrs, e3) := cu_Attributes drv dev in
  let '(_, e4) := cu_MemInfo drv i in
  e1 = None /\ e2 = None /\ e3 = None /\ e4 = None /\ (8 <= length attrs)%nat.

(** The set-up of device [i] fails: at [cu.GetDevice], at [MakeContext], at
    [Attributes], or at [cu.MemInfo] after eight attributes were read. *)
Definition device_fails (drv : cuDriver) (i : Z) : Prop :=
  let '(dev, e1) := cu_GetDevice drv i in
  let '(_, e2) := cu_MakeContext drv dev in
  let '(attrs, e3) := cu_Attributes drv dev in
  let '(_, e4) := cu_MemInfo drv i in
  e1 <> None \/
  (e1 = None /\ e2 <> None) \/
  (e1 = None /\ e2 = None /\ e3 <> None) \/
  (e1 = None /\ e2 = None /\ e3 = None /\ (8 <= length attrs)%nat /\ e4 <> None).

(** The per-device slices of the receiver all have [n] entries. *)
Definition slices_sized (n : nat) (x : ExternMetadata) : Prop :=
  length (warp x) = n /\ length (mtpb x) = n /\ length (mgdx x) = n /\
  length (mgdy x) = n /\ length (mgdz x) = n /\ length (mbdx x) = n /\
  length (mbdy x) = n /\ length (mbdz x) = n /\ length (freeMem x) = n /\
  length (totalMem x) = n /\ length (arena x) = n /\ length (hasWork x) = n.

(** The receiver inside the loop of [init] over [n] devices: the shared
    channel [ch] is open, the context slice and the per-device slices are
    allocated. *)
Definition looping (n ch : nat) (w : World) : Prop :=
  workAvailable (md w) = Some ch /\ chans w !! ch = Some ChanOpen /\
  initialzed (md w) = false /\
  (exists cs, c (md w) = Some cs /\ length cs = n) /\
  slices_sized n (md w).

(** What [initFail] leaves: no contexts, no module and function tables, the
    shared channel [ch] closed and forgotten, the flag still false. *)
Definition disabled (ch : nat) (w : World) : Prop :=
  c (md w) = None /\ m (md w) = None /\ f (md w) = None /\
  workAvailable (md w) = None /\ chans w !! ch = Some ChanClosed /\
  initialzed (md w) = false.

(** What the per-device slices hold for device [i]. *)
Definition profile_at (x : ExternMetadata) (i : nat) :=
  (warp x !! i, mtpb x !! i, mgdx x !! i, mgdy x !! i, mgdz x !! i,
   mbdx x !! i, mbdy x !! i, mbdz x !! i, freeMem x !! i, totalMem x !! i,
   arena x !! i).

(** What [init] stores for device [i] from the answers of the driver. *)
Definition driver_profile (drv : cuDriver) (i : Z) :=
  let '(dev, _) := cu_GetDevice drv i in
  let '(attrs, _) := cu_Attributes drv dev in
  let '((free, total), _) := cu_MemInfo drv i in
  (attrs !! 0%nat, attrs !! 1%nat, attrs !! 2%nat, attrs !! 3%nat, attrs !! 4%nat,
   attrs !! 5%nat, attrs !! 6%nat, attrs !! 7%nat, Some free, Some total,
   Some (Some (∅ : gmap N nat))).

(** No capability profile holds a value and no arena map exists. *)
Definition profiles_blank (x : ExternMetadata) : Prop :=
  Forall (fun v => v = 0) (warp x) /\ Forall (fun v => v = 0) (mtpb x) /\
  Forall (fun v => v = 0) (mgdx x) /\ Forall (fun v => v = 0) (mgdy x) /\
  Forall (fun v => v = 0) (mgdz x) /\ Forall (fun v => v = 0) (mbdx x) /\
  Forall (fun v => v = 0) (mbdy x) /\ Forall (fun v => v = 0) (mbdz x) /\
  Forall (fun v => v = 0) (freeMem x) /\ Forall (fun v => v = 0) (totalMem x) /\
  Forall (fun a => a = None) (arena x).

End LifecycleViews.

(** ** A simulated backend

    The externals instantiated so that the model runs on concrete inputs:
    a memory block is its device address, a batched context holds the
    outcomes of the calls queued on it, the BLAS backend the number of its
    queued calls. *)
Record simContext : Type := mkSimContext {
  sim_device : Z;
  sim_queue : list (option error);
  sim_failure : option error
}.

Definition sim_flush (x : simContext) : simContext :=
  mkSimContext (sim_device x) []
    (match sim_failure x with
     | Some e => Some e
     | None => default None (head (filter (fun r => is_Some r) (sim_queue x)))
     end).

Definition simExternals : Externals := {|
  Memory := Z;
  BatchedContext := simContext;
  batchedBLAS := nat;
  bc_DoWork := sim_flush;
  bc_Errors := sim_failure;
  blas_DoWork := fun _ => 0%nat
|}.

(** The simulated memory block at device address [a]. *)
Definition block (a : Z) : @Memory simExternals := a.

(** A simulated world with the given flags and contexts, and with BLAS work
    pending. *)
Definition flushWorld (hw : list bool)
    (cs : list (option (@BatchedContext simExternals))) : @World simExternals :=
  set_md (set_hasWork hw
           (set_c (Some cs)
             (set_blasHasWork true
               (set_b (Some (5%nat : @batchedBLAS simExternals))
                  zeroExternMetadata)))) emptyWorld.

(** A simulated context of device [dev] with one queued call. *)
Definition queued (dev : Z) (result : option error)
  : option (@BatchedContext simExternals) :=
  Some (mkSimContext dev [result] None).

(** A simulated driver with [n] devices, each with the limits of a common
    card; making the context of device [oom] runs out of memory. *)
Definition simDriver (n oom : Z) : @cuDriver simExternals := {|
  cu_NumDevices := (n, None);
  cu_GetDevice := fun i => (i, None);
  cu_MakeContext := fun dev => (100 + dev, if dev =? oom then Some cuOutOfMemory else None);
  cu_Attributes := fun _ => ([32; 1024; 65535; 65535; 65535; 1024; 1024; 64], None);
  cu_MemInfo := fun _ => ((4096, 8192), None);
  cu_NewBatchedContext := fun ctx dev =>
    (mkSimContext dev [] None : @BatchedContext simExternals)
|}.

(** A simulated world in which the kernel-source table holds [lib]. *)
Definition worldWithStdLib (lib : option (gmap string string)) : @World simExternals :=
  set_cudaStdLib lib emptyWorld.

(** ** The other methods of the file *)

Section OtherMethods.
Context `{Ext : Externals}.

(** [blockThread]; neither the receiver nor [dev] is read. *)
Definition blockThread (x : ExternMetadata) (n dev : Z) : outcome (Z * Z) :=
  let threads :=
    if n <=? 32 then 32
    else if n <=? 64 then 64
    else if n <=? 128 then 128
    else if n <=? 256 then 256
    else if n <=? 512 then 512
    else 1024 in
  let* blocks := GoInt.quo (GoInt.sub (GoInt.add n threads) 1) threads in
  let blocks := if (blocks <? 0) || (blocks >? 128) then 128 else blocks in
  Ret (blocks, threads).

(** [WorkAvailable] *)
Definition WorkAvailable (x : ExternMetadata) : option nat := workAvailable x.

(** [HasFunc]: [_, ok := m.f[name]]; a nil table has no entry. *)
Definition HasFunc (x : ExternMetadata) (name : string) : bool :=
  match f x with
  | Some g => bool_decide (is_Some (g !! name))
  | None => false
  end.

(** [Contexts] *)
Definition Contexts (x : ExternMetadata) : option (list (option BatchedContext)) := c x.

(** [Modules] *)
Definition Modules (x : ExternMetadata) : option (gmap string (list Z)) := m x.

(** [Functions] *)
Definition Functions (x : ExternMetadata) : option (gmap string (list Z)) := f x.

(** The loop of [Cleanup] over the context slice, in order; [cleanup] is
    the effect of [cu.BatchedContext.Cleanup] on a context. *)
Fixpoint cleanupLoop (cleanup : BatchedContext -> BatchedContext)
    (cs : list (option BatchedContext)) : outcome (list (option BatchedContext)) :=
  match cs with
  | [] => Ret []
  | None :: _ => Panic NilDereference
  | Some ctx :: rest =>
      let* rest' := cleanupLoop cleanup rest in
      Ret (Some (cleanup ctx) :: rest')
  end.

(** [Cleanup]; ranging over a nil slice runs no iteration. *)
Definition Cleanup (cleanup : BatchedContext -> BatchedContext) : M unit :=
  x <- getMD ;;
  match c x with
  | None => ret tt
  | Some cs =>
      cs' <- lift (cleanupLoop cleanup cs) ;;
      modifyMD (set_c (Some cs'))
  end.

End OtherMethods.

(** ** Observing the arena store *)

Section ArenaStore.
Context `{Ext : Externals}.

(** The result of a call, without the world it leaves. *)
Definition value_of {A} (r : outcome (A * World)) : outcome A :=
  match r with
  | Ret (a, _) => Ret a
  | Panic p => Panic p
  end.

(** The address of the pool of device [d] for the size [s], if any. *)
Definition pool_at (w : World) (d : nat) (s : N) : option nat :=
  match arena (md w) !! d with
  | Some (Some g) => g !! s
  | _ => None
  end.

(** The arena is consistent with the store of pools: every address it holds
    is allocated, and no two pairs share a pool. *)
Definition arena_wf (w : World) : Prop :=
  (forall d s p, pool_at w d s = Some p -> (p < length (queues w))%nat) /\
  (forall d s d' s' p,
     pool_at w d s = Some p -> pool_at w d' s' = Some p -> d = d' /\ s = s').

End ArenaStore.

(** ** Observing sequences of arena calls *)

Section ArenaRuns.
Context `{Ext : Externals}.

(** A call on the arena. *)
Inductive arenaOp : Type :=
  | OpPut (dev : Z) (mem : Memory) (size : N)
  | OpGet (dev : Z) (size : N).

(** The (device, size) pair a call names. *)
Definition opPair (o : arenaOp) : Z * N :=
  match o with
  | OpPut dev _ size => (dev, size)
  | OpGet dev size => (dev, size)
  end.

Definition runOp (o : arenaOp) : M unit :=
  match o with
  | OpPut dev mem size => Put dev mem size
  | OpGet dev size => Get dev size ;; ret tt
  end.

(** Calls made one after the other. *)
Fixpoint runOps (os : list arenaOp) : M unit :=
  match os with
  | [] => ret tt
  | o :: rest => runOp o ;; runOps rest
  end.

(** The blocks the pool of device [d] for the size [s] holds, oldest
    first; none when the pair has no pool. *)
Definition pool_blocks (w : World) (d : nat) (s : N) : list Memory :=
  match pool_at w d s with
  | Some p => match queues w !! p with
              | Some q => mq_data q
              | None => []
              end
  | None => []
  end.

End ArenaRuns.

(** ** Observing a completed set-up *)

Section ReadyViews.
Context `{Ext : Externals}.

(** The batched context [init] makes for device [i]. *)
Definition driver_context (drv : cuDriver) (i : Z) : BatchedContext :=
  let '(dev, _) := cu_GetDevice drv i in
  let '(ctx, _) := cu_MakeContext drv dev in
  cu_NewBatchedContext drv ctx dev.

(** The context slot of device [i]. *)
Definition context_at (x : ExternMetadata) (i : nat) : option (option BatchedContext) :=
  match c x with
  | Some cs => cs !! i
  | None => None
  end.

(** The relay [init] starts for device [i]. *)
Definition relay_of (drv : cuDriver) (i : nat) : goroutine :=
  CollectWork (Z.of_nat i) (driver_context drv (Z.of_nat i)).

(** What the loop of [init] does not touch. *)
Definition init_frame (w : World) :=
  (b (md w), hasWork (md w), blasHasWork (md w), m (md w), f (md w),
   queues w, logged w, current w, cudaStdLib w).

(** The world [w'] a run of [init] that set up all [n] devices leaves,
    started from [w]. *)
Definition ready_after (drv : cuDriver) (n : nat) (w w' : World) : Prop :=
  initialzed (md w') = true /\
  workAvailable (md w') = Some (length (chans w)) /\
  chans w' = chans w ++ [ChanOpen] /\
  (exists cs, c (md w') = Some cs /\ length cs = n) /\
  (forall i, (i < n)%nat ->
     context_at (md w') i = Some (Some (driver_context drv (Z.of_nat i)))) /\
  slices_sized n (md w') /\
  (forall i, (i < n)%nat -> profile_at (md w') i = driver_profile drv (Z.of_nat i)) /\
  hasWork (md w') = replicate n false /\
  m (md w') = Some ∅ /\ f (md w') = Some ∅ /\
  goroutines w' = goroutines w ++ (relay_of drv <$> seq 0 n) ++ [CollectBLASWork] /\
  current w' = Some (driver_context drv 0) /\
  b (md w') = b (md w) /\ blasHasWork (md w') = blasHasWork (md w) /\
  queues w' = queues w /\ cudaStdLib w' = cudaStdLib w.

End ReadyViews.

(** ** Observing a completed flush *)

Section FlushedViews.
Context `{Ext : Externals}.

(** The slot of device [i] after a flush of the devices with pending work. *)
Definition flushed_slot (w : World) (cs : list (option BatchedContext)) (i : nat)
  : option (option BatchedContext) :=
  match hasWork (md w) !! i, cs !! i with
  | Some true, Some (Some ctx) => Some (Some (bc_DoWork ctx))
  | _, slot => slot
  end.

End FlushedViews.

(** A simulated world with the given flags, without contexts and without
    BLAS work. *)
Definition flagsWorld (hw : list bool) : @World simExternals :=
  set_md (set_hasWork hw zeroExternMetadata) emptyWorld.

(** ** Observing the runs of [init] *)

Section InitViews.
Context `{Ext : Externals}.

(** The slices of a device as the [make] calls of [init] leave them. *)
Definition blank_profile
  : option Z * option Z * option Z * option Z * option Z * option Z * option Z *
    option Z * option Z * option Z * option (option (gmap N nat)) :=
  (Some 0, Some 0, Some 0, Some 0, Some 0, Some 0, Some 0, Some 0, Some 0, Some 0,
   Some None).

(** The attributes the driver reports for device [i]. *)
Definition driver_attrs (drv : cuDriver) (i : Z) : list Z :=
  let '(dev, _) := cu_GetDevice drv i in (cu_Attributes drv dev).1.

(** The world in which [init] ends after a loop that left [w1], [ctx0]
    being the context of device 0. *)
Definition init_done (w1 : World) (ctx0 : BatchedContext) : World :=
  set_logged (logged w1 ++ [LogInitialized (c (md w1))])
    (set_md (set_initialzed true (set_f (Some ∅) (set_m (Some ∅) (md w1))))
       (set_goroutines (goroutines w1 ++ [CollectBLASWork])
          (set_current (Some ctx0) w1))).
End InitViews.

Section InitFailViews.
Context `{Ext : Externals}.

(** What [initFail] never touches. *)
Definition kept_by_initFail (w : World) :=
  (warp (md w), mtpb (md w), mgdx (md w), mgdy (md w), mgdz (md w),
   mbdx (md w), mbdy (md w), mbdz (md w), freeMem (md w), totalMem (md w),
   arena (md w), hasWork (md w), b (md w), blasHasWork (md w), initialzed (md w),
   queues w, goroutines w, current w, cudaStdLib w).

End InitFailViews.

(** Signals a relay holds: received and not yet forwarded. *)
Definition in_flight (pc : relayPC) : nat :=
  match pc with
  | MarkWork | Forward => 1
  | AwaitSignal | Stopped => 0
  end.

(** The steps in which a relay takes a signal from its source. *)
Definition isSignal (e : event) : bool :=
  match e with SourceSignal _ => true | _ => false end.

(** The signals the relays hold together. *)
Definition held (rs : list relayPC) : nat := sum_list (in_flight <$> rs).

(** ** The BLAS relay and the direct signal *)

(** The device relays together with the goroutine running
    [collectBLASWork] and the flag [blasHasWork] it sets. *)
Record FullHub : Type := mkFullHub {
  deviceHub : Hub;
  blasAt : relayPC;
  hubBlasHasWork : bool
}.

(** A step of a device relay, a step of the BLAS relay (receive, source
    closed, [m.blasHasWork = true], send), or a send of [signal] meeting the
    consumer's receive. *)
Inductive fullEvent : Type :=
  | OfDevice (e : event)
  | BlasSignal
  | BlasClosed
  | BlasMark
  | BlasDeliver
  | DirectSignal.

Definition yield_one (h : Hub) : Hub :=
  mkHub (relayAt h) (hubHasWork h) (S (yielded h)).

Definition fullStep (h : FullHub) (e : fullEvent) : option FullHub :=
  match e, blasAt h with
  | OfDevice e, _ =>
      match hubStep (deviceHub h) e with
      | Some d => Some (mkFullHub d (blasAt h) (hubBlasHasWork h))
      | None => None
      end
  | BlasSignal, AwaitSignal => Some (mkFullHub (deviceHub h) MarkWork (hubBlasHasWork h))
  | BlasClosed, AwaitSignal => Some (mkFullHub (deviceHub h) Stopped (hubBlasHasWork h))
  | BlasMark, MarkWork => Some (mkFullHub (deviceHub h) Forward true)
  | BlasDeliver, Forward =>
      Some (mkFullHub (yield_one (deviceHub h)) AwaitSignal (hubBlasHasWork h))
  | DirectSignal, _ =>
      Some (mkFullHub (yield_one (deviceHub h)) (blasAt h) (hubBlasHasWork h))
  | _, _ => None
  end.

Fixpoint fullRun (h : FullHub) (t : list fullEvent) : option FullHub :=
  match t with
  | [] => Some h
  | e :: t' => match fullStep h e with
               | Some h' => fullRun h' t'
               | None => None
               end
  end.

(** After [init] over [n] devices; [collectBLASWork] enters its loop only
    when a backend is there ([m.b != nil]), otherwise it has returned. *)
Definition fullStart (n : nat) (backend : bool) : FullHub :=
  mkFullHub (hubStart n) (if backend then AwaitSignal else Stopped) false.



(** The steps in which a signal enters the hub: a relay takes one from its
    source, or [signal] sends one. *)
Definition enters (e : fullEvent) : bool :=
  match e with
  | OfDevice e => isSignal e
  | BlasSignal | DirectSignal => true
  | _ => false
  end.

(** The signals held by the device relays and the BLAS relay. *)
Definition heldFull (h : FullHub) : nat :=
  (held (relayAt (deviceHub h)) + in_flight (blasAt h))%nat.

(** ** Launch geometry: theorems *)

Section GoIntFacts.

Lemma wrap_in_range z : GoInt.in_range z -> GoInt.wrap z = z.
Proof.
  unfold GoInt.in_range, GoInt.min_int, GoInt.max_int, GoInt.wrap. intros Hz.
  rewrite Z.mod_small by lia. lia.
Qed.

Lemma ceil_div_bounds a b :
  0 < b -> b * (ceil_div a b - 1) < a <= b * ceil_div a b.
Proof.
  intros Hb. unfold ceil_div.
  pose proof (Z.div_mod a b ltac:(lia)) as Hdm.
  pose proof (Z.mod_pos_bound a b Hb) as Hm.
  destruct (Z.eqb_spec (a mod b) 0) as [E|E]; nia.
Qed.

Lemma ceil_div_unique a b q :
  0 < b -> b * (q - 1) < a <= b * q -> ceil_div a b = q.
Proof.
  intros Hb Hq. pose proof (ceil_div_bounds a b Hb). nia.
Qed.

Lemma wrap_sub_wrap a b : GoInt.wrap (GoInt.wrap a - b) = GoInt.wrap (a - b).
Proof.
  unfold GoInt.wrap. f_equal.
  replace ((a + 2 ^ 63) mod 2 ^ 64 - 2 ^ 63 - b + 2 ^ 63)
    with ((a + 2 ^ 63) mod 2 ^ 64 - b) by lia.
  rewrite Zminus_mod_idemp_l. f_equal. lia.
Qed.

(** Without overflow, [calcBlocks] is the ceiling division. *)
Lemma calcBlocks_ceil n maxThreads :
  0 <= n -> 1 <= maxThreads -> n + maxThreads - 1 <= GoInt.max_int ->
  calcBlocks n maxThreads = Ret (ceil_div n maxThreads).
Proof.
  intros Hn Hm Hov. unfold calcBlocks, GoInt.quo, GoInt.sub, GoInt.add.
  unfold GoInt.max_int in Hov.
  destruct (Z.eqb_spec maxThreads 0) as [?|_]; [lia|].
  rewrite wrap_sub_wrap.
  rewrite (wrap_in_range (n + maxThreads - 1)) by (unfold GoInt.in_range, GoInt.min_int, GoInt.max_int; lia).
  rewrite Z.quot_div_nonneg by lia.
  assert (Hq : (n + maxThreads - 1) / maxThreads = ceil_div n maxThreads).
  { symmetry. apply ceil_div_unique; [lia|].
    pose proof (Z.div_mod (n + maxThreads - 1) maxThreads ltac:(lia)).
    pose proof (Z.mod_pos_bound (n + maxThreads - 1) maxThreads ltac:(lia)). nia. }
  rewrite Hq. f_equal. apply wrap_in_range.
  pose proof (ceil_div_bounds n maxThreads ltac:(lia)).
  unfold GoInt.in_range, GoInt.min_int, GoInt.max_int. nia.
Qed.

End GoIntFacts.

Section Geometry.
Context `{Ext : Externals}.

Lemma index_of_nat {A} (s : list A) (i : nat) (a : A) :
  s !! i = Some a -> index s (Z.of_nat i) = Ret a.
Proof.
  intros Hs. unfold index.
  destruct (Z.ltb_spec (Z.of_nat i) 0) as [?|_]; [lia|].
  by rewrite Nat2Z.id, Hs.
Qed.

Lemma index_out_of_range {A} (s : list A) (i : Z) :
  i < 0 \/ len s <= i -> index s i = Panic IndexOutOfRange.
Proof.
  intros Hi. unfold index, len in *.
  destruct (Z.ltb_spec i 0) as [?|Hge]; [done|].
  destruct (s !! Z.to_nat i) eqn:E; [|done].
  apply lookup_lt_Some in E. lia.
Qed.

Lemma mul_exact a b :
  1 <= a -> 1 <= b -> a * b <= GoInt.max_int -> GoInt.mul a b = a * b.
Proof.
  intros. apply wrap_in_range.
  unfold GoInt.in_range, GoInt.min_int, GoInt.max_int in *. nia.
Qed.

Lemma rem_exact a b :
  0 <= a -> 1 <= b -> GoInt.rem a b = Ret (a mod b).
Proof.
  intros. unfold GoInt.rem.
  destruct (Z.eqb_spec b 0) as [?|_]; [lia|].
  by rewrite Z.rem_mod_nonneg by lia.
Qed.

(** The switch of the source is the ladder of the specification as long as
    no intermediate value leaves the range of [int]. *)
Lemma elemGridSwitch_spec n mt gx gy gz :
  profile_ok mt gx gy gz -> 0 <= n -> n + mt - 1 <= GoInt.max_int ->
  elemGridSwitch n mt gx gy gz = Ret (spec_ElemGridSize n mt gx gy gz).
Proof.
  intros (Hmt & Hgx & Hgy & Hgz & Hcap) Hn Hov.
  unfold elemGridSwitch, spec_ElemGridSize.
  rewrite calcBlocks_ceil by lia. cbn [obind].
  pose proof (ceil_div_bounds n mt ltac:(lia)) as Hb.
  set (blocks := ceil_div n mt) in *.
  assert (0 <= blocks) by nia.
  assert (Hxy : gx * gy <= GoInt.max_int) by nia.
  rewrite (mul_exact gx gy) by lia.
  rewrite (mul_exact (gx * gy) gz) by nia.
  destruct (blocks =? 1); [done|].
  destruct (blocks >=? gx * gy * gz); [done|].
  destruct (blocks >=? gx * gy).
  - rewrite rem_exact by nia. cbn [obind].
    pose proof (Z.mod_pos_bound blocks (gx * gy) ltac:(nia)).
    rewrite calcBlocks_ceil by nia. done.
  - destruct (blocks >=? gx); [|done].
    rewrite rem_exact by lia. cbn [obind].
    pose proof (Z.mod_pos_bound blocks gx ltac:(lia)).
    rewrite calcBlocks_ceil by nia. done.
Qed.

Lemma ElemGridSize_switch (m : ExternMetadata) n (dev : nat) mt gx gy gz :
  has_profile m dev mt gx gy gz ->
  ElemGridSize m n (Z.of_nat dev) = elemGridSwitch n mt gx gy gz.
Proof.
  intros (Hmt & Hgx & Hgy & Hgz). unfold ElemGridSize.
  rewrite (index_of_nat _ _ _ Hmt), (index_of_nat _ _ _ Hgx),
    (index_of_nat _ _ _ Hgy), (index_of_nat _ _ _ Hgz). done.
Qed.

Lemma ceil_div_one n mt : 1 <= n <= mt -> ceil_div n mt = 1.
Proof. intros. apply ceil_div_unique; lia. Qed.

(** On a device whose limits are read, [ElemGridSize] returns the geometry
    of the ladder. *)
Lemma ElemGridSize_runs_ladder (m : ExternMetadata) (n : Z) (dev : nat)
    (mt gx gy gz : Z) :
  has_profile m dev mt gx gy gz ->
  profile_ok mt gx gy gz ->
  0 <= n -> n + mt - 1 <= GoInt.max_int ->
  ElemGridSize m n (Z.of_nat dev) = Ret (spec_ElemGridSize n mt gx gy gz).
Proof.
  intros Hp Hok Hn Hov.
  rewrite (ElemGridSize_switch _ _ _ _ _ _ _ Hp). by apply elemGridSwitch_spec.
Qed.

(** C3, as amended. For a work-item count [n >= 0] and
    [maxThreadsPerBlock >= 1] with [n + maxThreadsPerBlock - 1] a value of
    [int], [ElemGridSize] computes [blocks] as the integer ceiling of
    [n / maxThreadsPerBlock]; when moreover the three grid limits are at
    least one and the grid capacity is a value of [int], it follows the
    five-way case ladder of the specification in its order; and whenever
    [1 <= n <= maxThreadsPerBlock] the result is exactly [(1,1,1,n,1,1)],
    whatever the grid limits, which the first case does not read. *)
Theorem ElemGridSize_follows_ladder (m : ExternMetadata) (n : Z) (dev : nat)
    (mt gx gy gz : Z) :
  has_profile m dev mt gx gy gz ->
  1 <= mt -> 0 <= n -> n + mt - 1 <= GoInt.max_int ->
  calcBlocks n mt = Ret (ceil_div n mt) /\
  (profile_ok mt gx gy gz ->
     ElemGridSize m n (Z.of_nat dev) = Ret (spec_ElemGridSize n mt gx gy gz)) /\
  (1 <= n <= mt -> ElemGridSize m n (Z.of_nat dev) = Ret (mkGridSize 1 1 1 n 1 1)).
Proof.
  intros Hp Hmt Hn Hov.
  pose proof (calcBlocks_ceil n mt Hn Hmt Hov) as Hblocks.
  split; [done|]. split.
  - intros Hok. by apply ElemGridSize_runs_ladder.
  - intros Hsmall. rewrite (ElemGridSize_switch _ _ _ _ _ _ _ Hp).
    unfold elemGridSwitch. rewrite Hblocks. cbn [obind].
    by rewrite (ceil_div_one n mt Hsmall).
Qed.

End Geometry.

Section GeometryCoverage.
Context `{Ext : Externals}.

(** C1, as amended. For [n >= 1] and limits that are at least one (and
    within the range of [int]), [ElemGridSize] returns; when a single block
    suffices or the blocks fit in one grid row ([blocks = 1] or
    [blocks < maxGridX]) the geometry addresses at least [n] work items and
    every dimension is within its maximum; when [blocks] reaches the grid
    capacity [maxGridX*maxGridY*maxGridZ] the result is the saturated default
    [(1,1,1,1,1,1)], within the maxima but addressing fewer than [n] items. *)
Theorem ElemGridSize_covers_single_row (m : ExternMetadata) (n : Z) (dev : nat)
    (mt gx gy gz : Z) :
  has_profile m dev mt gx gy gz ->
  profile_ok mt gx gy gz ->
  1 <= n -> n + mt - 1 <= GoInt.max_int ->
  exists g, ElemGridSize m n (Z.of_nat dev) = Ret g /\
    (ceil_div n mt = 1 \/ ceil_div n mt < gx ->
       n <= lanes g /\ within_limits g mt gx gy gz) /\
    (ceil_div n mt <> 1 -> gx * gy * gz <= ceil_div n mt ->
       g = mkGridSize 1 1 1 1 1 1 /\ within_limits g mt gx gy gz /\ lanes g < n).
Proof.
  intros Hp Hok Hn Hov.
  pose proof (ElemGridSize_runs_ladder m n dev mt gx gy gz Hp Hok ltac:(lia) Hov)
    as Hrun.
  destruct Hok as (Hmt & Hgx & Hgy & Hgz & Hcap).
  pose proof (ceil_div_bounds n mt ltac:(lia)) as Hb.
  exists (spec_ElemGridSize n mt gx gy gz). split; [done|].
  unfold spec_ElemGridSize. set (blocks := ceil_div n mt) in *.
  rewrite !Z.geb_leb.
  assert (gx <= gx * gy) by nia.
  assert (gx * gy <= gx * gy * gz) by nia.
  assert (1 <= blocks) by nia.
  destruct (Z.eqb_spec blocks 1) as [E1|N1];
    [|destruct (Z.leb_spec (gx * gy * gz) blocks) as [Hsat|Hns];
      [|destruct (Z.leb_spec (gx * gy) blocks) as [Hxy|Hnxy];
        [|destruct (Z.leb_spec gx blocks) as [Hx|Hnx]]]].
  - split; [|done]. intros _. unfold lanes, within_limits; cbn. rewrite E1 in Hb. lia.
  - split.
    + intros [?|Hlt]; [done|]. lia.
    + intros _ _. unfold lanes, within_limits; cbn. split; [done|]. split; [lia|]. nia.
  - split; [|intros _ ?; lia]. intros [?|Hlt]; [done|]. lia.
  - split; [|intros _ ?; lia]. intros [?|Hlt]; [done|]. lia.
  - split; [|intros _ ?; lia]. intros _. unfold lanes, within_limits; cbn. nia.
Qed.

(** C4. What the code does for a device identifier out of range: the guard
    on [dev] does nothing, the limits are read with [md.mtpb[dev]], and the
    call faults with an index out of range instead of returning. *)
Theorem ElemGridSize_out_of_range_panics (m : ExternMetadata) (n dev : Z) :
  dev < 0 \/ len (mtpb m) <= dev ->
  ElemGridSize m n dev = Panic IndexOutOfRange.
Proof.
  intros Hdev. unfold ElemGridSize. by rewrite index_out_of_range.
Qed.

End GeometryCoverage.

Section GeometryExamples.
Local Existing Instance simExternals.

(** The end-to-end scenario of the specification: 300 items on a device
    with 256 threads per block; and 200 items on a device whose grid limits
    were never stored. *)
Lemma ElemGridSize_follows_ladder_witness :
  ElemGridSize (withProfiles [(256, 65535, 65535, 65535)]) 300 0
  = Ret (mkGridSize 2 1 1 256 1 1) /\
  ElemGridSize (withProfiles [(256, 0, 0, 0)]) 200 0
  = Ret (mkGridSize 1 1 1 200 1 1).
Proof.
  split.
  - destruct (ElemGridSize_follows_ladder
                (withProfiles [(256, 65535, 65535, 65535)]) 300 0 256 65535 65535 65535)
      as (_ & H & _).
    + repeat split; reflexivity.
    + lia.
    + lia.
    + unfold GoInt.max_int. lia.
    + apply H. unfold profile_ok, GoInt.max_int. lia.
  - destruct (ElemGridSize_follows_ladder
                (withProfiles [(256, 0, 0, 0)]) 200 0 256 0 0 0)
      as (_ & _ & H).
    + repeat split; reflexivity.
    + lia.
    + lia.
    + unfold GoInt.max_int. lia.
    + apply H. lia.
Defined.

(** C3 as stated fails on values of [int] the code accepts. With the
    largest [int] as count on a common card, [n + maxThreads - 1] wraps
    around: the block count is negative, not the ceiling, and the result is
    not the one of the ladder. With [n = maxThreadsPerBlock] the largest
    [int], the result is not [(1,1,1,n,1,1)]. A negative count is divided
    towards zero, not up. Grid limits whose product leaves [int] make the
    capacity wrap to zero, and twenty blocks are taken for saturated. *)
Lemma ElemGridSize_ladder_needs_int_range :
  (has_profile (withProfiles [(1024, 65535, 65535, 65535)]) 0 1024 65535 65535 65535 /\
   calcBlocks (2 ^ 63 - 1) 1024 = Ret (- 9007199254740991) /\
   ceil_div (2 ^ 63 - 1) 1024 = 9007199254740992 /\
   ElemGridSize (withProfiles [(1024, 65535, 65535, 65535)]) (2 ^ 63 - 1) 0
   = Ret (mkGridSize (- 9007199254740991) 1 1 1024 1 1) /\
   spec_ElemGridSize (2 ^ 63 - 1) 1024 65535 65535 65535 = mkGridSize 1 1 1 1 1 1) /\
  (has_profile (withProfiles [(2 ^ 63 - 1, 65535, 65535, 65535)]) 0
     (2 ^ 63 - 1) 65535 65535 65535 /\
   1 <= 2 ^ 63 - 1 <= 2 ^ 63 - 1 /\
   ElemGridSize (withProfiles [(2 ^ 63 - 1, 65535, 65535, 65535)]) (2 ^ 63 - 1) 0
   = Ret (mkGridSize 0 1 1 (2 ^ 63 - 1) 1 1) /\
   ElemGridSize (withProfiles [(2 ^ 63 - 1, 65535, 65535, 65535)]) (2 ^ 63 - 1) 0
   <> Ret (mkGridSize 1 1 1 (2 ^ 63 - 1) 1 1)) /\
  (calcBlocks (-4) 3 = Ret 0 /\ ceil_div (-4) 3 = -1) /\
  (ElemGridSize (withProfiles [(256, 2 ^ 32, 2 ^ 32, 2 ^ 32)]) 5000 0
   = Ret (mkGridSize 1 1 1 1 1 1) /\
   spec_ElemGridSize 5000 256 (2 ^ 32) (2 ^ 32) (2 ^ 32) = mkGridSize 20 1 1 256 1 1).
Proof.
  split; [|split; [|split]].
  - split; [repeat split; reflexivity|]. repeat split; vm_compute; reflexivity.
  - split; [repeat split; reflexivity|]. split; [lia|].
    split; [vm_compute; reflexivity|]. vm_compute. discriminate.
  - split; vm_compute; reflexivity.
  - split; vm_compute; reflexivity.
Qed.

Lemma ElemGridSize_covers_single_row_witness :
  exists g, ElemGridSize (withProfiles [(256, 65535, 65535, 65535)]) 300 0 = Ret g /\
            300 <= lanes g /\ within_limits g 256 65535 65535 65535.
Proof.
  destruct (ElemGridSize_covers_single_row
              (withProfiles [(256, 65535, 65535, 65535)]) 300 0 256 65535 65535 65535)
    as (g & Hg & Hcov & _).
  - repeat split; reflexivity.
  - unfold profile_ok, GoInt.max_int. lia.
  - lia.
  - unfold GoInt.max_int. lia.
  - exists g. split; [exact Hg|]. apply Hcov. right. vm_compute. reflexivity.
Defined.

(** C1 as stated fails: two work items on a device whose four limits are
    one reach the saturated default, which addresses a single item. *)
Lemma ElemGridSize_saturated_undercovers :
  has_profile (withProfiles [(1, 1, 1, 1)]) 0 1 1 1 1 /\
  profile_ok 1 1 1 1 /\ 1 <= 2 /\
  ElemGridSize (withProfiles [(1, 1, 1, 1)]) 2 0 = Ret (mkGridSize 1 1 1 1 1 1) /\
  ~ geometry_covers (withProfiles [(1, 1, 1, 1)]) 2 0 1 1 1 1.
Proof.
  split; [repeat split; reflexivity|].
  split; [unfold profile_ok, GoInt.max_int; lia|].
  split; [lia|]. split; [reflexivity|].
  intros Hcov. unfold geometry_covers in Hcov. vm_compute in Hcov.
  destruct Hcov as [Hlanes _]. apply Hlanes. reflexivity.
Qed.

(** The wrap over Y takes the remainder, not the quotient: one item more
    than a full row of 65535 blocks of 1024 threads gets a single row. *)
Example ElemGridSize_row_wrap_short :
  ElemGridSize (withProfiles [(1024, 65535, 65535, 65535)]) 67107841 0
  = Ret (mkGridSize 65535 1 1 1024 1 1) /\
  lanes (mkGridSize 65535 1 1 1024 1 1) < 67107841.
Proof. split; [reflexivity|]. unfold lanes; cbn. lia. Qed.

(** The remainder spread over Y can exceed the Y limit. *)
Example ElemGridSize_row_wrap_exceeds :
  ElemGridSize (withProfiles [(1, 10, 2, 1)]) 19 0 = Ret (mkGridSize 10 5 1 1 1 1).
Proof. reflexivity. Qed.

(** One device, and the device identifier 1: the guard compares with [>]
    and its body is empty, so the lookup [md.mtpb[dev]] faults. *)
Lemma ElemGridSize_out_of_range_panics_witness :
  ElemGridSize (withProfiles [(1024, 65535, 65535, 65535)]) 1 1
  = Panic IndexOutOfRange.
Proof.
  apply (ElemGridSize_out_of_range_panics
           (withProfiles [(1024, 65535, 65535, 65535)]) 1 1).
  right. vm_compute. discriminate.
Defined.

(** Beyond the range of [int] the sum [n + maxThreads - 1] wraps around and
    the block count comes out negative. *)
Example ElemGridSize_wraps_around :
  ElemGridSize (withProfiles [(2, 65535, 65535, 65535)]) (2 ^ 63 - 1) 0
  = Ret (mkGridSize (- 2 ^ 62) 1 1 2 1 1).
Proof. vm_compute. reflexivity. Qed.

End GeometryExamples.

(** ** The memory arena: theorems *)

Section ArenaFacts.
Context `{Ext : Externals}.

Lemma md_set_queues v (w : World) : md (set_queues v w) = md w.
Proof. by destruct w. Qed.

Lemma queues_set_queues v (w : World) : queues (set_queues v w) = v.
Proof. by destruct w. Qed.

Lemma queues_set_md v (w : World) : queues (set_md v w) = queues w.
Proof. by destruct w. Qed.

Lemma md_set_md v (w : World) : md (set_md v w) = v.
Proof. by destruct w. Qed.

Lemma arena_set_arena v (m : ExternMetadata) : arena (set_arena v m) = v.
Proof. by destruct m. Qed.

Lemma set_queues_id (w : World) : set_queues (queues w) w = w.
Proof. by destruct w. Qed.

Lemma geb_in_range {A} (s : list A) (d : nat) (a : A) :
  s !! d = Some a -> (Z.of_nat d >=? len s) = false.
Proof.
  intros Hs. apply lookup_lt_Some in Hs. unfold len.
  rewrite Z.geb_leb. apply Z.leb_gt. lia.
Qed.

(** [Get] on a pool that exists runs [get] on it, in place. *)
Lemma Get_pool (w : World) (d : nat) (s : N) g p q :
  arena (md w) !! d = Some (Some g) -> g !! s = Some p -> queues w !! p = Some q ->
  Get (Z.of_nat d) s w
  = Ret ((mq_get q).1, set_queues (<[p := (mq_get q).2]> (queues w)) w).
Proof.
  intros Ha Hg Hq. unfold Get, bind, getMD, lift, ret.
  rewrite (geb_in_range _ _ _ Ha), (index_of_nat _ _ _ Ha). cbn [map_read].
  rewrite Hg. unfold withQueue. rewrite Hq. by destruct (mq_get q).
Qed.

(** [Put] on a pool that exists adds to it, in place: no pool is created
    and the arena keeps its addresses. *)
Lemma Put_existing (w : World) (d : nat) (s : N) (blk : Memory) g p q :
  arena (md w) !! d = Some (Some g) -> g !! s = Some p -> queues w !! p = Some q ->
  Put (Z.of_nat d) blk s w
  = Ret (tt, set_queues (<[p := mq_add blk q]> (queues w)) w).
Proof.
  intros Ha Hg Hq. unfold Put, bind, getMD, lift, ret.
  rewrite (geb_in_range _ _ _ Ha), (index_of_nat _ _ _ Ha). cbn [map_read].
  rewrite Hg. unfold withQueue. by rewrite Hq.
Qed.

(** [Put] on an unseen size creates the pool, enters it in the map of the
    device and adds the block. *)
Lemma Put_fresh (w : World) (d : nat) (s : N) (blk : Memory) g :
  arena (md w) !! d = Some (Some g) -> g !! s = None ->
  exists w', Put (Z.of_nat d) blk s w = Ret (tt, w') /\
    arena (md w') = <[d := Some (<[s := length (queues w)]> g)]> (arena (md w)) /\
    queues w' = queues w ++ [mkMemoryQueue s [blk]].
Proof.
  intros Ha Hg. unfold Put, bind, getMD, lift, ret.
  rewrite (geb_in_range _ _ _ Ha), (index_of_nat _ _ _ Ha). cbn [map_read].
  rewrite Hg. unfold allocQueue, map_write, assign, modifyMD, withQueue.
  destruct (Z.ltb_spec (Z.of_nat d) 0) as [?|_]; [lia|].
  rewrite Nat2Z.id.
  pose proof (lookup_lt_Some _ _ _ Ha) as Hlt.
  destruct (Nat.ltb_spec d (length (arena (md w)))) as [_|?]; [|lia].
  cbn. rewrite !md_set_queues, !queues_set_md, !queues_set_queues.
  rewrite lookup_app_r by lia. rewrite Nat.sub_diag. cbn.
  eexists. split; [reflexivity|].
  rewrite md_set_queues, md_set_md, arena_set_arena, queues_set_queues.
  split; [done|].
  rewrite insert_app_r_alt by lia. by rewrite Nat.sub_diag.
Qed.

(** Draining a pool returns its blocks in the order they were added. *)
Lemma GetN_drains (l : list Memory) : forall (w : World) (d : nat) (s : N) g p q,
  arena (md w) !! d = Some (Some g) -> g !! s = Some p -> queues w !! p = Some q ->
  mq_data q = l ->
  exists w', GetN (length l) (Z.of_nat d) s w = Ret (found <$> l, w') /\
    md w' = md w /\ queues w' = <[p := mkMemoryQueue (mq_size q) []]> (queues w).
Proof.
  induction l as [|x l IH]; intros w d s g p q Ha Hg Hq Hl.
  - exists w. cbn. unfold ret. split; [done|]. split; [done|].
    destruct q as [sz dat]; cbn in *; subst. by rewrite list_insert_id.
  - cbn [length GetN]. unfold bind at 1.
    rewrite (Get_pool w d s g p q Ha Hg Hq).
    unfold mq_get. rewrite Hl. cbn [fst snd].
    set (w1 := set_queues _ w).
    assert (Hq1 : queues w1 !! p = Some (mkMemoryQueue (mq_size q) l)).
    { unfold w1. rewrite queues_set_queues. apply list_lookup_insert_eq.
      by eapply lookup_lt_Some. }
    assert (Ha1 : arena (md w1) !! d = Some (Some g)).
    { unfold w1. by rewrite md_set_queues. }
    destruct (IH w1 d s g p _ Ha1 Hg Hq1 eq_refl) as (w' & Hrun & Hmd & Hqs).
    exists w'. unfold bind. rewrite Hrun. unfold ret. cbn.
    split; [done|]. split.
    + rewrite Hmd. unfold w1. by rewrite md_set_queues.
    + rewrite Hqs. unfold w1. rewrite queues_set_queues. by rewrite list_insert_insert_eq.
Qed.

End ArenaFacts.

Section ArenaTheorems.
Context `{Ext : Externals}.

(** C5, as amended. For a device identifier that is not negative: [Get]
    beyond the last device, or on a size for which the device has no pool,
    or on an empty pool, returns the "not found" sentinel and leaves the
    world as it was; [Put] beyond the last device returns and leaves the
    world as it was. *)
Theorem Get_not_found_Put_skipped (w : World) (d : Z) (s : N) :
  0 <= d ->
  (len (arena (md w)) <= d \/
   (exists mp, arena (md w) !! Z.to_nat d = Some mp /\ map_read mp s = None) \/
   (exists mp p q, arena (md w) !! Z.to_nat d = Some mp /\ map_read mp s = Some p /\
                   queues w !! p = Some q /\ mq_data q = []) ->
   Get d s w = Ret (notFound, w)) /\
  (len (arena (md w)) <= d -> forall mem, Put d mem s w = Ret (tt, w)).
Proof.
  intros Hd. split.
  - intros [Hout|[(mp & Ha & Hs)|(mp & p & q & Ha & Hs & Hq & Hempty)]].
    + unfold Get, bind, getMD, ret. rewrite Z.geb_leb.
      destruct (Z.leb_spec (len (arena (md w))) d); [done|lia].
    + rewrite <- (Z2Nat.id d Hd). unfold Get, bind, getMD, lift, ret.
      rewrite (geb_in_range _ _ _ Ha), (index_of_nat _ _ _ Ha). by rewrite Hs.
    + rewrite <- (Z2Nat.id d Hd). unfold Get, bind, getMD, lift, ret.
      rewrite (geb_in_range _ _ _ Ha), (index_of_nat _ _ _ Ha). rewrite Hs.
      unfold withQueue, mq_get. rewrite Hq, Hempty.
      by rewrite list_insert_id, set_queues_id.
  - intros Hout mem. unfold Put, bind, getMD, ret. rewrite Z.geb_leb.
    destruct (Z.leb_spec (len (arena (md w))) d); [done|lia].
Qed.

(** C10. The guard of the arena bounds the device identifier from above
    only: with at least one device, [Get] and [Put] on a negative identifier
    pass the guard and index the arena out of bounds. *)
Theorem arena_negative_device_faults (w : World) (d : Z) (s : N) (mem : Memory) :
  d < 0 -> 1 <= len (arena (md w)) ->
  Get d s w = Panic IndexOutOfRange /\ Put d mem s w = Panic IndexOutOfRange.
Proof.
  intros Hd Hlen.
  assert (Hguard : (d >=? len (arena (md w))) = false)
    by (rewrite Z.geb_leb; apply Z.leb_gt; lia).
  split.
  - unfold Get, bind, getMD, lift. rewrite Hguard.
    rewrite index_out_of_range by lia. done.
  - unfold Put, bind, getMD, lift. rewrite Hguard.
    rewrite index_out_of_range by lia. done.
Qed.

End ArenaTheorems.

Section ArenaExamples.
Local Existing Instance simExternals.

(** Two devices, the second without a map: a device beyond the range and
    an unseen size; then a pool that has been emptied. *)
Lemma Get_not_found_Put_skipped_witness :
  Get 3 4096 (worldWithArena [Some ∅; None] []) = Ret (notFound, worldWithArena [Some ∅; None] []) /\
  Get 1 4096 (worldWithArena [Some ∅; None] []) = Ret (notFound, worldWithArena [Some ∅; None] []) /\
  Put 3 (block 700) 4096 (worldWithArena [Some ∅; None] []) = Ret (tt, worldWithArena [Some ∅; None] []) /\
  Get 0 4096 (worldWithArena [Some {[4096%N := 0%nat]}] [mkMemoryQueue 4096 []])
  = Ret (notFound, worldWithArena [Some {[4096%N := 0%nat]}] [mkMemoryQueue 4096 []]).
Proof.
  destruct (Get_not_found_Put_skipped (worldWithArena [Some ∅; None] []) 3 4096 ltac:(lia))
    as (Hget & Hput).
  destruct (Get_not_found_Put_skipped (worldWithArena [Some ∅; None] []) 1 4096 ltac:(lia))
    as (Hget1 & _).
  destruct (Get_not_found_Put_skipped
              (worldWithArena [Some {[4096%N := 0%nat]}] [mkMemoryQueue 4096 []])
              0 4096 ltac:(lia)) as (Hget0 & _).
  split; [|split; [|split]].
  - apply Hget. left. vm_compute. discriminate.
  - apply Hget1. right. left. exists None. split; reflexivity.
  - apply Hput. vm_compute. discriminate.
  - apply Hget0. right. right.
    exists (Some {[4096%N := 0%nat]}), 0%nat, (mkMemoryQueue 4096 []).
    repeat split; reflexivity.
Defined.

(** C5 as stated fails on a negative identifier: no pool was ever created
    (for any pair), yet [Get] faults instead of reporting "not found". *)
Lemma Get_negative_device_unseen_faults :
  queues (worldWithArena [Some ∅] []) = [] /\
  Get (-1) 4096 (worldWithArena [Some ∅] []) = Panic IndexOutOfRange.
Proof. split; reflexivity. Qed.

(** A device in range whose map was never made (as [init] leaves the
    devices it did not reach): [Get] finds nothing, [Put] writes a nil map. *)
Example Put_without_map_faults :
  Get 1 512 (worldWithArena [Some ∅; None] []) = Ret (notFound, worldWithArena [Some ∅; None] []) /\
  Put 1 (block 700) 512 (worldWithArena [Some ∅; None] []) = Panic NilMapAssign.
Proof. split; reflexivity. Qed.

Lemma arena_negative_device_faults_witness :
  Get (-2) 512 (worldWithArena [Some ∅; Some ∅] []) = Panic IndexOutOfRange /\
  Put (-2) (block 700) 512 (worldWithArena [Some ∅; Some ∅] []) = Panic IndexOutOfRange.
Proof.
  apply (arena_negative_device_faults (worldWithArena [Some ∅; Some ∅] []) (-2) 512 (block 700)).
  - lia.
  - vm_compute. discriminate.
Defined.

End ArenaExamples.

(** ** The flush routine: theorems *)

Section Flush.
Context `{Ext : Externals}.

Lemma assign_of_nat {A} (s : list A) (i : nat) (v : A) :
  (i < length s)%nat -> assign s (Z.of_nat i) v = Ret (<[i := v]> s).
Proof.
  intros Hi. unfold assign.
  destruct (Z.ltb_spec (Z.of_nat i) 0) as [?|_]; [lia|].
  rewrite Nat2Z.id. by destruct (Nat.ltb_spec i (length s)) as [_|?]; [|lia].
Qed.

(** A device without pending work is skipped. *)
Lemma doWorkDevice_idle (w : World) (i : nat) :
  hasWork (md w) !! i = Some false -> doWorkDevice i w = Ret (None, w).
Proof.
  intros Hhw. unfold doWorkDevice, bind, getMD, lift.
  by rewrite (index_of_nat _ _ _ Hhw).
Qed.

(** A device with pending work is flushed; the error of the flush, if any,
    is the result and the flag is cleared only when there is none. *)
Lemma doWorkDevice_flush (w : World) (i : nat) cs ctx :
  hasWork (md w) !! i = Some true -> c (md w) = Some cs -> cs !! i = Some (Some ctx) ->
  exists w',
    doWorkDevice i w = Ret (bc_Errors (bc_DoWork ctx), w') /\
    same_but_flush w w'
      (match bc_Errors (bc_DoWork ctx) with
       | Some _ => hasWork (md w)
       | None => <[i := false]> (hasWork (md w))
       end)
      (<[i := Some (bc_DoWork ctx)]> cs).
Proof.
  intros Hhw Hc Hctx.
  pose proof (lookup_lt_Some _ _ _ Hhw) as Hlt1.
  pose proof (lookup_lt_Some _ _ _ Hctx) as Hlt2.
  destruct w as [m0 qs chs gs lg cur lib]. destruct m0. cbn in *. subst.
  unfold doWorkDevice, contextAt, updateContext, bind, getMD, lift, modifyMD, ret. cbn.
  rewrite (index_of_nat _ _ _ Hhw). cbn.
  rewrite (index_of_nat _ _ _ Hctx). cbn.
  rewrite (assign_of_nat _ _ _ Hlt2). cbn.
  rewrite (index_of_nat _ i (Some (bc_DoWork ctx)))
    by (by apply list_lookup_insert_eq).
  destruct (bc_Errors (bc_DoWork ctx)) as [e|].
  - eexists. split; [reflexivity|]. by repeat split.
  - cbn. rewrite (assign_of_nat _ _ _ Hlt1). cbn.
    eexists. split; [reflexivity|]. by repeat split.
Qed.

Lemma doWorkLoop_app (l1 l2 : list nat) (w : World) :
  doWorkLoop (l1 ++ l2) w =
  match doWorkLoop l1 w with
  | Ret (None, w1) => doWorkLoop l2 w1
  | Ret (Some e, w1) => Ret (Some e, w1)
  | Panic p => Panic p
  end.
Proof.
  revert w. induction l1 as [|i l1 IH]; intros w; [done|].
  cbn [app doWorkLoop]. unfold bind.
  destruct (doWorkDevice i w) as [[[e|] w1]|p]; [done| |done].
  apply IH.
Qed.

(** The loop over the devices [a, a+n), none of which reports an error:
    their flags end cleared and their contexts flushed where they had work;
    nothing outside the range is touched. *)
Lemma doWorkLoop_all (n : nat) : forall (a : nat) (w : World) cs,
  c (md w) = Some cs ->
  (forall i, (a <= i < a + n)%nat -> flushes_clean w cs i) ->
  exists w' cs',
    doWorkLoop (seq a n) w = Ret (None, w') /\
    c (md w') = Some cs' /\ length cs' = length cs /\
    length (hasWork (md w')) = length (hasWork (md w)) /\
    b (md w') = b (md w) /\ blasHasWork (md w') = blasHasWork (md w) /\
    (forall j, (j < a \/ a + n <= j)%nat ->
       cs' !! j = cs !! j /\ hasWork (md w') !! j = hasWork (md w) !! j) /\
    (forall i, (a <= i < a + n)%nat ->
       hasWork (md w') !! i = Some false /\ cs' !! i = flushed_slot w cs i).
Proof.
  induction n as [|n IH]; intros a w cs Hc Hclean.
  - exists w, cs. cbn. unfold ret. repeat split; try done; lia.
  - cbn [seq doWorkLoop]. unfold bind at 1.
    assert (Hstep : exists w1 cs1,
      doWorkDevice a w = Ret (None, w1) /\ c (md w1) = Some cs1 /\
      length cs1 = length cs /\ length (hasWork (md w1)) = length (hasWork (md w)) /\
      b (md w1) = b (md w) /\ blasHasWork (md w1) = blasHasWork (md w) /\
      (forall j, j <> a -> cs1 !! j = cs !! j /\ hasWork (md w1) !! j = hasWork (md w) !! j) /\
      hasWork (md w1) !! a = Some false /\ cs1 !! a = flushed_slot w cs a).
    { destruct (Hclean a ltac:(lia)) as [Hidle|(Hhw & ctx & Hctx & Hok)].
      - exists w, cs. rewrite (doWorkDevice_idle w a Hidle).
        unfold flushed_slot. rewrite Hidle. by destruct (cs !! a); repeat split.
      - destruct (doWorkDevice_flush w a cs ctx Hhw Hc Hctx) as (w1 & Hrun & Hsame).
        rewrite Hok in Hrun, Hsame. destruct Hsame as (Hhw1 & Hc1 & Hb1 & Hbl1).
        exists w1, (<[a := Some (bc_DoWork ctx)]> cs).
        pose proof (lookup_lt_Some _ _ _ Hhw). pose proof (lookup_lt_Some _ _ _ Hctx).
        rewrite Hhw1, !length_insert. split; [done|]. split; [done|].
        split; [done|]. split; [done|]. split; [done|]. split; [done|]. split.
        + intros j Hj. by rewrite !list_lookup_insert_ne.
        + unfold flushed_slot. rewrite Hhw, Hctx, !list_lookup_insert_eq by done. done. }
    destruct Hstep as (w1 & cs1 & Hrun1 & Hc1 & Hl1 & Hlh1 & Hb1 & Hbl1 & Hframe1 & Ha1 & Hs1).
    rewrite Hrun1.
    destruct (IH (S a) w1 cs1 Hc1)
      as (w' & cs' & Hrun & Hc' & Hl' & Hlh' & Hb' & Hbl' & Hframe & Hclr).
    { intros i Hi. destruct (Hframe1 i ltac:(lia)) as [Hcs Hhw].
      unfold flushes_clean. rewrite Hhw.
      destruct (Hclean i ltac:(lia)) as [?|(? & ctx & ? & ?)]; [by left|].
      right. split; [done|]. exists ctx. by rewrite Hcs. }
    exists w', cs'. split; [done|]. split; [done|].
    split; [congruence|]. split; [congruence|]. split; [congruence|].
    split; [congruence|]. split.
    + intros j Hj. destruct (Hframe j ltac:(lia)) as [-> ->]. apply Hframe1. lia.
    + intros i Hi. destruct (decide (i = a)) as [->|Hne].
      * destruct (Hframe a ltac:(lia)) as [-> ->]. done.
      * destruct (Hclr i ltac:(lia)) as [-> ->]. split; [done|].
        destruct (Hframe1 i Hne) as [Hcs Hhw]. unfold flushed_slot. by rewrite Hcs, Hhw.
Qed.

(** C6, as amended. [DoWork] visits the devices in increasing order; when
    the flush of device [k] is the first to report an error, [DoWork]
    returns that error at once. The flush call of [k] has been made: its
    context is as that call left it, and its flag stays set. The devices
    after [k] keep their flags and their contexts as they were, not flushed,
    and the BLAS flag and backend are not touched. The devices before [k]
    have been flushed where they had work, and their flags cleared. *)
Theorem DoWork_stops_at_first_error (w : World) (k : nat)
    (cs : list (option BatchedContext)) (ctx : BatchedContext) (err : error) :
  c (md w) = Some cs ->
  hasWork (md w) !! k = Some true ->
  cs !! k = Some (Some ctx) ->
  bc_Errors (bc_DoWork ctx) = Some err ->
  (forall i, (i < k)%nat -> flushes_clean w cs i) ->
  exists w' cs',
    DoWork w = Ret (Some err, w') /\
    c (md w') = Some cs' /\
    cs' !! k = Some (Some (bc_DoWork ctx)) /\
    hasWork (md w') !! k = Some true /\
    (forall j, (k < j)%nat ->
       cs' !! j = cs !! j /\ hasWork (md w') !! j = hasWork (md w) !! j) /\
    (forall i, (i < k)%nat ->
       hasWork (md w') !! i = Some false /\ cs' !! i = flushed_slot w cs i) /\
    blasHasWork (md w') = blasHasWork (md w) /\
    b (md w') = b (md w).
Proof.
  intros Hc Hhw Hctx Herr Hbefore.
  pose proof (lookup_lt_Some _ _ _ Hhw) as Hlt.
  destruct (doWorkLoop_all k 0 w cs Hc)
    as (w1 & cs1 & Hrun1 & Hc1 & Hl1 & Hlh1 & Hb1 & Hbl1 & Hframe1 & Hclr1).
  { intros i Hi. apply Hbefore. lia. }
  destruct (Hframe1 k ltac:(lia)) as [Hcs1k Hhw1k].
  rewrite Hctx in Hcs1k. rewrite Hhw in Hhw1k.
  destruct (doWorkDevice_flush w1 k cs1 ctx Hhw1k Hc1 Hcs1k) as (w' & Hrunk & Hsame).
  rewrite Herr in Hrunk, Hsame. destruct Hsame as (Hhw' & Hc' & Hb' & Hbl').
  exists w', (<[k := Some (bc_DoWork ctx)]> cs1).
  split.
  { unfold DoWork, bind at 1, getMD. unfold bind at 1.
    replace (length (hasWork (md w))) with (k + S (length (hasWork (md w)) - S k))%nat by lia.
    rewrite seq_app, doWorkLoop_app, Hrun1. cbn [seq doWorkLoop Nat.add].
    unfold bind at 1. rewrite Hrunk. done. }
  split; [done|]. split.
  { apply list_lookup_insert_eq. by eapply lookup_lt_Some. }
  split; [by rewrite Hhw'|]. split.
  { intros j Hj. rewrite Hhw'. rewrite list_lookup_insert_ne by lia.
    apply Hframe1. lia. }
  split.
  { intros i Hi. rewrite Hhw'. rewrite list_lookup_insert_ne by lia.
    apply Hclr1. lia. }
  split; congruence.
Qed.

End Flush.

Section FlushExamples.
Local Existing Instance simExternals.

(** Three devices with pending work; the queued call of device 1 fails. *)
Lemma DoWork_stops_at_first_error_witness :
  exists w',
    DoWork (flushWorld [true; true; true]
              [queued 0 None; queued 1 (Some (cuError 700)); queued 2 None])
    = Ret (Some (cuError 700), w') /\
    hasWork (md w') = [false; true; true] /\
    (exists cs', c (md w') = Some cs' /\ cs' !! 2%nat = Some (queued 2 None)) /\
    blasHasWork (md w') = true.
Proof.
  destruct (DoWork_stops_at_first_error
              (flushWorld [true; true; true]
                 [queued 0 None; queued 1 (Some (cuError 700)); queued 2 None])
              1 [queued 0 None; queued 1 (Some (cuError 700)); queued 2 None]
              (mkSimContext 1 [Some (cuError 700)] None) (cuError 700))
    as (w' & cs' & Hrun & _).
  - reflexivity.
  - reflexivity.
  - reflexivity.
  - reflexivity.
  - intros i Hi. assert (i = 0%nat) as -> by lia.
    right. split; [reflexivity|]. eexists. split; reflexivity.
  - exists w'. split; [exact Hrun|].
    assert (Hw : Ret (Some (cuError 700), w') =
                 DoWork (flushWorld [true; true; true]
                   [queued 0 None; queued 1 (Some (cuError 700)); queued 2 None]))
      by (symmetry; exact Hrun).
    vm_compute in Hw. injection Hw as ->.
    split; [reflexivity|]. split; [|reflexivity].
    eexists. split; reflexivity.
Defined.

(** C6 as stated fails for the failing device itself: its flag stays set,
    but its context has been flushed, the error being read off the context
    after the flush call. *)
Lemma DoWork_failing_device_is_flushed :
  exists w',
    DoWork (flushWorld [true; true; true]
              [queued 0 None; queued 1 (Some (cuError 700)); queued 2 None])
    = Ret (Some (cuError 700), w') /\
    hasWork (md w') !! 1%nat = Some true /\
    context_at (md w') 1 = Some (Some (mkSimContext 1 [] (Some (cuError 700)))) /\
    context_at (md w') 1
    <> context_at (md (flushWorld [true; true; true]
                         [queued 0 None; queued 1 (Some (cuError 700)); queued 2 None])) 1.
Proof.
  eexists. split; [vm_compute; reflexivity|].
  split; [reflexivity|]. split; [reflexivity|]. vm_compute. discriminate.
Qed.

End FlushExamples.

(** ** The kernel-source table: theorems *)

Section StdLib.
Context `{Ext : Externals}.

(** Before the table is allocated, registering faults. *)
Lemma AddToStdLib_nil_table (w : World) (name data : string) :
  cudaStdLib w = None -> AddToStdLib name data w = Panic NilMapAssign.
Proof. intros Hnil. unfold AddToStdLib. by rewrite Hnil. Qed.

(** C8, as amended. Once the table has been allocated, [AddToStdLib]
    succeeds for every name and every data, the table afterwards maps the
    name to the data and keeps its other entries, and nothing else of the
    world changes. On the nil table, which is what the declaration of this
    file leaves, the call faults. *)
Theorem AddToStdLib_registers (w : World) (name data : string) :
  (forall lib, cudaStdLib w = Some lib ->
     AddToStdLib name data w = Ret (tt, set_cudaStdLib (Some (<[name := data]> lib)) w) /\
     (<[name := data]> lib) !! name = Some data /\
     (forall other, other <> name -> (<[name := data]> lib) !! other = lib !! other)) /\
  (cudaStdLib w = None -> AddToStdLib name data w = Panic NilMapAssign).
Proof.
  split.
  - intros lib Hlib. split; [|split].
    + unfold AddToStdLib. by rewrite Hlib.
    + apply lookup_insert_eq.
    + intros other Hne. by apply lookup_insert_ne.
  - apply AddToStdLib_nil_table.
Qed.

End StdLib.

Section StdLibExamples.
Local Existing Instance simExternals.

Lemma AddToStdLib_registers_witness :
  exists lib',
    AddToStdLib "sigmoid" ".visible .entry sigmoid"
      (worldWithStdLib (Some {["elembinop" := ".visible .entry add"]}))
    = Ret (tt, worldWithStdLib (Some lib')) /\
    lib' !! "sigmoid" = Some ".visible .entry sigmoid" /\
    lib' !! "elembinop" = Some ".visible .entry add".
Proof.
  destruct (AddToStdLib_registers
              (worldWithStdLib (Some {["elembinop" := ".visible .entry add"]}))
              "sigmoid" ".visible .entry sigmoid") as [Hreg _].
  destruct (Hreg {["elembinop" := ".visible .entry add"]} eq_refl)
    as (Hrun & Hnew & Hold).
  eexists. split; [exact Hrun|]. split; [exact Hnew|].
  rewrite Hold by discriminate. reflexivity.
Defined.

(** C8 as stated fails on the table as this file declares it: the map has
    no initial value, and the first registration writes to a nil map. *)
Lemma AddToStdLib_declared_table_faults :
  cudaStdLib (worldWithStdLib None) = None /\
  AddToStdLib "sigmoid" ".visible .entry sigmoid" (worldWithStdLib None)
  = Panic NilMapAssign.
Proof. split; reflexivity. Qed.

End StdLibExamples.

(** ** The work-signal relays: theorems *)

Section FanIn.

Lemma hubStep_inv (h h' : Hub) (e : event) :
  hubStep h e = Some h' ->
  (relayOf e < length (relayAt h))%nat /\
  length (relayAt h') = length (relayAt h) /\
  length (hubHasWork h') = length (hubHasWork h) /\
  yielded h' = (yielded h + if isDelivery e then 1 else 0)%nat /\
  (forall j, j <> relayOf e -> relayAt h' !! j = relayAt h !! j) /\
  (forall j, hubHasWork h !! j = Some true -> hubHasWork h' !! j = Some true) /\
  (forall i, e = Mark i -> relayAt h' !! i = Some Forward /\ hubHasWork h' !! i = Some true) /\
  (relayAt h' !! relayOf e = Some Forward -> e = Mark (relayOf e)) /\
  (forall i, e = Deliver i -> relayAt h !! i = Some Forward).
Proof.
  unfold hubStep. intros Hstep.
  destruct e as [i|i|i|i]; cbn [relayOf isDelivery] in *;
    destruct (relayAt h !! i) as [[]|] eqn:Hpc; try done;
    pose proof (lookup_lt_Some _ _ _ Hpc) as Hlt; (split; [done|]).
  - injection Hstep as <-. cbn. rewrite length_insert.
    repeat split; try done; try lia.
    + intros j Hj. by rewrite list_lookup_insert_ne.
    + rewrite list_lookup_insert_eq by done. done.
  - injection Hstep as <-. cbn. rewrite length_insert.
    repeat split; try done; try lia.
    + intros j Hj. by rewrite list_lookup_insert_ne.
    + rewrite list_lookup_insert_eq by done. done.
  - destruct (Nat.ltb_spec i (length (hubHasWork h))) as [Hin|]; [|done].
    injection Hstep as <-. cbn. rewrite !length_insert.
    repeat split; try done; try lia.
    + intros j Hj. by rewrite list_lookup_insert_ne.
    + intros j Hj. destruct (decide (i = j)) as [->|Hne].
      * by rewrite list_lookup_insert_eq.
      * by rewrite list_lookup_insert_ne.
    + simplify_eq. by rewrite list_lookup_insert_eq.
    + simplify_eq. by rewrite list_lookup_insert_eq.
  - injection Hstep as <-. cbn. rewrite length_insert.
    repeat split; try done; try lia.
    + intros j Hj. by rewrite list_lookup_insert_ne.
    + rewrite list_lookup_insert_eq by done. done.
    + by intros ? [= <-].
Qed.

(** The consumer has received one signal per delivery of the trace, and
    every step of the trace is a step of one of the relays. *)
Lemma hubRun_yielded (t : list event) : forall (h h' : Hub),
  hubRun h t = Some h' ->
  yielded h' = (yielded h + length (filter (fun e => isDelivery e = true) t))%nat /\
  Forall (fun e => (relayOf e < length (relayAt h))%nat) t.
Proof.
  induction t as [|e t IH]; intros h h' Hrun; cbn in Hrun.
  - injection Hrun as <-. cbn. split; [lia|constructor].
  - destruct (hubStep h e) as [h1|] eqn:Hstep; [|done].
    destruct (hubStep_inv _ _ _ Hstep) as (Hlt & Hlen & _ & Hy & _).
    destruct (IH _ _ Hrun) as [Hy' Hall]. rewrite Hlen in Hall. split.
    + rewrite Hy', Hy. rewrite filter_cons.
      destruct (isDelivery e); case_decide; try done; cbn; lia.
    + by constructor.
Qed.

(** A flag that a relay has set stays set: no step of a relay clears it. *)
Lemma hubRun_flags (t : list event) : forall (h h' : Hub) (i : nat),
  hubRun h t = Some h' ->
  hubHasWork h !! i = Some true \/ Mark i ∈ t ->
  hubHasWork h' !! i = Some true.
Proof.
  induction t as [|e t IH]; intros h h' i Hrun Hi; cbn in Hrun.
  - injection Hrun as <-. destruct Hi as [?|Hin]; [done|]. by apply elem_of_nil in Hin.
  - destruct (hubStep h e) as [h1|] eqn:Hstep; [|done].
    destruct (hubStep_inv _ _ _ Hstep) as (_ & _ & _ & _ & _ & Hkeep & Hmark & _).
    apply (IH _ _ i Hrun).
    destruct Hi as [Hset|Hin]; [left; by apply Hkeep|].
    apply elem_of_cons in Hin as [<-|Hin]; [|by right].
    left. by apply (Hmark i).
Qed.

(** Along any run, a delivery by relay [i] follows a [Mark i] of the same
    turn of its loop, unless the relay started the run blocked on its
    send. *)
Lemma hubRun_order (t : list event) : forall (h h' : Hub),
  hubRun h t = Some h' ->
  forall t1 t2 i, t = t1 ++ Deliver i :: t2 ->
    (exists u v, t1 = u ++ Mark i :: v /\ Forall (fun e => relayOf e <> i) v) \/
    (relayAt h !! i = Some Forward /\ Forall (fun e => relayOf e <> i) t1).
Proof.
  induction t as [|e t IH]; intros h h' Hrun t1 t2 i Hsplit.
  - by destruct t1.
  - cbn in Hrun. destruct (hubStep h e) as [h1|] eqn:Hstep; [|done].
    destruct (hubStep_inv _ _ _ Hstep) as (_ & _ & _ & _ & Hother & _ & _ & Hfwd & Hdel).
    destruct t1 as [|e1 t1]; cbn in Hsplit; injection Hsplit as -> ->.
    + right. split; [by apply Hdel|constructor].
    + destruct (IH _ _ Hrun t1 t2 i eq_refl) as [(u & v & -> & Hv)|[Hpc Hquiet]].
      * left. exists (e1 :: u), v. done.
      * destruct (decide (relayOf e1 = i)) as [<-|Hne].
        -- left. exists [], t1. split; [|done]. cbn. f_equal. by apply Hfwd.
        -- right. split; [by rewrite <- Hother|by constructor].
Qed.

(** Deliveries counted relay by relay add up to all deliveries. *)
Lemma deliveries_by_relay (n : nat) : forall (t : list event),
  Forall (fun e => (relayOf e < n)%nat) t ->
  (forall i, (i < n)%nat -> forwardedBy i t = 1%nat) ->
  length (filter (fun e => isDelivery e = true) t) = n.
Proof.
  induction n as [|n IH]; intros t Hbound Hone.
  - destruct t as [|e t]; [done|]. apply Forall_cons in Hbound as [? _]. lia.
  - set (rest := filter (fun e => relayOf e <> n) t).
    assert (Hrest : length (filter (fun e => isDelivery e = true) rest) = n).
    { apply IH.
      - apply Forall_forall. intros e He. unfold rest in He.
        apply list_elem_of_filter in He as [Hne Hin].
        rewrite Forall_forall in Hbound. specialize (Hbound e Hin). lia.
      - intros i Hi. rewrite <- (Hone i ltac:(lia)). unfold forwardedBy, rest.
        rewrite list_filter_filter. f_equal. apply list_filter_iff.
        intros e. split; [by intros [? _]|]. intros He. split; [done|].
        destruct e; try done. cbn in He. apply Nat.eqb_eq in He. cbn. lia. }
    rewrite <- (Permutation_length
                 (filter_app_complement (fun e => relayOf e <> n)
                    (filter (fun e => isDelivery e = true) t))).
    rewrite length_app, !list_filter_filter.
    assert (Hlast : length (filter (fun e => ¬ relayOf e <> n /\ isDelivery e = true) t) = 1%nat).
    { rewrite <- (Hone n ltac:(lia)). unfold forwardedBy. f_equal. apply list_filter_iff.
      intros e. destruct e; cbn; rewrite ?Nat.eqb_eq; split; try done;
        try (by intros [_ ?]); try (intros [? _]; lia); intros ->; split; [lia|done]. }
    rewrite Hlast. unfold rest in Hrest. rewrite list_filter_filter in Hrest.
    assert (Hcomm : filter (fun e => relayOf e <> n /\ isDelivery e = true) t
                  = filter (fun e => isDelivery e = true /\ relayOf e <> n) t).
    { apply list_filter_iff. intros e. tauto. }
    rewrite Hcomm, Hrest. lia.
Qed.

End FanIn.

(** ** The registry lifecycle: theorems *)

Ltac open_world w :=
  let m0 := fresh "m0" in
  destruct w as [m0 ? ? ? ? ? ?]; destruct m0; cbn in *.

Section Registry.
Context `{Ext : Externals}.

Lemma initDevice_fails (drv : cuDriver) (w : World) (n ch i : nat) :
  looping n ch w -> (i < n)%nat -> device_fails drv (Z.of_nat i) ->
  exists w', initDevice drv (Z.of_nat i) w = Ret (false, w') /\
    disabled ch w' /\ slices_sized n (md w') /\ goroutines w' = goroutines w /\
    (forall j, j <> i -> profile_at (md w') j = profile_at (md w) j).
Proof.
  intros (Hwa & Hch & Hinit & (cs & Hc & Hcs) & Hsz) Hi Hfail.
  pose proof (lookup_lt_Some _ _ _ Hch) as Hlt.
  unfold device_fails in Hfail. unfold initDevice.
  destruct (cu_GetDevice drv (Z.of_nat i)) as [dev e1].
  destruct (cu_MakeContext drv dev) as [ctx e2].
  destruct (cu_Attributes drv dev) as [attrs e3].
  destruct (cu_MemInfo drv (Z.of_nat i)) as [[free total] e4].
  unfold slices_sized in *.
  open_world w. subst.
  unfold initFail, store, bind, cudaLogf, modifyMD, getMD, closeChan, lift, ret.
  destruct e1 as [e1|].
  { cbn. rewrite Hch. cbn. eexists. split; [reflexivity|]. unfold disabled; cbn.
    rewrite list_lookup_insert_eq by done. done. }
  destruct e2 as [e2|].
  { destruct e2; [|destruct e4|]; cbn; rewrite Hch; cbn; (eexists; split; [reflexivity|]);
    unfold disabled; cbn; rewrite list_lookup_insert_eq by done; done. }
  destruct e3 as [e3|].
  { cbn. rewrite Hch. cbn. eexists. split; [reflexivity|]. unfold disabled; cbn.
    rewrite list_lookup_insert_eq by done. done. }
  destruct Hfail as [?|[[_ ?]|[(_ & _ & ?)|(_ & _ & _ & Hlen & He4)]]]; try done.
  destruct e4 as [e4|]; [|done].
  do 8 (destruct attrs as [|? attrs]; [cbn in Hlen; lia|]).
  change (Z.to_nat 0) with 0%nat. change (Z.to_nat 1) with 1%nat.
  change (Z.to_nat 2) with 2%nat. change (Z.to_nat 3) with 3%nat.
  change (Z.to_nat 4) with 4%nat. change (Z.to_nat 5) with 5%nat.
  change (Z.to_nat 6) with 6%nat. change (Z.to_nat 7) with 7%nat.
  destruct Hsz as (? & ? & ? & ? & ? & ? & ? & ? & ? & ? & ? & ?).
  cbn.
  repeat (rewrite assign_of_nat by lia; cbn).
  rewrite Hch. cbn. eexists. split; [reflexivity|]. unfold disabled; cbn.
  rewrite list_lookup_insert_eq by done. rewrite !length_insert.
  repeat split; try done.
  intros j Hj. unfold profile_at; cbn. by rewrite !list_lookup_insert_ne.
Qed.

Lemma initDevice_ready (drv : cuDriver) (w : World) (n ch i : nat) :
  looping n ch w -> (i < n)%nat -> device_ready drv (Z.of_nat i) ->
  exists w', initDevice drv (Z.of_nat i) w = Ret (true, w') /\
    looping n ch w' /\ chans w' = chans w /\
    length (goroutines w') = S (length (goroutines w)) /\
    profile_at (md w') i = driver_profile drv (Z.of_nat i) /\
    (forall j, j <> i -> profile_at (md w') j = profile_at (md w) j).
Proof.
  intros (Hwa & Hch & Hinit & (cs & Hc & Hcs) & Hsz) Hi Hready.
  unfold device_ready in Hready. unfold initDevice, driver_profile.
  destruct (cu_GetDevice drv (Z.of_nat i)) as [dev e1].
  destruct (cu_MakeContext drv dev) as [ctx e2].
  destruct (cu_Attributes drv dev) as [attrs e3].
  destruct (cu_MemInfo drv (Z.of_nat i)) as [[free total] e4].
  destruct Hready as (-> & -> & -> & -> & Hlen).
  unfold slices_sized in *.
  open_world w. subst.
  unfold store, updateContext, contextAt, go, bind, modifyMD, getMD, lift, ret.
  do 8 (destruct attrs as [|? attrs]; [cbn in Hlen; lia|]).
  unfold index.
  change (Z.to_nat 0) with 0%nat. change (Z.to_nat 1) with 1%nat.
  change (Z.to_nat 2) with 2%nat. change (Z.to_nat 3) with 3%nat.
  change (Z.to_nat 4) with 4%nat. change (Z.to_nat 5) with 5%nat.
  change (Z.to_nat 6) with 6%nat. change (Z.to_nat 7) with 7%nat.
  destruct Hsz as (? & ? & ? & ? & ? & ? & ? & ? & ? & ? & ? & ?).
  cbn.
  repeat (rewrite assign_of_nat by lia; cbn).
  destruct (Z.ltb_spec (Z.of_nat i) 0) as [?|_]; [lia|].
  rewrite Nat2Z.id, list_lookup_insert_eq by lia. cbn.
  eexists. split; [reflexivity|]. cbn. unfold looping, slices_sized; cbn.
  rewrite !length_insert, length_app. cbn.
  split; [|split; [done|split; [lia|split]]].
  - repeat split; try done; try lia.
    eexists. split; [reflexivity|]. by rewrite length_insert.
  - unfold profile_at; cbn. by rewrite !list_lookup_insert_eq by lia.
  - intros j Hj. unfold profile_at; cbn. by rewrite !list_lookup_insert_ne.
Qed.

(** The loop over the devices [a, a+j), all of which can be set up. *)
Lemma initLoop_ready (drv : cuDriver) (n ch : nat) (rest : list nat) (j : nat) :
  forall (a : nat) (w : World),
  looping n ch w -> (a + j <= n)%nat ->
  (forall i, (a <= i < a + j)%nat -> device_ready drv (Z.of_nat i)) ->
  exists w', initLoop drv (seq a j ++ rest) w = initLoop drv rest w' /\
    looping n ch w' /\ chans w' = chans w /\
    length (goroutines w') = (length (goroutines w) + j)%nat /\
    (forall i, (a <= i < a + j)%nat ->
       profile_at (md w') i = driver_profile drv (Z.of_nat i)) /\
    (forall i, (i < a \/ a + j <= i)%nat -> profile_at (md w') i = profile_at (md w) i).
Proof.
  induction j as [|j IH]; intros a w Hloop Hle Hready.
  - exists w. cbn [seq app]. split; [done|]. split; [done|]. split; [done|].
    split; [lia|]. split; [intros i Hi; lia|done].
  - destruct (initDevice_ready drv w n ch a Hloop ltac:(lia) (Hready a ltac:(lia)))
      as (w1 & Hrun1 & Hloop1 & Hch1 & Hgo1 & Hat1 & Hoff1).
    destruct (IH (S a) w1 Hloop1 ltac:(lia))
      as (w' & Hrun & Hloop' & Hch' & Hgo' & Hin' & Hout').
    { intros i Hi. apply Hready. lia. }
    exists w'. split.
    { cbn [seq app initLoop]. unfold bind at 1. rewrite Hrun1. exact Hrun. }
    split; [done|]. split; [congruence|]. split; [lia|]. split.
    + intros i Hi. destruct (decide (i = a)) as [->|Hne].
      * rewrite Hout' by lia. done.
      * apply Hin'. lia.
    + intros i Hi. rewrite Hout' by lia. apply Hoff1. lia.
Qed.

Lemma make_slice_of_nat {A} (zero : A) (n : nat) :
  make_slice zero (Z.of_nat n) = Ret (replicate n zero).
Proof.
  unfold make_slice. destruct (Z.ltb_spec (Z.of_nat n) 0) as [?|_]; [lia|].
  by rewrite Nat2Z.id.
Qed.

(** C2, as amended. When the set-up of device [k] is the first to fail
    during [init] over [n] devices, [init] returns with the registry
    disabled: no contexts ([c] nil), the module and function tables nil, the
    shared channel made by this run closed and the field nil, the flag
    [initialzed] still false; no device is usable. The per-device slices
    stay allocated with their [n] entries and keep what was stored for the
    devices before [k], and the [k] relays started for those devices are not
    withdrawn. *)
Theorem init_failure_disables (drv : cuDriver) (w : World) (n k : nat) :
  initialzed (md w) = false ->
  cu_NumDevices drv = (Z.of_nat n, None) ->
  (k < n)%nat ->
  (forall i, (i < k)%nat -> device_ready drv (Z.of_nat i)) ->
  device_fails drv (Z.of_nat k) ->
  exists w',
    init drv w = Ret (tt, w') /\
    disabled (length (chans w)) w' /\
    slices_sized n (md w') /\
    (forall i, (i < k)%nat -> profile_at (md w') i = driver_profile drv (Z.of_nat i)) /\
    length (goroutines w') = (length (goroutines w) + k)%nat.
Proof.
  intros Hinit Hnum Hk Hready Hfail.
  destruct w as [m0 qs chs gs lg cur lib]. destruct m0. cbn in *. subst.
  unfold init, bind, getMD, makeChan, modifyMD, lift. cbn. rewrite Hnum.
  destruct (Z.eqb_spec (Z.of_nat n) 0) as [?|_]; [lia|].
  rewrite !make_slice_of_nat. cbn.
  unfold len_c, len. cbn. rewrite length_replicate, Nat2Z.id.
  match goal with |- context [initLoop drv _ ?x] => set (w0 := x) end.
  assert (Hloop0 : looping n (length chs) w0).
  { unfold w0, looping, slices_sized; cbn.
    rewrite lookup_app_r by lia. rewrite Nat.sub_diag. rewrite !length_replicate.
    repeat split; try done. eexists. split; [done|]. by rewrite length_replicate. }
  destruct (initLoop_ready drv n (length chs) (k :: seq (S k) (n - S k)) k 0%nat w0
              Hloop0 ltac:(lia)) as (w1 & Hrun1 & Hloop1 & Hch1 & Hgo1 & Hin1 & _).
  { intros i Hi. apply Hready. lia. }
  destruct (initDevice_fails drv w1 n (length chs) k Hloop1 Hk Hfail)
    as (w' & Hrunk & Hdis & Hsz & Hgo & Hoff).
  assert (Hloop : initLoop drv (seq 0 n) w0 = Ret (false, w')).
  { replace n with (k + S (n - S k))%nat at 1 by lia.
    rewrite seq_app. cbn [seq Nat.add]. rewrite Hrun1.
    cbn [initLoop]. unfold bind at 1. rewrite Hrunk. done. }
  rewrite Hloop. exists w'. split; [done|]. split; [done|]. split; [done|].
  split.
  - intros i Hi. rewrite Hoff by lia. apply Hin1. lia.
  - rewrite Hgo, Hgo1. done.
Qed.

End Registry.

Section RegistryExamples.
Local Existing Instance simExternals.

(** Three devices; the context of the last one cannot be made. *)
Lemma init_failure_disables_witness :
  exists w',
    init (simDriver 3 2) emptyWorld = Ret (tt, w') /\
    c (md w') = None /\ workAvailable (md w') = None /\
    chans w' = [ChanClosed] /\ initialzed (md w') = false.
Proof.
  destruct (init_failure_disables (simDriver 3 2) emptyWorld 3 2)
    as (w' & Hrun & _).
  - reflexivity.
  - reflexivity.
  - lia.
  - intros i Hi. destruct i as [|[|i]]; [| |lia];
      unfold device_ready; cbn; repeat split; lia.
  - unfold device_fails. cbn. right. left. split; [reflexivity|discriminate].
  - exists w'. split; [exact Hrun|].
    assert (Hw : Ret (tt, w') = init (simDriver 3 2) emptyWorld)
      by (symmetry; exact Hrun).
    vm_compute in Hw. injection Hw as ->. repeat split.
Defined.

(** C2 as stated fails: of two devices the second cannot be set up; the
    registry is disabled, yet the capability profile and the arena map of
    device 0 stay in place and its relay has been started. *)
Lemma init_failure_keeps_profiles :
  exists w',
    init (simDriver 2 1) emptyWorld = Ret (tt, w') /\
    mtpb (md w') = [1024; 0] /\
    arena (md w') = [Some ∅; None] /\
    length (goroutines w') = 1%nat /\
    ~ profiles_blank (md w').
Proof.
  eexists. split; [vm_compute; reflexivity|].
  split; [reflexivity|]. split; [reflexivity|]. split; [reflexivity|].
  intros (_ & Hmtpb & _). cbn in Hmtpb.
  apply Forall_cons in Hmtpb as [Hhead _]. discriminate.
Qed.

End RegistryExamples.

(** ** The debugging geometry: theorems *)

Section BlockThread.
Context `{Ext : Externals}.

Lemma wrap_bounds z : GoInt.min_int <= GoInt.wrap z <= GoInt.max_int.
Proof.
  unfold GoInt.wrap, GoInt.min_int, GoInt.max_int.
  pose proof (Z.mod_pos_bound (z + 2 ^ 63) (2 ^ 64) ltac:(lia)). lia.
Qed.

(** The thread count [blockThread] picks for [n]. *)
Lemma blockThread_unfold (x : ExternMetadata) (n dev t : Z) :
  t = (if n <=? 32 then 32 else if n <=? 64 then 64 else if n <=? 128 then 128
       else if n <=? 256 then 256 else if n <=? 512 then 512 else 1024) ->
  blockThread x n dev =
  Ret (let q := GoInt.wrap (Z.quot (GoInt.wrap (n + t - 1)) t) in
       if (q <? 0) || (q >? 128) then 128 else q, t).
Proof.
  intros ->. unfold blockThread, GoInt.quo, GoInt.sub, GoInt.add.
  rewrite wrap_sub_wrap.
  repeat (match goal with |- context [if ?n <=? ?k then _ else _] => destruct (n <=? k) end);
    reflexivity.
Qed.

(** X1. [blockThread] returns for every [n]: it never asks for more than
    128 blocks (or fewer than none), and the thread count is one of the six
    sizes from 32 to 1024. *)
Theorem blockThread_bounded (x : ExternMetadata) (n dev : Z) :
  exists blocks threads,
    blockThread x n dev = Ret (blocks, threads) /\
    0 <= blocks <= 128 /\
    threads ∈ [32; 64; 128; 256; 512; 1024].
Proof.
  eexists _, _. split; [by apply blockThread_unfold|]. split.
  - cbv zeta. match goal with |- context [GoInt.wrap (Z.quot ?a ?b)] =>
      set (q := GoInt.wrap (Z.quot a b)) end.
    destruct (Z.ltb_spec q 0); cbn [orb]; [lia|].
    destruct (q >? 128) eqn:E; [lia|]. rewrite Z.gtb_ltb in E. apply Z.ltb_ge in E. lia.
  - repeat (match goal with |- context [if ?n <=? ?k then _ else _] => destruct (n <=? k) end);
      set_solver.
Qed.

(** X2. For [1 <= n <= 131072] the geometry of [blockThread] covers [n]
    with the fewest blocks of the chosen size. *)
Theorem blockThread_covers (x : ExternMetadata) (n dev : Z) :
  1 <= n <= 131072 ->
  exists blocks threads,
    blockThread x n dev = Ret (blocks, threads) /\
    1 <= blocks /\ (blocks - 1) * threads < n <= blocks * threads.
Proof.
  intros Hn. eexists _, _. split; [by apply blockThread_unfold|].
  cbv zeta.
  match goal with |- context [Z.quot (GoInt.wrap (n + ?t - 1)) _] => set (t' := t) end.
  assert (Ht : 32 <= t' <= 1024 /\ (n <= 512 -> n <= t')).
  { unfold t'.
    repeat (match goal with |- context [if ?n <=? ?k then _ else _] =>
              destruct (Z.leb_spec n k) end); lia. }
  rewrite (wrap_in_range (n + t' - 1))
    by (unfold GoInt.in_range, GoInt.min_int, GoInt.max_int; lia).
  rewrite Z.quot_div_nonneg by lia.
  pose proof (Z.div_mod (n + t' - 1) t' ltac:(lia)) as Hdm.
  pose proof (Z.mod_pos_bound (n + t' - 1) t' ltac:(lia)) as Hm.
  set (q := (n + t' - 1) / t') in *.
  assert (Hq : 1 <= q <= 128).
  { split; [nia|]. destruct (Z.le_gt_cases n 512) as [Hs|Hl].
    - assert (n <= t') by lia. nia.
    - assert (t' = 1024) as Ht1.
      { unfold t'. repeat (match goal with |- context [if ?n <=? ?k then _ else _] =>
              destruct (Z.leb_spec n k) end); lia. }
      nia. }
  rewrite (wrap_in_range q) by (unfold GoInt.in_range, GoInt.min_int, GoInt.max_int; lia).
  destruct (Z.ltb_spec q 0); [lia|]. cbn [orb].
  destruct (q >? 128) eqn:E; [rewrite Z.gtb_ltb in E; apply Z.ltb_lt in E; lia|].
  nia.
Qed.

(** X3. Beyond 128 blocks of 1024 threads [blockThread] saturates: every
    larger [n] of type [int] gets [(128, 1024)], which covers fewer than [n]
    items; this includes the counts for which [n + threads - 1] wraps
    around. *)
Theorem blockThread_saturates (x : ExternMetadata) (n dev : Z) :
  131072 < n <= GoInt.max_int ->
  blockThread x n dev = Ret (128, 1024) /\ 128 * 1024 < n.
Proof.
  intros Hn. split; [|lia].
  rewrite (blockThread_unfold x n dev 1024).
  2:{ repeat (match goal with |- context [if ?n <=? ?k then _ else _] =>
              destruct (Z.leb_spec n k) end); lia. }
  cbv zeta. f_equal. f_equal.
  unfold GoInt.max_int in Hn.
  destruct (Z.le_gt_cases (n + 1023) (2 ^ 63 - 1)) as [Hfit|Hover].
  - rewrite (wrap_in_range (n + 1024 - 1))
      by (unfold GoInt.in_range, GoInt.min_int, GoInt.max_int; lia).
    rewrite Z.quot_div_nonneg by lia.
    pose proof (Z.div_mod (n + 1024 - 1) 1024 ltac:(lia)) as Hdm.
    pose proof (Z.mod_pos_bound (n + 1024 - 1) 1024 ltac:(lia)) as Hm.
    set (q := (n + 1024 - 1) / 1024) in *.
    rewrite (wrap_in_range q) by (unfold GoInt.in_range, GoInt.min_int, GoInt.max_int; lia).
    destruct (Z.ltb_spec q 0); [done|]. cbn [orb].
    destruct (q >? 128) eqn:E; [done|]. rewrite Z.gtb_ltb in E. apply Z.ltb_ge in E. lia.
  - assert (Hw : GoInt.wrap (n + 1024 - 1) = n + 1023 - 2 ^ 64).
    { unfold GoInt.wrap.
      replace (n + 1024 - 1 + 2 ^ 63) with ((n + 1023 - 2 ^ 63) + 1 * 2 ^ 64) by lia.
      rewrite Z.mod_add by lia. rewrite Z.mod_small by lia. lia. }
    rewrite Hw.
    set (a := n + 1023 - 2 ^ 64).
    assert (Ha : - 2 ^ 63 <= a <= - 2 ^ 63 + 1022) by (unfold a; lia).
    clearbody a.
    change (2 ^ 63) with 9223372036854775808 in Ha.
    assert (Hq : - 9007199254740992 <= Z.quot a 1024 < 0).
    { pose proof (Z.quot_rem a 1024 ltac:(lia)) as Hqr.
      pose proof (Z.rem_nonpos a 1024 ltac:(lia) ltac:(lia)) as Hr.
      pose proof (Z.rem_bound_abs a 1024 ltac:(lia)) as Hr'.
      lia. }
    rewrite (wrap_in_range (Z.quot a 1024)).
    2:{ unfold GoInt.in_range, GoInt.min_int, GoInt.max_int. lia. }
    destruct (Z.ltb_spec (Z.quot a 1024) 0); [done|lia].
Qed.
End BlockThread.

Section BlockThreadExamples.
Local Existing Instance simExternals.

Lemma blockThread_covers_witness :
  exists blocks threads,
    blockThread zeroExternMetadata 300 0 = Ret (blocks, threads) /\
    1 <= blocks /\ (blocks - 1) * threads < 300 <= blocks * threads.
Proof.
  apply (blockThread_covers zeroExternMetadata 300 0). lia.
Defined.

Lemma blockThread_saturates_witness :
  blockThread zeroExternMetadata 200000 0 = Ret (128, 1024) /\ 128 * 1024 < 200000.
Proof.
  apply (blockThread_saturates zeroExternMetadata 200000 0).
  unfold GoInt.max_int. lia.
Defined.

End BlockThreadExamples.

(** ** Launch geometry: edge behaviour *)

Section GeometryEdges.
Context `{Ext : Externals}.

Lemma calcBlocks_returns n d : d <> 0 -> exists q, calcBlocks n d = Ret q.
Proof.
  intros Hd. unfold calcBlocks, GoInt.quo.
  destruct (Z.eqb_spec d 0); [done|]. eauto.
Qed.

Lemma mul_zero_l a : GoInt.mul 0 a = 0.
Proof. reflexivity. Qed.

Lemma mul_zero_r a : GoInt.mul a 0 = 0.
Proof. unfold GoInt.mul. by rewrite Z.mul_0_r. Qed.

(** X4. For [n >= 0] and [maxThreadsPerBlock >= 0] with
    [n + maxThreadsPerBlock - 1] a value of [int], so that the block count
    is not negative, the only division by zero of [ElemGridSize] is by
    [maxThreadsPerBlock]: the call panics when that limit is zero, and
    returns when it is positive whatever the three grid limits are (zero,
    negative or overflowing in their product), because the saturated case
    is tested before the cases that divide by a grid limit. *)
Theorem ElemGridSize_divides_by_threads_only (x : ExternMetadata) (n : Z) (dev : nat)
    (mt gx gy gz : Z) :
  has_profile x dev mt gx gy gz ->
  0 <= mt -> 0 <= n -> n + mt - 1 <= GoInt.max_int ->
  (mt = 0 -> ElemGridSize x n (Z.of_nat dev) = Panic DivideByZero) /\
  (mt <> 0 -> exists g, ElemGridSize x n (Z.of_nat dev) = Ret g).
Proof.
  intros Hp Hmt0 Hn Hov. rewrite (ElemGridSize_switch _ _ _ _ _ _ _ Hp).
  split; [intros ->; reflexivity|]. intros Hmt1.
  assert (Hmt : 1 <= mt) by lia.
  unfold elemGridSwitch. rewrite calcBlocks_ceil by lia. cbn [obind].
  pose proof (ceil_div_bounds n mt ltac:(lia)) as Hb.
  set (blocks := ceil_div n mt) in *.
  assert (Hpos : 0 <= blocks) by nia.
  destruct (blocks =? 1); [eauto|].
  rewrite !Z.geb_leb.
  destruct (Z.leb_spec (GoInt.mul (GoInt.mul gx gy) gz) blocks) as [|Hcap]; [eauto|].
  assert (Hxy : GoInt.mul gx gy <> 0).
  { intros E. rewrite E, mul_zero_l in Hcap. lia. }
  assert (Hz : gz <> 0).
  { intros ->. rewrite mul_zero_r in Hcap. lia. }
  assert (Hx : gx <> 0).
  { intros ->. by rewrite mul_zero_l in Hxy. }
  assert (Hy : gy <> 0).
  { intros ->. by rewrite mul_zero_r in Hxy. }
  destruct (Z.leb_spec (GoInt.mul gx gy) blocks).
  - unfold GoInt.rem. destruct (Z.eqb_spec (GoInt.mul gx gy) 0); [done|]. cbn [obind].
    destruct (calcBlocks_returns (Z.rem blocks (GoInt.mul gx gy)) gz Hz) as [q ->].
    cbn. eauto.
  - destruct (Z.leb_spec gx blocks); [|eauto].
    unfold GoInt.rem. destruct (Z.eqb_spec gx 0); [done|]. cbn [obind].
    destruct (calcBlocks_returns (Z.rem blocks gx) gy Hy) as [q ->].
    cbn. eauto.
Qed.

(** X5. For [n >= 1] on a profile whose four limits are at least one,
    with [n + maxThreadsPerBlock - 1] and the grid capacity values of
    [int]: when the blocks fit in one grid row
    ([ceil(n / maxThreadsPerBlock) < maxGridX]) the geometry is tight: it
    addresses at least [n] items and fewer than [n + maxThreadsPerBlock],
    and only [gridDimX] and [blockDimX] differ from one. *)
Theorem ElemGridSize_single_row_tight (x : ExternMetadata) (n : Z) (dev : nat)
    (mt gx gy gz : Z) :
  has_profile x dev mt gx gy gz ->
  profile_ok mt gx gy gz ->
  1 <= n -> n + mt - 1 <= GoInt.max_int ->
  ceil_div n mt < gx ->
  exists g, ElemGridSize x n (Z.of_nat dev) = Ret g /\
    n <= lanes g < n + mt /\
    gridDimY g = 1 /\ gridDimZ g = 1 /\ blockDimY g = 1 /\ blockDimZ g = 1.
Proof.
  intros Hp Hok Hn Hov Hrow.
  pose proof (ElemGridSize_runs_ladder x n dev mt gx gy gz Hp Hok ltac:(lia) Hov) as Hrun.
  destruct Hok as (Hmt & Hgx & Hgy & Hgz & Hcap).
  pose proof (ceil_div_bounds n mt ltac:(lia)) as Hb.
  exists (spec_ElemGridSize n mt gx gy gz). split; [done|].
  unfold spec_ElemGridSize. set (blocks := ceil_div n mt) in *.
  rewrite !Z.geb_leb.
  assert (gx <= gx * gy) by nia.
  assert (gx * gy <= gx * gy * gz) by nia.
  destruct (Z.eqb_spec blocks 1) as [E1|N1].
  { unfold lanes; cbn. lia. }
  destruct (Z.leb_spec (gx * gy * gz) blocks); [lia|].
  destruct (Z.leb_spec (gx * gy) blocks); [lia|].
  destruct (Z.leb_spec gx blocks); [lia|].
  unfold lanes; cbn. nia.
Qed.

(** X6. In the case that wraps over Y ([maxGridX <= blocks] below
    [maxGridX*maxGridY]) the Y dimension is the ceiling of
    [(blocks mod maxGridX) / maxGridY]; when [blocks] is a multiple of
    [maxGridX] that is zero, and the geometry addresses no work item. *)
Theorem ElemGridSize_full_rows_launch_nothing (x : ExternMetadata) (n : Z) (dev : nat)
    (mt gx gy gz : Z) :
  has_profile x dev mt gx gy gz ->
  profile_ok mt gx gy gz ->
  1 <= n -> n + mt - 1 <= GoInt.max_int ->
  gx <= ceil_div n mt < gx * gy ->
  ceil_div n mt <> 1 ->
  ElemGridSize x n (Z.of_nat dev)
  = Ret (mkGridSize gx (ceil_div (ceil_div n mt mod gx) gy) 1 mt 1 1) /\
  (ceil_div n mt mod gx = 0 ->
     ElemGridSize x n (Z.of_nat dev) = Ret (mkGridSize gx 0 1 mt 1 1) /\
     lanes (mkGridSize gx 0 1 mt 1 1) = 0).
Proof.
  intros Hp Hok Hn Hov Hrow Hne.
  pose proof (ElemGridSize_runs_ladder x n dev mt gx gy gz Hp Hok ltac:(lia) Hov) as Hrun.
  destruct Hok as (Hmt & Hgx & Hgy & Hgz & Hcap).
  assert (Hgo : spec_ElemGridSize n mt gx gy gz
                = mkGridSize gx (ceil_div (ceil_div n mt mod gx) gy) 1 mt 1 1).
  { unfold spec_ElemGridSize. set (blocks := ceil_div n mt) in *.
    rewrite !Z.geb_leb.
    assert (gx * gy <= gx * gy * gz) by nia.
    destruct (Z.eqb_spec blocks 1); [done|].
    destruct (Z.leb_spec (gx * gy * gz) blocks); [lia|].
    destruct (Z.leb_spec (gx * gy) blocks); [lia|].
    destruct (Z.leb_spec gx blocks); [done|lia]. }
  rewrite Hrun, Hgo. split; [done|].
  intros Hdiv. rewrite Hdiv. split; [reflexivity|unfold lanes; cbn; lia].
Qed.
End GeometryEdges.

Section GeometryEdgesExamples.
Local Existing Instance simExternals.

(** A device whose limits were never stored, and one grid limit at zero. *)
Lemma ElemGridSize_divides_by_threads_only_witness :
  ElemGridSize (withProfiles [(0, 0, 0, 0)]) 300 0 = Panic DivideByZero /\
  exists g, ElemGridSize (withProfiles [(256, 0, 65535, 65535)]) 300 0 = Ret g.
Proof.
  split.
  - apply (ElemGridSize_divides_by_threads_only
             (withProfiles [(0, 0, 0, 0)]) 300 0 0 0 0 0);
      [repeat split; reflexivity|lia|lia|unfold GoInt.max_int; lia|reflexivity].
  - apply (ElemGridSize_divides_by_threads_only
             (withProfiles [(256, 0, 65535, 65535)]) 300 0 256 0 65535 65535);
      [repeat split; reflexivity|lia|lia|unfold GoInt.max_int; lia|lia].
Defined.

Lemma ElemGridSize_single_row_tight_witness :
  exists g, ElemGridSize (withProfiles [(256, 65535, 65535, 65535)]) 1000 0 = Ret g /\
            1000 <= lanes g < 1000 + 256.
Proof.
  destruct (ElemGridSize_single_row_tight
              (withProfiles [(256, 65535, 65535, 65535)]) 1000 0 256 65535 65535 65535)
    as (g & Hg & Htight & _).
  - repeat split; reflexivity.
  - unfold profile_ok, GoInt.max_int. lia.
  - lia.
  - unfold GoInt.max_int. lia.
  - vm_compute. reflexivity.
  - exists g. split; [exact Hg | exact Htight].
Defined.

(** Two full rows of 65535 blocks of 1024 threads. *)
Lemma ElemGridSize_full_rows_launch_nothing_witness :
  ElemGridSize (withProfiles [(1024, 65535, 65535, 65535)]) 134215680 0
  = Ret (mkGridSize 65535 0 1 1024 1 1).
Proof.
  destruct (ElemGridSize_full_rows_launch_nothing
              (withProfiles [(1024, 65535, 65535, 65535)]) 134215680 0
              1024 65535 65535 65535) as (_ & Hzero).
  - repeat split; reflexivity.
  - unfold profile_ok, GoInt.max_int. lia.
  - lia.
  - unfold GoInt.max_int. lia.
  - vm_compute. split; [discriminate|reflexivity].
  - vm_compute. discriminate.
  - destruct Hzero as [Hrun _]; [vm_compute; reflexivity|exact Hrun].
Defined.

(** Beyond the range of X4 the block count is negative and passes the
    saturation test: a grid limit at zero is then divided by. *)
Example ElemGridSize_wrapped_count_divides_by_grid_limit :
  ElemGridSize (withProfiles [(2, - 2 ^ 63, 0, 5)]) (2 ^ 63 - 1) 0 = Panic DivideByZero.
Proof. vm_compute. reflexivity. Qed.

(** Beyond the range of X5 the grid capacity wraps to zero: twenty blocks
    that fit in one row are taken for saturated. *)
Example ElemGridSize_capacity_wraps :
  ElemGridSize (withProfiles [(256, 2 ^ 32, 2 ^ 32, 2 ^ 32)]) 5000 0
  = Ret (mkGridSize 1 1 1 1 1 1).
Proof. vm_compute. reflexivity. Qed.

End GeometryEdgesExamples.

(** ** The memory arena: frame and isolation *)

Section ArenaIsolation.
Context `{Ext : Externals}.

(** An arena without pools is consistent. *)
Lemma arena_wf_no_pools (w : World) :
  (forall d s, pool_at w d s = None) -> arena_wf w.
Proof.
  intros Hnone. split.
  - intros d s p Hp. by rewrite Hnone in Hp.
  - intros d s d' s' p Hp. by rewrite Hnone in Hp.
Qed.

Lemma index_inv {A} (s : list A) (i : Z) (a : A) :
  index s i = Ret a -> 0 <= i /\ s !! Z.to_nat i = Some a.
Proof.
  unfold index. destruct (Z.ltb_spec i 0); [done|].
  destruct (s !! Z.to_nat i); [|done]. intros [= ->]. done.
Qed.

(** What a returning [Put] did. *)
Lemma Put_inv (w w1 : World) (d : Z) (blk : Memory) (s : N) :
  Put d blk s w = Ret (tt, w1) ->
  (len (arena (md w)) <= d /\ w1 = w) \/
  (exists dn g, d = Z.of_nat dn /\ arena (md w) !! dn = Some (Some g) /\
     ((exists p q, g !! s = Some p /\ queues w !! p = Some q /\
         w1 = set_queues (<[p := mq_add blk q]> (queues w)) w) \/
      (g !! s = None /\
       arena (md w1) = <[dn := Some (<[s := length (queues w)]> g)]> (arena (md w)) /\
       queues w1 = queues w ++ [mkMemoryQueue s [blk]]))).
Proof.
  intros Hput.
  destruct (Z.le_gt_cases (len (arena (md w))) d) as [Hout|Hin].
  { left. split; [done|]. revert Hput. unfold Put, bind, getMD, ret.
    rewrite Z.geb_leb. destruct (Z.leb_spec (len (arena (md w))) d); [|lia].
    by intros [= ->]. }
  right.
  assert (Hguard : (d >=? len (arena (md w))) = false)
    by (rewrite Z.geb_leb; apply Z.leb_gt; lia).
  destruct (index (arena (md w)) d) as [mp|pn] eqn:Hidx.
  2:{ revert Hput. unfold Put, bind, getMD, lift. by rewrite Hguard, Hidx. }
  apply index_inv in Hidx as [Hd Hmp].
  exists (Z.to_nat d). rewrite Z2Nat.id by done.
  destruct mp as [g|].
  2:{ revert Hput. rewrite <- (Z2Nat.id d Hd). unfold Put, bind, getMD, lift.
      rewrite (geb_in_range _ _ _ Hmp), (index_of_nat _ _ _ Hmp). done. }
  exists g. split; [done|]. split; [done|].
  rewrite <- (Z2Nat.id d Hd) in Hput.
  destruct (g !! s) as [p|] eqn:Hg.
  - left. destruct (queues w !! p) as [q|] eqn:Hq.
    + exists p, q. rewrite (Put_existing w _ s blk g p q Hmp Hg Hq) in Hput.
      by injection Hput as <-.
    + revert Hput. unfold Put, bind, getMD, lift, ret.
      rewrite (geb_in_range _ _ _ Hmp), (index_of_nat _ _ _ Hmp). cbn [map_read].
      rewrite Hg. unfold withQueue. by rewrite Hq.
  - right. destruct (Put_fresh w _ s blk g Hmp Hg) as (w' & Hrun & Ha & Hq).
    rewrite Hrun in Hput. by injection Hput as <-.
Qed.

(** What a returning [Get] did. *)
Lemma Get_inv (w w1 : World) (d : Z) (s : N) r :
  Get d s w = Ret (r, w1) ->
  w1 = w \/
  (exists dn g p q, d = Z.of_nat dn /\ arena (md w) !! dn = Some (Some g) /\
     g !! s = Some p /\ queues w !! p = Some q /\
     w1 = set_queues (<[p := (mq_get q).2]> (queues w)) w).
Proof.
  intros Hget.
  destruct (Z.le_gt_cases (len (arena (md w))) d) as [Hout|Hin].
  { left. revert Hget. unfold Get, bind, getMD, ret.
    rewrite Z.geb_leb. destruct (Z.leb_spec (len (arena (md w))) d); [|lia].
    by intros [= _ ->]. }
  assert (Hguard : (d >=? len (arena (md w))) = false)
    by (rewrite Z.geb_leb; apply Z.leb_gt; lia).
  destruct (index (arena (md w)) d) as [mp|pn] eqn:Hidx.
  2:{ revert Hget. unfold Get, bind, getMD, lift. by rewrite Hguard, Hidx. }
  apply index_inv in Hidx as [Hd Hmp].
  rewrite <- (Z2Nat.id d Hd) in Hget.
  destruct (map_read mp s) as [p|] eqn:Hs.
  2:{ left. revert Hget. unfold Get, bind, getMD, lift, ret.
      rewrite (geb_in_range _ _ _ Hmp), (index_of_nat _ _ _ Hmp), Hs. by intros [= _ ->]. }
  destruct mp as [g|]; [|done]. cbn in Hs.
  destruct (queues w !! p) as [q|] eqn:Hq.
  - right. exists (Z.to_nat d), g, p, q. rewrite Z2Nat.id by done.
    rewrite (Get_pool w _ s g p q Hmp Hs Hq) in Hget. by injection Hget as _ <-.
  - revert Hget. unfold Get, bind, getMD, lift, ret.
    rewrite (geb_in_range _ _ _ Hmp), (index_of_nat _ _ _ Hmp). cbn [map_read].
    rewrite Hs. unfold withQueue. by rewrite Hq.
Qed.

Lemma pool_at_set_queues v (w : World) d s : pool_at (set_queues v w) d s = pool_at w d s.
Proof. unfold pool_at. by rewrite md_set_queues. Qed.

(** What [Get] returns is read off the arena and the store of pools. *)
Lemma Get_value (w : World) (d : Z) (s : N) :
  value_of (Get d s w) =
  if d >=? len (arena (md w)) then Ret notFound
  else
    let* mp := index (arena (md w)) d in
    match map_read mp s with
    | Some p => match queues w !! p with
                | Some q => Ret (mq_get q).1
                | None => Panic NilDereference
                end
    | None => Ret notFound
    end.
Proof.
  unfold Get, bind, getMD, lift, ret.
  destruct (d >=? len (arena (md w))); [done|].
  destruct (index (arena (md w)) d) as [mp|]; [|done]. cbn [obind].
  destruct (map_read mp s) as [p|]; [|done].
  unfold withQueue. destruct (queues w !! p) as [q|]; [|done].
  by destruct (mq_get q).
Qed.

Lemma map_read_pool_at (w : World) (dn : nat) mp s :
  arena (md w) !! dn = Some mp -> map_read mp s = pool_at w dn s.
Proof. intros Hmp. unfold pool_at. rewrite Hmp. by destruct mp. Qed.


Lemma pool_at_fresh (w w1 : World) (dn : nat) g s :
  arena (md w) !! dn = Some (Some g) ->
  arena (md w1) = <[dn := Some (<[s := length (queues w)]> g)]> (arena (md w)) ->
  forall d' s', pool_at w1 d' s' =
    if decide (d' = dn /\ s' = s) then Some (length (queues w)) else pool_at w d' s'.
Proof.
  intros Ha Ha1 d' s'. unfold pool_at. rewrite Ha1.
  pose proof (lookup_lt_Some _ _ _ Ha) as Hlt.
  destruct (decide (d' = dn)) as [->|Hne].
  - rewrite list_lookup_insert_eq by done. rewrite Ha.
    destruct (decide (s' = s)) as [->|Hs].
    + rewrite lookup_insert_eq. by rewrite decide_True.
    + rewrite lookup_insert_ne by done. rewrite decide_False; [done|]. by intros [_ ?].
  - rewrite list_lookup_insert_ne by done. rewrite decide_False; [done|]. by intros [? _].
Qed.

(** X7. A [Get] that returns never changes the receiver and never creates
    or removes a pool; the only pool it may change is the one of its own
    device and size. *)
Theorem Get_touches_one_pool (w w1 : World) (d : Z) (s : N) r :
  Get d s w = Ret (r, w1) ->
  md w1 = md w /\
  length (queues w1) = length (queues w) /\
  (forall p, pool_at w (Z.to_nat d) s <> Some p -> queues w1 !! p = queues w !! p).
Proof.
  intros Hget.
  destruct (Get_inv _ _ _ _ _ Hget) as [->|(dn & g & p & q & -> & Ha & Hg & Hq & ->)];
    [done|].
  rewrite md_set_queues, queues_set_queues, length_insert.
  split; [done|]. split; [done|].
  intros p' Hp'. rewrite Nat2Z.id in Hp'. unfold pool_at in Hp'. rewrite Ha, Hg in Hp'.
  apply list_lookup_insert_ne. congruence.
Qed.

(** X8. On a device in range whose map is nil (as [init] leaves the devices
    it did not finish) [Get] reports "not found" and changes nothing, while
    [Put] panics on the write to the nil map. *)
Theorem Put_without_map_panics (w : World) (d : nat) (s : N) (blk : Memory) :
  arena (md w) !! d = Some None ->
  Get (Z.of_nat d) s w = Ret (notFound, w) /\
  Put (Z.of_nat d) blk s w = Panic NilMapAssign.
Proof.
  intros Ha. split.
  - unfold Get, bind, getMD, lift, ret.
    by rewrite (geb_in_range _ _ _ Ha), (index_of_nat _ _ _ Ha).
  - unfold Put, bind, getMD, lift, ret.
    by rewrite (geb_in_range _ _ _ Ha), (index_of_nat _ _ _ Ha).
Qed.

(** X9. [Put] and [Get] keep the arena consistent with the store of
    pools: every address in the arena stays allocated and no two
    (device, size) pairs ever share a pool. *)
Theorem arena_wf_preserved (w : World) :
  arena_wf w ->
  (forall d blk s w1, Put d blk s w = Ret (tt, w1) -> arena_wf w1) /\
  (forall d s r w1, Get d s w = Ret (r, w1) -> arena_wf w1).
Proof.
  intros [Hvalid Hinj]. split.
  - intros d blk s w1 Hput.
    destruct (Put_inv _ _ _ _ _ Hput)
      as [[_ ->]|(dn & g & -> & Ha & [(p & q & Hg & Hq & ->)|(Hg & Ha1 & Hq1)])].
    + done.
    + split.
      * intros d' s' p'. rewrite pool_at_set_queues, queues_set_queues, length_insert.
        apply Hvalid.
      * intros d1 s1 d2 s2 p'. rewrite !pool_at_set_queues. apply Hinj.
    + pose proof (pool_at_fresh w w1 dn g s Ha Ha1) as Hpool. split.
      * intros d' s' p'. rewrite Hpool, Hq1, length_app. cbn.
        case_decide; [intros [= <-]; lia|]. intros Hp. apply Hvalid in Hp. lia.
      * intros d1 s1 d2 s2 p'. rewrite !Hpool.
        destruct (decide (d1 = dn /\ s1 = s)) as [[-> ->]|_];
          destruct (decide (d2 = dn /\ s2 = s)) as [[-> ->]|_].
        -- done.
        -- intros [= <-] Hp. apply Hvalid in Hp. lia.
        -- intros Hp [= <-]. apply Hvalid in Hp. lia.
        -- apply Hinj.
  - intros d s r w1 Hget.
    destruct (Get_inv _ _ _ _ _ Hget) as [->|(dn & g & p & q & -> & Ha & Hg & Hq & ->)];
      [done|].
    split.
    + intros d' s' p'. rewrite pool_at_set_queues, queues_set_queues, length_insert.
      apply Hvalid.
    + intros d1 s1 d2 s2 p'. rewrite !pool_at_set_queues. apply Hinj.
Qed.

(** X10. In a consistent arena the pools are isolated: a [Put] or a [Get]
    on one (device, size) pair does not change what [Get] returns for any
    other pair. *)
Theorem arena_pools_isolated (w : World) (d d' : Z) (s s' : N) :
  arena_wf w -> (d', s') <> (d, s) ->
  (forall blk w1, Put d blk s w = Ret (tt, w1) ->
     value_of (Get d' s' w1) = value_of (Get d' s' w)) /\
  (forall r w1, Get d s w = Ret (r, w1) ->
     value_of (Get d' s' w1) = value_of (Get d' s' w)).
Proof.
  intros [Hvalid Hinj] Hne.
  (* an update of the pool of [(d, s)] in place *)
  assert (Hinplace : forall dn g p q',
    d = Z.of_nat dn -> arena (md w) !! dn = Some (Some g) -> g !! s = Some p ->
    value_of (Get d' s' (set_queues (<[p := q']> (queues w)) w)) = value_of (Get d' s' w)).
  { intros dn g p q' -> Ha Hg. rewrite !Get_value, md_set_queues, queues_set_queues.
    destruct (d' >=? len (arena (md w))); [done|].
    destruct (index (arena (md w)) d') as [mp|] eqn:Hidx; [|done]. cbn [obind].
    apply index_inv in Hidx as [Hd' Hmp].
    destruct (map_read mp s') as [p'|] eqn:Hs'; [|done].
    rewrite (map_read_pool_at w _ _ _ Hmp) in Hs'.
    assert (Hp : pool_at w dn s = Some p) by (unfold pool_at; by rewrite Ha).
    assert (p <> p') as Hpp.
    { intros <-. destruct (Hinj _ _ _ _ _ Hs' Hp) as [Hd Hs]. apply Hne.
      f_equal; [lia|done]. }
    by rewrite list_lookup_insert_ne. }
  split.
  - intros blk w1 Hput.
    destruct (Put_inv _ _ _ _ _ Hput)
      as [[_ ->]|(dn & g & Hd & Ha & [(p & q & Hg & Hq & ->)|(Hg & Ha1 & Hq1)])].
    + done.
    + by apply (Hinplace dn g p).
    + subst d. pose proof (pool_at_fresh w w1 dn g s Ha Ha1) as Hpool.
      rewrite !Get_value.
      assert (Hlen : len (arena (md w1)) = len (arena (md w)))
        by (unfold len; by rewrite Ha1, length_insert).
      rewrite Hlen. destruct (d' >=? len (arena (md w))); [done|].
      unfold index. destruct (Z.ltb_spec d' 0) as [|Hd']; [done|].
      assert (Hsome : forall mp1, arena (md w1) !! Z.to_nat d' = Some mp1 ->
                exists mp, arena (md w) !! Z.to_nat d' = Some mp).
      { intros mp1 H1. apply lookup_lt_Some in H1.
        rewrite Ha1, length_insert in H1. by apply lookup_lt_is_Some_2. }
      destruct (arena (md w1) !! Z.to_nat d') as [mp1|] eqn:H1.
      2:{ apply lookup_ge_None in H1. rewrite Ha1, length_insert in H1.
          apply lookup_ge_None in H1. by rewrite H1. }
      destruct (Hsome mp1 eq_refl) as [mp Hmp]. rewrite Hmp. cbn [obind].
      rewrite (map_read_pool_at w1 _ _ _ H1), (map_read_pool_at w _ _ _ Hmp), Hpool.
      rewrite decide_False.
      2:{ intros [Hd Hs]. apply Hne. f_equal; [lia|done]. }
      destruct (pool_at w (Z.to_nat d') s') as [p'|] eqn:Hp'; [|done].
      apply Hvalid in Hp'. rewrite Hq1. by rewrite lookup_app_l.
  - intros r w1 Hget.
    destruct (Get_inv _ _ _ _ _ Hget) as [->|(dn & g & p & q & Hd & Ha & Hg & Hq & ->)];
      [done|].
    by apply (Hinplace dn g p).
Qed.
End ArenaIsolation.

Section ArenaIsolationExamples.
Local Existing Instance simExternals.

(** Device 0 pools one block of 4096 bytes, device 1 nothing yet. *)
Lemma one_pool_wf :
  arena_wf (worldWithArena [Some {[4096%N := 0%nat]}; Some ∅]
                           [mkMemoryQueue 4096 [block 701]]).
Proof.
  assert (Hpool : forall d s p,
    pool_at (worldWithArena [Some {[4096%N := 0%nat]}; Some ∅]
                            [mkMemoryQueue 4096 [block 701]]) d s = Some p ->
    d = 0%nat /\ s = 4096%N /\ p = 0%nat).
  { intros d s p. unfold pool_at. destruct d as [|[|d]]; cbn.
    - intros Hs. apply lookup_singleton_Some in Hs as [<- <-]. done.
    - by rewrite lookup_empty.
    - done. }
  split.
  - intros d s p Hp. apply Hpool in Hp as (_ & _ & ->). cbn. lia.
  - intros d s d' s' p Hp Hp'.
    apply Hpool in Hp as (-> & -> & _). apply Hpool in Hp' as (-> & -> & _). done.
Qed.

Lemma Get_touches_one_pool_witness :
  exists r w1,
    Get 0 4096 (worldWithArena [Some {[4096%N := 0%nat]}; Some {[512%N := 1%nat]}]
                  [mkMemoryQueue 4096 [block 701]; mkMemoryQueue 512 [block 702]])
    = Ret (r, w1) /\
    queues w1 !! 1%nat = Some (mkMemoryQueue 512 [block 702]).
Proof.
  destruct (Get 0 4096 (worldWithArena [Some {[4096%N := 0%nat]}; Some {[512%N := 1%nat]}]
                  [mkMemoryQueue 4096 [block 701]; mkMemoryQueue 512 [block 702]]))
    as [[r w1]|pn] eqn:Hget; [|vm_compute in Hget; discriminate].
  exists r, w1. split; [reflexivity|].
  destruct (Get_touches_one_pool _ _ _ _ _ Hget) as (_ & _ & Hother).
  rewrite Hother; [reflexivity|]. vm_compute. discriminate.
Defined.

Lemma Put_without_map_panics_witness :
  Get 1 512 (worldWithArena [Some ∅; None] []) = Ret (notFound, worldWithArena [Some ∅; None] []) /\
  Put 1 (block 700) 512 (worldWithArena [Some ∅; None] []) = Panic NilMapAssign.
Proof.
  apply (Put_without_map_panics (worldWithArena [Some ∅; None] []) 1 512 (block 700)).
  reflexivity.
Defined.

Lemma arena_wf_preserved_witness :
  exists w1,
    Put 1 (block 702) 4096
      (worldWithArena [Some {[4096%N := 0%nat]}; Some ∅] [mkMemoryQueue 4096 [block 701]])
    = Ret (tt, w1) /\ arena_wf w1.
Proof.
  destruct (Put 1 (block 702) 4096
      (worldWithArena [Some {[4096%N := 0%nat]}; Some ∅] [mkMemoryQueue 4096 [block 701]]))
    as [[[] w1]|pn] eqn:Hput; [|vm_compute in Hput; discriminate].
  exists w1. split; [reflexivity|].
  destruct (arena_wf_preserved _ one_pool_wf) as [Hkeep _].
  exact (Hkeep _ _ _ _ Hput).
Defined.

Lemma arena_pools_isolated_witness :
  exists w1,
    Put 1 (block 702) 4096
      (worldWithArena [Some {[4096%N := 0%nat]}; Some ∅] [mkMemoryQueue 4096 [block 701]])
    = Ret (tt, w1) /\
    value_of (Get 0 4096 w1) = Ret (found (block 701)).
Proof.
  destruct (Put 1 (block 702) 4096
      (worldWithArena [Some {[4096%N := 0%nat]}; Some ∅] [mkMemoryQueue 4096 [block 701]]))
    as [[[] w1]|pn] eqn:Hput; [|vm_compute in Hput; discriminate].
  exists w1. split; [reflexivity|].
  destruct (arena_pools_isolated _ 1 0 4096 4096 one_pool_wf) as [Hput_iso _];
    [discriminate|].
  rewrite (Hput_iso _ _ Hput). reflexivity.
Defined.

End ArenaIsolationExamples.

(** ** The memory arena: the round trip *)

Section ArenaRoundTrip.
Context `{Ext : Externals}.

Lemma pool_at_lookup (w : World) (d : nat) (s : N) (p : nat) :
  pool_at w d s = Some p <->
  exists g, arena (md w) !! d = Some (Some g) /\ g !! s = Some p.
Proof.
  unfold pool_at. split.
  - destruct (arena (md w) !! d) as [[g|]|]; try done. eauto.
  - intros (g & -> & Hg). done.
Qed.

(** What a returning call did: nothing, an update in place of the pool of
    its pair, or the creation of the pool of its pair. *)
Lemma runOp_inv (o : arenaOp) (w w' : World) :
  runOp o w = Ret (tt, w') ->
  w' = w \/
  (exists dn g,
     opPair o = (Z.of_nat dn, (opPair o).2) /\ arena (md w) !! dn = Some (Some g) /\
     ((exists p q', g !! (opPair o).2 = Some p /\ is_Some (queues w !! p) /\
         w' = set_queues (<[p := q']> (queues w)) w) \/
      (exists blk, g !! (opPair o).2 = None /\
         arena (md w') = <[dn := Some (<[(opPair o).2 := length (queues w)]> g)]> (arena (md w)) /\
         queues w' = queues w ++ [mkMemoryQueue (opPair o).2 [blk]]))).
Proof.
  destruct o as [d blk s|d s]; cbn [runOp opPair snd].
  - intros Hput.
    destruct (Put_inv _ _ _ _ _ Hput)
      as [[_ ->]|(dn & g & -> & Ha & [(p & q & Hg & Hq & ->)|(Hg & Ha1 & Hq1)])].
    + by left.
    + right. exists dn, g. split; [done|]. split; [done|]. left.
      exists p, (mq_add blk q). by rewrite Hq.
    + right. exists dn, g. split; [done|]. split; [done|]. right. by exists blk.
  - unfold bind, ret. destruct (Get d s w) as [[r w1]|pn] eqn:Hget; [|done].
    intros [= <-].
    destruct (Get_inv _ _ _ _ _ Hget) as [->|(dn & g & p & q & -> & Ha & Hg & Hq & ->)].
    + by left.
    + right. exists dn, g. split; [done|]. split; [done|]. left.
      exists p, (mq_get q).2. by rewrite Hq.
Qed.

(** No call removes or moves a pool. *)
Lemma runOp_keeps_pool (o : arenaOp) (w w' : World) (d : nat) (s : N) (p : nat) :
  runOp o w = Ret (tt, w') -> pool_at w d s = Some p -> pool_at w' d s = Some p.
Proof.
  intros Hrun Hp.
  destruct (runOp_inv _ _ _ Hrun)
    as [->|(dn & g & Ho & Ha & [(p' & q' & Hg & Hq & ->)|(blk & Hg & Ha1 & Hq1)])].
  - done.
  - by rewrite pool_at_set_queues.
  - rewrite (pool_at_fresh w w' dn g _ Ha Ha1). case_decide as Hsame; [|done].
    destruct Hsame as [-> ->]. apply pool_at_lookup in Hp as (g' & Ha' & Hg').
    congruence.
Qed.

Lemma runOp_keeps_wf (o : arenaOp) (w w' : World) :
  arena_wf w -> runOp o w = Ret (tt, w') -> arena_wf w'.
Proof.
  intros [Hvalid Hinj] Hrun.
  destruct (runOp_inv _ _ _ Hrun)
    as [->|(dn & g & Ho & Ha & [(p' & q' & Hg & Hq & ->)|(blk & Hg & Ha1 & Hq1)])].
  - done.
  - split.
    + intros d' s' p. rewrite pool_at_set_queues, queues_set_queues, length_insert.
      apply Hvalid.
    + intros d1 s1 d2 s2 p. rewrite !pool_at_set_queues. apply Hinj.
  - pose proof (pool_at_fresh w w' dn g _ Ha Ha1) as Hpool. split.
    + intros d' s' p. rewrite Hpool, Hq1, length_app. cbn.
      case_decide; [intros [= <-]; lia|]. intros Hp. apply Hvalid in Hp. lia.
    + intros d1 s1 d2 s2 p. rewrite !Hpool.
      destruct (decide (d1 = dn /\ s1 = (opPair o).2)) as [[-> ->]|_];
        destruct (decide (d2 = dn /\ s2 = (opPair o).2)) as [[-> ->]|_].
      * done.
      * intros [= <-] Hp. apply Hvalid in Hp. lia.
      * intros Hp [= <-]. apply Hvalid in Hp. lia.
      * apply Hinj.
Qed.

(** A call on another pair leaves the pool of this pair as it is. *)
Lemma runOp_other_pool (o : arenaOp) (w w' : World) (d : nat) (s : N) (p : nat) :
  arena_wf w -> opPair o <> (Z.of_nat d, s) ->
  runOp o w = Ret (tt, w') -> pool_at w d s = Some p ->
  queues w' !! p = queues w !! p.
Proof.
  intros [Hvalid Hinj] Hne Hrun Hp.
  destruct (runOp_inv _ _ _ Hrun)
    as [->|(dn & g & Ho & Ha & [(p' & q' & Hg & Hq & ->)|(blk & Hg & Ha1 & Hq1)])].
  - done.
  - rewrite queues_set_queues. apply list_lookup_insert_ne. intros <-.
    assert (Hp' : pool_at w dn (opPair o).2 = Some p')
      by (apply pool_at_lookup; eauto).
    destruct (Hinj _ _ _ _ _ Hp Hp') as [-> ->]. by rewrite <- Ho in Hne.
  - rewrite Hq1. apply lookup_app_l. by apply (Hvalid d s).
Qed.

Lemma runOps_keeps_pool (ops : list arenaOp) : forall (w w' : World) (d : nat) (s : N) p,
  runOps ops w = Ret (tt, w') -> pool_at w d s = Some p -> pool_at w' d s = Some p.
Proof.
  induction ops as [|o ops IH]; intros w w' d s p Hrun Hp; cbn in Hrun.
  - by injection Hrun as <-.
  - unfold bind in Hrun. destruct (runOp o w) as [[[] w1]|pn] eqn:Ho; [|done].
    apply (IH _ _ _ _ _ Hrun). by apply (runOp_keeps_pool o w).
Qed.

Lemma runOps_keeps_wf (ops : list arenaOp) : forall (w w' : World),
  arena_wf w -> runOps ops w = Ret (tt, w') -> arena_wf w'.
Proof.
  induction ops as [|o ops IH]; intros w w' Hwf Hrun; cbn in Hrun.
  - by injection Hrun as <-.
  - unfold bind in Hrun. destruct (runOp o w) as [[[] w1]|pn] eqn:Ho; [|done].
    apply (IH _ _ (runOp_keeps_wf o w w1 Hwf Ho) Hrun).
Qed.

Lemma runOps_other_pool (ops : list arenaOp) : forall (w w' : World) (d : nat) (s : N) p,
  arena_wf w -> Forall (fun o => opPair o <> (Z.of_nat d, s)) ops ->
  runOps ops w = Ret (tt, w') -> pool_at w d s = Some p ->
  arena_wf w' /\ pool_at w' d s = Some p /\ queues w' !! p = queues w !! p.
Proof.
  induction ops as [|o ops IH]; intros w w' d s p Hwf Hother Hrun Hp; cbn in Hrun.
  - by injection Hrun as <-.
  - unfold bind in Hrun. destruct (runOp o w) as [[[] w1]|pn] eqn:Ho; [|done].
    apply Forall_cons in Hother as [Hne Hother].
    destruct (IH w1 w' d s p) as (Hwf' & Hp' & Hq'); try done.
    + by apply (runOp_keeps_wf o w).
    + by apply (runOp_keeps_pool o w).
    + split; [done|]. split; [done|]. rewrite Hq'. by apply (runOp_other_pool o w w1 d s).
Qed.

(** Draining a pool and asking once more. *)
Lemma pool_drains (w : World) (d : nat) (s : N) (p : nat) (q : memoryQueue) :
  pool_at w d s = Some p -> queues w !! p = Some q ->
  exists w2,
    GetN (length (mq_data q)) (Z.of_nat d) s w = Ret (found <$> mq_data q, w2) /\
    Get (Z.of_nat d) s w2 = Ret (notFound, w2).
Proof.
  intros Hp Hq. apply pool_at_lookup in Hp as (g & Ha & Hg).
  destruct (GetN_drains (mq_data q) w d s g p q Ha Hg Hq eq_refl) as (w2 & Hrun & Hmd & Hqs).
  exists w2. split; [done|].
  assert (Hq2 : queues w2 !! p = Some (mkMemoryQueue (mq_size q) [])).
  { rewrite Hqs. apply list_lookup_insert_eq. by eapply lookup_lt_Some. }
  assert (Ha2 : arena (md w2) !! d = Some (Some g)) by (by rewrite Hmd).
  rewrite (Get_pool w2 d s g p _ Ha2 Hg Hq2). cbn.
  by rewrite list_insert_id, set_queues_id.
Qed.

(** What a returning [Put] leaves in the pool of its pair. *)
Lemma Put_pool (w w1 : World) (d : nat) (s : N) (blk : Memory) (g : gmap N nat) :
  arena (md w) !! d = Some (Some g) ->
  Put (Z.of_nat d) blk s w = Ret (tt, w1) ->
  exists p q, pool_at w1 d s = Some p /\ queues w1 !! p = Some q /\
    mq_data q = pool_blocks w d s ++ [blk].
Proof.
  intros Ha Hput. unfold pool_blocks.
  destruct (g !! s) as [p|] eqn:Hg.
  - assert (Hp : pool_at w d s = Some p) by (apply pool_at_lookup; eauto).
    rewrite Hp.
    destruct (queues w !! p) as [q|] eqn:Hq.
    + rewrite (Put_existing w d s blk g p q Ha Hg Hq) in Hput. injection Hput as <-.
      exists p, (mq_add blk q). rewrite pool_at_set_queues, queues_set_queues.
      split; [done|]. split; [|done].
      apply list_lookup_insert_eq. by eapply lookup_lt_Some.
    + revert Hput. unfold Put, bind, getMD, lift, ret.
      rewrite (geb_in_range _ _ _ Ha), (index_of_nat _ _ _ Ha). cbn [map_read].
      rewrite Hg. unfold withQueue. by rewrite Hq.
  - assert (Hp : pool_at w d s = None) by (unfold pool_at; by rewrite Ha).
    rewrite Hp.
    destruct (Put_fresh w d s blk g Ha Hg) as (w' & Hrun & Ha1 & Hq1).
    rewrite Hrun in Hput. injection Hput as <-.
    exists (length (queues w)), (mkMemoryQueue s [blk]).
    rewrite (pool_at_fresh w w' d g s Ha Ha1), decide_True by done.
    split; [done|]. split; [|done].
    rewrite Hq1, lookup_app_r by lia. by rewrite Nat.sub_diag.
Qed.

(** The world a [Put] under an unseen size leaves. *)
Lemma Put_fresh_world (w : World) (d : nat) (s : N) (blk : Memory) g :
  arena (md w) !! d = Some (Some g) -> g !! s = None ->
  Put (Z.of_nat d) blk s w
  = Ret (tt, set_queues (queues w ++ [mkMemoryQueue s [blk]])
               (set_md (set_arena (<[d := Some (<[s := length (queues w)]> g)]> (arena (md w)))
                          (md w)) w)).
Proof.
  intros Ha Hg. unfold Put, bind, getMD, lift, ret.
  rewrite (geb_in_range _ _ _ Ha), (index_of_nat _ _ _ Ha). cbn [map_read].
  rewrite Hg. unfold allocQueue, map_write, assign, modifyMD, withQueue.
  destruct (Z.ltb_spec (Z.of_nat d) 0) as [?|_]; [lia|].
  rewrite Nat2Z.id.
  pose proof (lookup_lt_Some _ _ _ Ha) as Hlt.
  destruct (Nat.ltb_spec d (length (arena (md w)))) as [_|?]; [|lia].
  cbn. rewrite !md_set_queues, !queues_set_md, !queues_set_queues.
  rewrite lookup_app_r by lia. rewrite Nat.sub_diag. cbn.
  rewrite insert_app_r_alt by lia. rewrite Nat.sub_diag. cbn.
  destruct w as [m0 qs chs gs lg cur lib]. reflexivity.
Qed.

(** C7, as amended. On a device in range whose pool map has been made:
    [Put] of a block under an unseen size creates the pool of the pair,
    enters it in the map of the device and leaves every other entry, every
    other pool and the rest of the world as it was; a [Get] that follows
    returns that block, and a later [Put] for the pair adds to the pool in
    place. [Put] under a size whose pool exists adds to it in place; the
    blocks are then returned oldest first, every block exactly once, and
    the pool is empty. In a consistent arena a block put back remains
    retrievable after any calls on other pairs. A pool, once made, is never
    removed or replaced: no call makes a second pool for its pair. *)
Theorem Put_Get_round_trip (w : World) (d : nat) (s : N) (blk : Memory) (g : gmap N nat) :
  arena (md w) !! d = Some (Some g) ->
  (g !! s = None ->
     exists w1 w2,
       Put (Z.of_nat d) blk s w = Ret (tt, w1) /\
       w1 = set_queues (queues w ++ [mkMemoryQueue s [blk]])
              (set_md (set_arena
                         (<[d := Some (<[s := length (queues w)]> g)]> (arena (md w)))
                         (md w)) w) /\
       Get (Z.of_nat d) s w1 = Ret (found blk, w2) /\
       forall blk', exists w3,
         Put (Z.of_nat d) blk' s w1 = Ret (tt, w3) /\
         arena (md w3) = arena (md w1) /\
         length (queues w3) = length (queues w1)) /\
  (forall p q, g !! s = Some p -> queues w !! p = Some q ->
     exists w2,
       Put (Z.of_nat d) blk s w
       = Ret (tt, set_queues (<[p := mq_add blk q]> (queues w)) w) /\
       GetN (S (length (mq_data q))) (Z.of_nat d) s
         (set_queues (<[p := mq_add blk q]> (queues w)) w)
       = Ret (found <$> (mq_data q ++ [blk]), w2) /\
       Get (Z.of_nat d) s w2 = Ret (notFound, w2)) /\
  (arena_wf w ->
   forall w1 ops w', Put (Z.of_nat d) blk s w = Ret (tt, w1) ->
     Forall (fun o => opPair o <> (Z.of_nat d, s)) ops ->
     runOps ops w1 = Ret (tt, w') ->
     exists w2,
       GetN (S (length (pool_blocks w d s))) (Z.of_nat d) s w'
       = Ret (found <$> (pool_blocks w d s ++ [blk]), w2) /\
       Get (Z.of_nat d) s w2 = Ret (notFound, w2)) /\
  (forall p ops w', pool_at w d s = Some p -> runOps ops w = Ret (tt, w') ->
     pool_at w' d s = Some p /\
     (arena_wf w -> forall blk', exists w3,
        Put (Z.of_nat d) blk' s w' = Ret (tt, w3) /\
        arena (md w3) = arena (md w') /\
        length (queues w3) = length (queues w'))).
Proof.
  intros Ha. split; [|split; [|split]].
  - intros Hg.
    destruct (Put_fresh w d s blk g Ha Hg) as (w1 & Hput & Ha1 & Hq1).
    pose proof (lookup_lt_Some _ _ _ Ha) as Hlt.
    assert (Ha1' : arena (md w1) !! d = Some (Some (<[s := length (queues w)]> g))).
    { rewrite Ha1. by apply list_lookup_insert_eq. }
    assert (Hg1 : (<[s := length (queues w)]> g) !! s = Some (length (queues w)))
      by apply lookup_insert_eq.
    assert (Hp1 : queues w1 !! length (queues w) = Some (mkMemoryQueue s [blk])).
    { rewrite Hq1. rewrite lookup_app_r by lia. by rewrite Nat.sub_diag. }
    eexists w1, _. split; [exact Hput|]. split.
    { pose proof (Put_fresh_world w d s blk g Ha Hg) as Hworld. congruence. }
    split.
    { rewrite (Get_pool w1 d s _ _ _ Ha1' Hg1 Hp1). reflexivity. }
    intros blk'. eexists. split.
    { apply (Put_existing w1 d s blk' _ _ _ Ha1' Hg1 Hp1). }
    by rewrite md_set_queues, queues_set_queues, length_insert.
  - intros p q Hg Hq.
    pose proof (lookup_lt_Some _ _ _ Hq) as Hlt.
    set (w1 := set_queues (<[p := mq_add blk q]> (queues w)) w).
    assert (Hp1 : pool_at w1 d s = Some p).
    { unfold w1. rewrite pool_at_set_queues. apply pool_at_lookup. eauto. }
    assert (Hq1 : queues w1 !! p = Some (mq_add blk q)).
    { unfold w1. rewrite queues_set_queues. by apply list_lookup_insert_eq. }
    destruct (pool_drains w1 d s p _ Hp1 Hq1) as (w2 & Hrun & Hempty).
    exists w2. split; [by apply (Put_existing w d s blk g p q)|].
    split; [|done]. cbn in Hrun. rewrite length_app in Hrun. cbn in Hrun.
    by replace (S (length (mq_data q))) with (length (mq_data q) + 1)%nat by lia.
  - intros Hwf w1 ops w' Hput Hother Hrun.
    destruct (Put_pool w w1 d s blk g Ha Hput) as (p & q & Hp1 & Hq1 & Hdata).
    assert (Hwf1 : arena_wf w1) by (by apply (runOp_keeps_wf (OpPut (Z.of_nat d) blk s) w)).
    destruct (runOps_other_pool ops w1 w' d s p Hwf1 Hother Hrun Hp1) as (_ & Hp' & Hq').
    rewrite Hq1 in Hq'.
    destruct (pool_drains w' d s p q Hp' Hq') as (w2 & Hdrain & Hempty).
    exists w2. split; [|done]. rewrite Hdata in Hdrain.
    rewrite length_app in Hdrain. cbn in Hdrain.
    by replace (S (length (pool_blocks w d s)))
      with (length (pool_blocks w d s) + 1)%nat by lia.
  - intros p ops w' Hp Hrun.
    pose proof (runOps_keeps_pool ops w w' d s p Hrun Hp) as Hp'.
    split; [done|]. intros Hwf blk'.
    destruct (runOps_keeps_wf ops w w' Hwf Hrun) as [Hvalid _].
    destruct (lookup_lt_is_Some_2 _ _ (Hvalid _ _ _ Hp')) as [q' Hq'].
    apply pool_at_lookup in Hp' as (g' & Ha' & Hg').
    eexists. split; [apply (Put_existing w' d s blk' g' p q' Ha' Hg' Hq')|].
    by rewrite md_set_queues, queues_set_queues, length_insert.
Qed.

End ArenaRoundTrip.

Section ArenaRoundTripExamples.
Local Existing Instance simExternals.

(** An unseen size on an empty arena; then device 0 pools one block of 4096
    bytes, a second is put back, and calls on other pairs are made before
    the pool is drained. *)
Lemma Put_Get_round_trip_witness :
  (exists w1 w2,
     Put 0 (block 700) 512 (worldWithArena [Some ∅] []) = Ret (tt, w1) /\
     Get 0 512 w1 = Ret (found (block 700), w2)) /\
  (exists w1 w' w2,
     Put 0 (block 702) 4096
       (worldWithArena [Some {[4096%N := 0%nat]}; Some ∅] [mkMemoryQueue 4096 [block 701]])
     = Ret (tt, w1) /\
     runOps [OpPut 1 (block 900) 4096; OpGet 0 512; OpPut 0 (block 901) 512] w1
     = Ret (tt, w') /\
     GetN 2 0 4096 w' = Ret ([found (block 701); found (block 702)], w2) /\
     Get 0 4096 w2 = Ret (notFound, w2)).
Proof.
  split.
  - destruct (Put_Get_round_trip (worldWithArena [Some ∅] []) 0 512 (block 700) ∅ eq_refl)
      as (Hfresh & _).
    destruct (Hfresh eq_refl) as (w1 & w2 & Hput & _ & Hget & _).
    exists w1, w2. split; [exact Hput | exact Hget].
  - destruct (Put_Get_round_trip
                (worldWithArena [Some {[4096%N := 0%nat]}; Some ∅]
                   [mkMemoryQueue 4096 [block 701]])
                0 4096 (block 702) {[4096%N := 0%nat]} eq_refl) as (_ & _ & Hlater & _).
    assert (Hruns : exists w1 w',
      Put 0 (block 702) 4096
        (worldWithArena [Some {[4096%N := 0%nat]}; Some ∅] [mkMemoryQueue 4096 [block 701]])
      = Ret (tt, w1) /\
      runOps [OpPut 1 (block 900) 4096; OpGet 0 512; OpPut 0 (block 901) 512] w1
      = Ret (tt, w')).
    { eexists _, _. split; reflexivity. }
    destruct Hruns as (w1 & w' & Hput & Hrun).
    assert (Hother : Forall (fun o : arenaOp => opPair o <> (Z.of_nat 0, 4096%N))
                       [OpPut 1 (block 900) 4096; OpGet 0 512; OpPut 0 (block 901) 512])
      by (repeat constructor; discriminate).
    destruct (Hlater one_pool_wf w1 _ w' Hput Hother Hrun) as (w2 & Hdrain & Hempty).
    exists w1, w', w2. split; [exact Hput|]. split; [exact Hrun|].
    split; [exact Hdrain | exact Hempty].
Defined.

(** C7 as stated fails on a device in range whose map was never made: of
    two devices the second could not be set up, [init] has left its arena
    entry nil, and [Put] faults on the write before any [Get] can follow. *)
Lemma Put_in_range_without_map_faults :
  exists w,
    init (simDriver 2 1) emptyWorld = Ret (tt, w) /\
    0 <= 1 < len (arena (md w)) /\
    queues w = [] /\
    Put 1 (block 700) 512 w = Panic NilMapAssign /\
    (Put 1 (block 700) 512 ;; Get 1 512) w = Panic NilMapAssign.
Proof.
  eexists. split; [vm_compute; reflexivity|].
  split; [vm_compute; split; [discriminate|reflexivity]|].
  split; [reflexivity|]. split; reflexivity.
Qed.

End ArenaRoundTripExamples.

(** ** The flush routine: the other outcomes *)

Section FlushOutcomes.
Context `{Ext : Externals}.

(** The loop over devices none of which has pending work changes nothing. *)
Lemma doWorkLoop_idle (n : nat) : forall (a : nat) (w : World),
  (forall i, (a <= i < a + n)%nat -> hasWork (md w) !! i = Some false) ->
  doWorkLoop (seq a n) w = Ret (None, w).
Proof.
  induction n as [|n IH]; intros a w Hidle; [done|].
  cbn [seq doWorkLoop]. unfold bind.
  rewrite (doWorkDevice_idle w a) by (apply Hidle; lia).
  apply IH. intros i Hi. apply Hidle. lia.
Qed.

Lemma all_false_lookup (l : list bool) :
  (forall i, (i < length l)%nat -> l !! i = Some false) <-> l = replicate (length l) false.
Proof.
  split.
  - intros Hall. apply list_eq. intros i.
    destruct (decide (i < length l)%nat) as [Hlt|Hge].
    + rewrite Hall by done. symmetry. by apply lookup_replicate_2.
    + rewrite !lookup_ge_None_2; [done| |lia]. rewrite length_replicate. lia.
  - intros -> i Hi. rewrite length_replicate in *. by apply lookup_replicate_2.
Qed.

(** X11. With no flag set and no BLAS work pending, [DoWork] returns [nil]
    and leaves the world exactly as it was: no context is flushed. *)
Theorem DoWork_nothing_pending (w : World) :
  (forall i, (i < length (hasWork (md w)))%nat -> hasWork (md w) !! i = Some false) ->
  blasHasWork (md w) = false ->
  DoWork w = Ret (None, w).
Proof.
  intros Hidle Hblas. unfold DoWork, bind, getMD.
  rewrite (doWorkLoop_idle _ 0 w) by (intros i Hi; apply Hidle; lia).
  rewrite Hblas. reflexivity.
Qed.

(** X12. When no flush reports an error, [DoWork] returns [nil] having
    flushed exactly the devices whose flag was set (the other contexts are
    untouched), cleared every flag, and flushed the BLAS backend if it had
    work; a second [DoWork] right after is then a no-op. *)
Theorem DoWork_flushes_pending (w : World) (cs : list (option BatchedContext)) :
  c (md w) = Some cs ->
  (forall i, (i < length (hasWork (md w)))%nat -> flushes_clean w cs i) ->
  (blasHasWork (md w) = true -> is_Some (b (md w))) ->
  exists w' cs',
    DoWork w = Ret (None, w') /\
    hasWork (md w') = replicate (length (hasWork (md w))) false /\
    blasHasWork (md w') = false /\
    c (md w') = Some cs' /\ length cs' = length cs /\
    (forall i, (i < length (hasWork (md w)))%nat -> cs' !! i = flushed_slot w cs i) /\
    (forall j, (length (hasWork (md w)) <= j)%nat -> cs' !! j = cs !! j) /\
    b (md w') = (if blasHasWork (md w) then blas_DoWork <$> b (md w) else b (md w)) /\
    DoWork w' = Ret (None, w').
Proof.
  intros Hc Hclean Hblas.
  destruct (doWorkLoop_all (length (hasWork (md w))) 0 w cs Hc)
    as (w1 & cs1 & Hrun1 & Hc1 & Hl1 & Hlh1 & Hb1 & Hbl1 & Hframe1 & Hclr1).
  { intros i Hi. apply Hclean. lia. }
  assert (Hflags : hasWork (md w1) = replicate (length (hasWork (md w))) false).
  { rewrite <- Hlh1. apply all_false_lookup. intros i Hi. apply Hclr1. lia. }
  assert (Hfinal : exists w',
    DoWork w = Ret (None, w') /\ hasWork (md w') = hasWork (md w1) /\
    c (md w') = c (md w1) /\ blasHasWork (md w') = false /\
    b (md w') = (if blasHasWork (md w) then blas_DoWork <$> b (md w) else b (md w))).
  { unfold DoWork, bind at 1, getMD. unfold bind at 1. rewrite Hrun1.
    unfold bind, getMD. rewrite Hbl1, Hb1.
    destruct (blasHasWork (md w)) eqn:Hbw.
    - destruct (Hblas eq_refl) as [blas Hsome]. rewrite Hsome.
      unfold modifyMD, ret. eexists. split; [reflexivity|].
      destruct w1 as [m1 ? ? ? ? ? ?]; destruct m1; cbn. done.
    - unfold ret. exists w1. by rewrite Hbl1. }
  destruct Hfinal as (w' & Hrun & Hhw' & Hc' & Hbl' & Hb').
  exists w', cs1. split; [done|]. split; [congruence|]. split; [done|].
  split; [congruence|]. split; [done|]. split.
  { intros i Hi. apply Hclr1. lia. }
  split.
  { intros j Hj. apply Hframe1. lia. }
  split; [done|].
  unfold DoWork, bind, getMD. rewrite (doWorkLoop_idle _ 0 w').
  - by rewrite Hbl'.
  - intros i Hi. rewrite Hhw', Hflags in *. rewrite length_replicate in Hi.
    apply lookup_replicate_2. lia.
Qed.

(** Without a context slice the loop faults at the first pending device. *)
Lemma doWorkLoop_no_contexts (n : nat) : forall (a : nat) (w : World),
  c (md w) = None ->
  (exists k, (a <= k < a + n)%nat /\ hasWork (md w) !! k = Some true) ->
  doWorkLoop (seq a n) w = Panic IndexOutOfRange.
Proof.
  induction n as [|n IH]; intros a w Hc (k & Hk & Hflag); [lia|].
  cbn [seq doWorkLoop]. unfold bind.
  assert (Ha : is_Some (hasWork (md w) !! a)).
  { apply lookup_lt_is_Some_2. apply lookup_lt_Some in Hflag. lia. }
  destruct Ha as [[] Hhw].
  - unfold doWorkDevice, contextAt, bind, getMD, lift.
    rewrite (index_of_nat _ _ _ Hhw), Hc. done.
  - rewrite (doWorkDevice_idle w a Hhw). apply IH; [done|].
    exists k. split; [|done]. destruct (decide (k = a)) as [->|]; [congruence|lia].
Qed.

(** X13. On a registry without contexts ([c] nil, as [initFail] leaves it)
    [DoWork] panics with an index out of range as soon as one flag is set,
    the flags not being cleared by [initFail]. *)
Theorem DoWork_without_contexts_panics (w : World) (k : nat) :
  c (md w) = None ->
  hasWork (md w) !! k = Some true ->
  DoWork w = Panic IndexOutOfRange.
Proof.
  intros Hc Hflag. unfold DoWork, bind, getMD.
  rewrite (doWorkLoop_no_contexts _ 0 w Hc); [done|].
  exists k. split; [|done]. apply lookup_lt_Some in Hflag. lia.
Qed.
End FlushOutcomes.

Section FlushOutcomesExamples.
Local Existing Instance simExternals.

Lemma DoWork_nothing_pending_witness :
  DoWork (flagsWorld [false; false]) = Ret (None, flagsWorld [false; false]).
Proof.
  apply (DoWork_nothing_pending (flagsWorld [false; false])).
  - intros i Hi. destruct i as [|[|i]]; [reflexivity|reflexivity|cbn in Hi; lia].
  - reflexivity.
Defined.

(** Devices 0 and 2 have pending work, device 1 has none. *)
Lemma DoWork_flushes_pending_witness :
  exists w',
    DoWork (flushWorld [true; false; true] [queued 0 None; queued 1 None; queued 2 None])
    = Ret (None, w') /\
    hasWork (md w') = [false; false; false] /\
    blasHasWork (md w') = false /\
    DoWork w' = Ret (None, w').
Proof.
  destruct (DoWork_flushes_pending
              (flushWorld [true; false; true] [queued 0 None; queued 1 None; queued 2 None])
              [queued 0 None; queued 1 None; queued 2 None])
    as (w' & cs' & Hrun & Hflags & Hblas & _ & _ & _ & _ & _ & Hagain).
  - reflexivity.
  - intros i Hi. destruct i as [|[|[|i]]]; [| | |cbn in Hi; lia].
    + right. split; [reflexivity|]. eexists. split; reflexivity.
    + left. reflexivity.
    + right. split; [reflexivity|]. eexists. split; reflexivity.
  - intros _. eexists. reflexivity.
  - exists w'. split; [exact Hrun|]. split; [exact Hflags|].
    split; [exact Hblas|exact Hagain].
Defined.

(** A relay has marked device 1 on a registry whose contexts are gone. *)
Lemma DoWork_without_contexts_panics_witness :
  DoWork (flagsWorld [false; true]) = Panic IndexOutOfRange.
Proof.
  apply (DoWork_without_contexts_panics (flagsWorld [false; true]) 1);
    reflexivity.
Defined.

End FlushOutcomesExamples.

(** ** The registry lifecycle: the other runs *)

Section RegistryRuns.
Context `{Ext : Externals}.

(** [init] on a fresh registry with [n >= 1] devices reaches its loop in a
    world where everything per-device is allocated and blank, and ends as
    the loop tells. *)
Lemma init_enters_loop (drv : cuDriver) (w : World) (n : nat) :
  initialzed (md w) = false ->
  cu_NumDevices drv = (Z.of_nat n, None) ->
  n <> 0%nat ->
  exists w0,
    looping n (length (chans w)) w0 /\
    chans w0 = chans w ++ [ChanOpen] /\
    goroutines w0 = goroutines w /\
    init_frame w0 = (b (md w), replicate n false, blasHasWork (md w), m (md w),
                     f (md w), queues w, logged w, current w, cudaStdLib w) /\
    (forall i, (i < n)%nat ->
       profile_at (md w0) i = blank_profile /\ context_at (md w0) i = Some None) /\
    (forall w1, initLoop drv (seq 0 n) w0 = Ret (false, w1) -> init drv w = Ret (tt, w1)) /\
    (forall w1 cs ctx0,
       initLoop drv (seq 0 n) w0 = Ret (true, w1) ->
       c (md w1) = Some cs -> cs !! 0%nat = Some (Some ctx0) ->
       init drv w = Ret (tt, init_done w1 ctx0)).
Proof.
  intros Hinit Hnum Hn.
  destruct w as [m0 qs chs gs lg cur lib]. destruct m0. cbn in *. subst.
  unfold init, bind, getMD, makeChan, modifyMD, lift. cbn. rewrite Hnum.
  destruct (Z.eqb_spec (Z.of_nat n) 0) as [?|_]; [lia|].
  rewrite !make_slice_of_nat. cbn.
  unfold len_c, len. cbn. rewrite length_replicate, Nat2Z.id.
  match goal with |- context [initLoop drv _ ?x] => set (w0 := x) end.
  exists w0. split.
  { unfold w0, looping, slices_sized; cbn.
    rewrite lookup_app_r by lia. rewrite Nat.sub_diag. rewrite !length_replicate.
    repeat split; try done. eexists. split; [done|]. by rewrite length_replicate. }
  split; [done|]. split; [done|]. split; [done|]. split.
  { intros i Hi. unfold profile_at, context_at, blank_profile, w0; cbn.
    by rewrite !lookup_replicate_2 by done. }
  split.
  - intros w1 ->. reflexivity.
  - intros w1 cs ctx0 -> Hc H0.
    assert (Hpos : (0 < length cs)%nat) by (by eapply lookup_lt_Some).
    destruct w1 as [m1 ? ? ? ? ? ?]. destruct m1. cbn in *. subst.
    destruct (Z.gtb_spec (Z.of_nat (length cs)) 0) as [_|?]; [|lia].
    unfold contextAt, bind, getMD, lift, ret, go, cudaLogf. cbn.
    change (Z.to_nat 0) with 0%nat. rewrite H0. cbn. reflexivity.
Qed.

Lemma initDevice_ready_full (drv : cuDriver) (w : World) (n ch i : nat) :
  looping n ch w -> (i < n)%nat -> device_ready drv (Z.of_nat i) ->
  exists w', initDevice drv (Z.of_nat i) w = Ret (true, w') /\
    looping n ch w' /\ chans w' = chans w /\
    goroutines w' = goroutines w ++ [relay_of drv i] /\
    profile_at (md w') i = driver_profile drv (Z.of_nat i) /\
    context_at (md w') i = Some (Some (driver_context drv (Z.of_nat i))) /\
    (forall j, j <> i -> profile_at (md w') j = profile_at (md w) j /\
                         context_at (md w') j = context_at (md w) j) /\
    init_frame w' = init_frame w.
Proof.
  intros (Hwa & Hch & Hinit & (cs & Hc & Hcs) & Hsz) Hi Hready.
  unfold device_ready in Hready.
  unfold initDevice, driver_profile, relay_of, driver_context.
  destruct (cu_GetDevice drv (Z.of_nat i)) as [dev e1].
  destruct (cu_MakeContext drv dev) as [ctx e2].
  destruct (cu_Attributes drv dev) as [attrs e3].
  destruct (cu_MemInfo drv (Z.of_nat i)) as [[free total] e4].
  destruct Hready as (-> & -> & -> & -> & Hlen).
  unfold slices_sized in *.
  open_world w. subst.
  unfold store, updateContext, contextAt, go, bind, modifyMD, getMD, lift, ret.
  do 8 (destruct attrs as [|? attrs]; [cbn in Hlen; lia|]).
  unfold index.
  change (Z.to_nat 0) with 0%nat. change (Z.to_nat 1) with 1%nat.
  change (Z.to_nat 2) with 2%nat. change (Z.to_nat 3) with 3%nat.
  change (Z.to_nat 4) with 4%nat. change (Z.to_nat 5) with 5%nat.
  change (Z.to_nat 6) with 6%nat. change (Z.to_nat 7) with 7%nat.
  destruct Hsz as (? & ? & ? & ? & ? & ? & ? & ? & ? & ? & ? & ?).
  cbn.
  repeat (rewrite assign_of_nat by lia; cbn).
  destruct (Z.ltb_spec (Z.of_nat i) 0) as [?|_]; [lia|].
  rewrite Nat2Z.id, list_lookup_insert_eq by lia. cbn.
  eexists. split; [reflexivity|]. cbn. unfold looping, slices_sized; cbn.
  rewrite !length_insert.
  split; [|split; [done|split; [done|split; [|split; [|split]]]]].
  - repeat split; try done; try lia.
    eexists. split; [reflexivity|]. by rewrite length_insert.
  - unfold profile_at; cbn. by rewrite !list_lookup_insert_eq by lia.
  - unfold context_at; cbn. by rewrite list_lookup_insert_eq by lia.
  - intros j Hj. unfold profile_at, context_at; cbn. by rewrite !list_lookup_insert_ne.
  - reflexivity.
Qed.

Lemma initDevice_fails_full (drv : cuDriver) (w : World) (n ch i : nat) :
  looping n ch w -> (i < n)%nat -> device_fails drv (Z.of_nat i) ->
  exists w', initDevice drv (Z.of_nat i) w = Ret (false, w') /\
    (forall j, j <> i -> profile_at (md w') j = profile_at (md w) j) /\
    arena (md w') = arena (md w) /\ hasWork (md w') = hasWork (md w) /\
    c (md w') = None.
Proof.
  intros (Hwa & Hch & Hinit & (cs & Hc & Hcs) & Hsz) Hi Hfail.
  pose proof (lookup_lt_Some _ _ _ Hch) as Hlt.
  unfold device_fails in Hfail. unfold initDevice.
  destruct (cu_GetDevice drv (Z.of_nat i)) as [dev e1].
  destruct (cu_MakeContext drv dev) as [ctx e2].
  destruct (cu_Attributes drv dev) as [attrs e3].
  destruct (cu_MemInfo drv (Z.of_nat i)) as [[free total] e4].
  unfold slices_sized in *.
  open_world w. subst.
  unfold initFail, store, bind, cudaLogf, modifyMD, getMD, closeChan, lift, ret.
  destruct e1 as [e1|].
  { cbn. rewrite Hch. cbn. eexists. split; [reflexivity|]. done. }
  destruct e2 as [e2|].
  { destruct e2; [|destruct e4|]; cbn; rewrite Hch; cbn; (eexists; split; [reflexivity|]);
    done. }
  destruct e3 as [e3|].
  { cbn. rewrite Hch. cbn. eexists. split; [reflexivity|]. done. }
  destruct Hfail as [?|[[_ ?]|[(_ & _ & ?)|(_ & _ & _ & Hlen & He4)]]]; try done.
  destruct e4 as [e4|]; [|done].
  do 8 (destruct attrs as [|? attrs]; [cbn in Hlen; lia|]).
  change (Z.to_nat 0) with 0%nat. change (Z.to_nat 1) with 1%nat.
  change (Z.to_nat 2) with 2%nat. change (Z.to_nat 3) with 3%nat.
  change (Z.to_nat 4) with 4%nat. change (Z.to_nat 5) with 5%nat.
  change (Z.to_nat 6) with 6%nat. change (Z.to_nat 7) with 7%nat.
  destruct Hsz as (? & ? & ? & ? & ? & ? & ? & ? & ? & ? & ? & ?).
  cbn.
  repeat (rewrite assign_of_nat by lia; cbn).
  rewrite Hch. cbn. eexists. split; [reflexivity|]. cbn.
  split; [|done].
  intros j Hj. unfold profile_at; cbn. by rewrite !list_lookup_insert_ne.
Qed.

Lemma initLoop_ready_full (drv : cuDriver) (n ch : nat) (rest : list nat) (j : nat) :
  forall (a : nat) (w : World),
  looping n ch w -> (a + j <= n)%nat ->
  (forall i, (a <= i < a + j)%nat -> device_ready drv (Z.of_nat i)) ->
  exists w', initLoop drv (seq a j ++ rest) w = initLoop drv rest w' /\
    looping n ch w' /\ chans w' = chans w /\
    goroutines w' = goroutines w ++ (relay_of drv <$> seq a j) /\
    (forall i, (a <= i < a + j)%nat ->
       profile_at (md w') i = driver_profile drv (Z.of_nat i) /\
       context_at (md w') i = Some (Some (driver_context drv (Z.of_nat i)))) /\
    (forall i, (i < a \/ a + j <= i)%nat ->
       profile_at (md w') i = profile_at (md w) i /\
       context_at (md w') i = context_at (md w) i) /\
    init_frame w' = init_frame w.
Proof.
  induction j as [|j IH]; intros a w Hloop Hle Hready.
  - exists w. cbn [seq app fmap list_fmap]. rewrite app_nil_r.
    split; [done|]. split; [done|]. split; [done|]. split; [done|].
    split; [intros i Hi; lia|done].
  - destruct (initDevice_ready_full drv w n ch a Hloop ltac:(lia) (Hready a ltac:(lia)))
      as (w1 & Hrun1 & Hloop1 & Hch1 & Hgo1 & Hat1 & Hctx1 & Hoff1 & Hfr1).
    destruct (IH (S a) w1 Hloop1 ltac:(lia))
      as (w' & Hrun & Hloop' & Hch' & Hgo' & Hin' & Hout' & Hfr').
    { intros i Hi. apply Hready. lia. }
    exists w'. split.
    { cbn [seq app initLoop]. unfold bind at 1. rewrite Hrun1. exact Hrun. }
    split; [done|]. split; [congruence|]. split.
    { rewrite Hgo', Hgo1. cbn [seq fmap list_fmap]. by rewrite <- app_assoc. }
    split; [|split; [|congruence]].
    + intros i Hi. destruct (decide (i = a)) as [->|Hne].
      * destruct (Hout' a ltac:(lia)) as [-> ->]. done.
      * apply Hin'. lia.
    + intros i Hi. destruct (Hout' i ltac:(lia)) as [-> ->]. apply Hoff1. lia.
Qed.

(** A run of [init] in which every device can be set up. *)
Lemma init_all_ready (drv : cuDriver) (w : World) (n : nat) :
  initialzed (md w) = false ->
  cu_NumDevices drv = (Z.of_nat n, None) ->
  n <> 0%nat ->
  (forall i, (i < n)%nat -> device_ready drv (Z.of_nat i)) ->
  exists w', init drv w = Ret (tt, w') /\ ready_after drv n w w'.
Proof.
  intros Hinit Hnum Hn Hready.
  destruct (init_enters_loop drv w n Hinit Hnum Hn)
    as (w0 & Hloop0 & Hch0 & Hgo0 & Hfr0 & Hblank & _ & Hdone).
  destruct (initLoop_ready_full drv n (length (chans w)) [] n 0%nat w0 Hloop0 ltac:(lia))
    as (w1 & Hrun1 & Hloop1 & Hch1 & Hgo1 & Hin1 & _ & Hfr1).
  { intros i Hi. apply Hready. lia. }
  rewrite app_nil_r in Hrun1. cbn [initLoop] in Hrun1.
  destruct Hloop1 as (Hwa1 & Hopen1 & Hinit1 & (cs & Hc1 & Hlen1) & Hsz1).
  destruct (Hin1 0%nat ltac:(lia)) as [_ Hctx0].
  unfold context_at in Hctx0. rewrite Hc1 in Hctx0.
  exists (init_done w1 (driver_context drv 0)). split.
  { apply (Hdone w1 cs); [by rewrite Hrun1|done|done]. }
  rewrite Hfr0 in Hfr1. unfold init_frame in Hfr1.
  injection Hfr1 as Hb Hhw Hbl Hm Hf Hq Hlg Hcur Hlib.
  unfold ready_after, init_done, context_at, profile_at, slices_sized in *.
  destruct w1 as [m1 ? ? ? ? ? ?]. destruct m1. cbn in *. subst.
  split; [done|]. split; [done|]. split; [exact Hch0|]. split; [eauto|].
  split; [intros i Hi; apply Hin1; lia|]. split; [done|].
  split; [intros i Hi; apply Hin1; lia|]. split; [done|].
  split; [done|]. split; [done|]. split; [by rewrite Hgo0, <- app_assoc|].
  done.
Qed.
End RegistryRuns.

(** ** The registry lifecycle: outcomes *)

Section RegistryOutcomes.
Context `{Ext : Externals}.

(** X14. When the driver cannot count the devices, or counts none, [init]
    returns having written one log line and nothing else: no channel is
    made and the registry stays uninitialised. A negative count panics in
    the first [make] of a slice. *)
Theorem init_without_devices (drv : cuDriver) (w : World) :
  initialzed (md w) = false ->
  (forall n e, cu_NumDevices drv = (n, Some e) ->
     init drv w = Ret (tt, set_logged (logged w ++ [LogNumDevicesFailed e]) w)) /\
  (cu_NumDevices drv = (0, None) ->
     init drv w = Ret (tt, set_logged (logged w ++ [LogNoDevices]) w)) /\
  (forall n, n < 0 -> cu_NumDevices drv = (n, None) ->
     init drv w = Panic NegativeLen).
Proof.
  intros Hinit. unfold init, bind, getMD. rewrite Hinit.
  split; [|split].
  - intros n e ->. reflexivity.
  - intros ->. reflexivity.
  - intros n Hn ->. destruct (Z.eqb_spec n 0) as [?|_]; [lia|].
    unfold makeChan, modifyMD, lift, make_slice.
    destruct (Z.ltb_spec n 0) as [_|?]; [|lia]. reflexivity.
Qed.

Lemma HasFunc_empty (x : ExternMetadata) (name : string) :
  f x = Some ∅ -> HasFunc x name = false.
Proof.
  intros Hf. unfold HasFunc. rewrite Hf. apply bool_decide_eq_false_2.
  rewrite lookup_empty. by intros [? ?].
Qed.

(** X15. When every device can be set up, [init] over [n >= 1] devices
    returns with the registry initialised: [n] contexts, one per device in
    order, the profile of every device as the driver reported it, empty
    arena maps, no flag set, the shared channel open, one relay per device
    followed by the BLAS relay, device 0 current, empty module and function
    tables (so [HasFunc] is false for every name); a later [init] is a
    no-op whatever the driver answers. *)
Theorem init_sets_up_all (drv : cuDriver) (w : World) (n : nat) :
  initialzed (md w) = false ->
  cu_NumDevices drv = (Z.of_nat n, None) ->
  n <> 0%nat ->
  (forall i, (i < n)%nat -> device_ready drv (Z.of_nat i)) ->
  exists w',
    init drv w = Ret (tt, w') /\
    ready_after drv n w w' /\
    (forall name, HasFunc (md w') name = false) /\
    (forall drv', init drv' w' = Ret (tt, w')).
Proof.
  intros Hinit Hnum Hn Hready.
  destruct (init_all_ready drv w n Hinit Hnum Hn Hready) as (w' & Hrun & Hr).
  exists w'. split; [done|]. split; [done|].
  destruct Hr as (Hdone & _ & _ & _ & _ & _ & _ & _ & _ & Hf & _). split.
  - intros name. by apply HasFunc_empty.
  - intros drv'. unfold init, bind, getMD. by rewrite Hdone.
Qed.

(** X16. Right after a successful [init] nothing is pending: [DoWork]
    returns [nil] and changes nothing (the BLAS flag being clear before). *)
Theorem DoWork_after_init (drv : cuDriver) (w : World) (n : nat) :
  initialzed (md w) = false ->
  cu_NumDevices drv = (Z.of_nat n, None) ->
  n <> 0%nat ->
  (forall i, (i < n)%nat -> device_ready drv (Z.of_nat i)) ->
  blasHasWork (md w) = false ->
  exists w', init drv w = Ret (tt, w') /\ DoWork w' = Ret (None, w').
Proof.
  intros Hinit Hnum Hn Hready Hblas.
  destruct (init_all_ready drv w n Hinit Hnum Hn Hready) as (w' & Hrun & Hr).
  exists w'. split; [done|].
  destruct Hr as (_ & _ & _ & _ & _ & _ & _ & Hhw & _ & _ & _ & _ & _ & Hbl & _).
  unfold DoWork, bind, getMD.
  rewrite (doWorkLoop_idle _ 0 w').
  - by rewrite Hbl, Hblas.
  - intros i Hi. rewrite Hhw in *. rewrite length_replicate in Hi.
    apply lookup_replicate_2. lia.
Qed.

Lemma ready_profile (drv : cuDriver) (w w' : World) (n i : nat) :
  ready_after drv n w w' -> (i < n)%nat ->
  mtpb (md w') !! i = driver_attrs drv (Z.of_nat i) !! 1%nat /\
  mgdx (md w') !! i = driver_attrs drv (Z.of_nat i) !! 2%nat /\
  mgdy (md w') !! i = driver_attrs drv (Z.of_nat i) !! 3%nat /\
  mgdz (md w') !! i = driver_attrs drv (Z.of_nat i) !! 4%nat /\
  arena (md w') !! i = Some (Some ∅).
Proof.
  intros (_ & _ & _ & _ & _ & _ & Hprof & _) Hi. specialize (Hprof i Hi).
  unfold profile_at, driver_profile, driver_attrs in *.
  destruct (cu_GetDevice drv (Z.of_nat i)) as [dev e1].
  destruct (cu_Attributes drv dev) as [attrs e3].
  destruct (cu_MemInfo drv (Z.of_nat i)) as [[free total] e4].
  cbn. by simplify_eq.
Qed.

(** X17. After a successful [init], [ElemGridSize] on device [i] computes
    with the limits the driver reported for that device: attributes 1 to 4
    of the eight read by [init]. *)
Theorem ElemGridSize_after_init (drv : cuDriver) (w : World) (n i : nat)
    (mt gx gy gz : Z) :
  initialzed (md w) = false ->
  cu_NumDevices drv = (Z.of_nat n, None) ->
  (forall j, (j < n)%nat -> device_ready drv (Z.of_nat j)) ->
  (i < n)%nat ->
  driver_attrs drv (Z.of_nat i) !! 1%nat = Some mt ->
  driver_attrs drv (Z.of_nat i) !! 2%nat = Some gx ->
  driver_attrs drv (Z.of_nat i) !! 3%nat = Some gy ->
  driver_attrs drv (Z.of_nat i) !! 4%nat = Some gz ->
  exists w', init drv w = Ret (tt, w') /\
    forall k, ElemGridSize (md w') k (Z.of_nat i) = elemGridSwitch k mt gx gy gz.
Proof.
  intros Hinit Hnum Hready Hi Hmt Hgx Hgy Hgz.
  destruct (init_all_ready drv w n Hinit Hnum ltac:(lia) Hready) as (w' & Hrun & Hr).
  exists w'. split; [done|]. intros k.
  destruct (ready_profile drv w w' n i Hr Hi) as (H1 & H2 & H3 & H4 & _).
  apply ElemGridSize_switch. unfold has_profile. by rewrite H1, H2, H3, H4.
Qed.

(** X18. After a successful [init] the arena is consistent and empty:
    [Get] reports "not found" for every non-negative device and every size
    without changing anything, and [Put] on each of the [n] devices returns
    having created the pool of its pair. *)
Theorem arena_after_init (drv : cuDriver) (w : World) (n : nat) :
  initialzed (md w) = false ->
  cu_NumDevices drv = (Z.of_nat n, None) ->
  n <> 0%nat ->
  (forall i, (i < n)%nat -> device_ready drv (Z.of_nat i)) ->
  exists w', init drv w = Ret (tt, w') /\
    arena_wf w' /\
    (forall d s, 0 <= d -> Get d s w' = Ret (notFound, w')) /\
    (forall d blk s, (d < n)%nat ->
       exists w1, Put (Z.of_nat d) blk s w' = Ret (tt, w1) /\
                  pool_at w1 d s = Some (length (queues w))).
Proof.
  intros Hinit Hnum Hn Hready.
  destruct (init_all_ready drv w n Hinit Hnum Hn Hready) as (w' & Hrun & Hr).
  exists w'. split; [done|].
  assert (Hlen : length (arena (md w')) = n).
  { destruct Hr as (_ & _ & _ & _ & _ & Hsz & _).
    by destruct Hsz as (_ & _ & _ & _ & _ & _ & _ & _ & _ & _ & ? & _). }
  assert (Hmaps : forall i, (i < n)%nat -> arena (md w') !! i = Some (Some ∅)).
  { intros i Hi. by destruct (ready_profile drv w w' n i Hr Hi) as (_ & _ & _ & _ & ?). }
  assert (Hq : queues w' = queues w).
  { by destruct Hr as (_ & _ & _ & _ & _ & _ & _ & _ & _ & _ & _ & _ & _ & _ & ? & _). }
  split; [|split].
  - apply arena_wf_no_pools. intros d s. unfold pool_at.
    destruct (decide (d < n)%nat) as [Hd|Hd].
    + rewrite (Hmaps d Hd). apply lookup_empty.
    + rewrite lookup_ge_None_2; [done|lia].
  - intros d s Hd. unfold Get, bind, getMD, lift, ret.
    rewrite Z.geb_leb. destruct (Z.leb_spec (len (arena (md w'))) d) as [|Hin]; [done|].
    unfold len in Hin. rewrite <- (Z2Nat.id d Hd).
    rewrite (index_of_nat _ _ _ (Hmaps (Z.to_nat d) ltac:(lia))). cbn.
    by rewrite lookup_empty.
  - intros d blk s Hd.
    destruct (Put_fresh w' d s blk ∅ (Hmaps d Hd) (lookup_empty _)) as (w1 & Hput & Ha & _).
    exists w1. split; [done|]. unfold pool_at. rewrite Ha.
    rewrite list_lookup_insert_eq by lia. rewrite lookup_insert_eq. by rewrite Hq.
Qed.

(** X19. After [init] fails at device [k], the devices from [k] on have no
    arena map, so that [Put] on them panics, the devices after [k] have
    zeroed limits, so that [ElemGridSize] on them divides by zero, and no
    flag is set. *)
Theorem init_failure_leaves_rest_blank (drv : cuDriver) (w : World) (n k : nat) :
  initialzed (md w) = false ->
  cu_NumDevices drv = (Z.of_nat n, None) ->
  (k < n)%nat ->
  (forall i, (i < k)%nat -> device_ready drv (Z.of_nat i)) ->
  device_fails drv (Z.of_nat k) ->
  exists w',
    init drv w = Ret (tt, w') /\
    hasWork (md w') = replicate n false /\
    (forall j, (k <= j < n)%nat ->
       arena (md w') !! j = Some None /\
       forall blk s, Put (Z.of_nat j) blk s w' = Panic NilMapAssign) /\
    (forall j, (k < j < n)%nat ->
       profile_at (md w') j = blank_profile /\
       forall nn, ElemGridSize (md w') nn (Z.of_nat j) = Panic DivideByZero).
Proof.
  intros Hinit Hnum Hk Hready Hfail.
  destruct (init_enters_loop drv w n Hinit Hnum ltac:(lia))
    as (w0 & Hloop0 & Hch0 & Hgo0 & Hfr0 & Hblank & Hstop & _).
  destruct (initLoop_ready_full drv n (length (chans w)) (k :: seq (S k) (n - S k)) k 0%nat
              w0 Hloop0 ltac:(lia))
    as (w1 & Hrun1 & Hloop1 & Hch1 & Hgo1 & _ & Hout1 & Hfr1).
  { intros i Hi. apply Hready. lia. }
  destruct (initDevice_fails_full drv w1 n (length (chans w)) k Hloop1 Hk Hfail)
    as (w' & Hrunk & Hoff & Har & Hhw & Hc).
  assert (Hloop : initLoop drv (seq 0 n) w0 = Ret (false, w')).
  { replace n with (k + S (n - S k))%nat at 1 by lia.
    rewrite seq_app. cbn [seq Nat.add]. rewrite Hrun1.
    cbn [initLoop]. unfold bind at 1. rewrite Hrunk. done. }
  exists w'. split; [by apply Hstop|].
  assert (Hflags : hasWork (md w') = replicate n false).
  { rewrite Hhw. rewrite Hfr0 in Hfr1. unfold init_frame in Hfr1. congruence. }
  assert (Hmaps : forall j, (k <= j < n)%nat -> arena (md w') !! j = Some None).
  { intros j Hj. rewrite Har.
    destruct (Hout1 j ltac:(lia)) as [Hp _]. destruct (Hblank j ltac:(lia)) as [Hb _].
    rewrite Hb in Hp. unfold profile_at, blank_profile in Hp. congruence. }
  split; [done|]. split.
  - intros j Hj. split; [by apply Hmaps|]. intros blk s.
    unfold Put, bind, getMD, lift, ret.
    by rewrite (geb_in_range _ _ _ (Hmaps j Hj)), (index_of_nat _ _ _ (Hmaps j Hj)).
  - intros j Hj.
    assert (Hp : profile_at (md w') j = blank_profile).
    { rewrite Hoff by lia. destruct (Hout1 j ltac:(lia)) as [-> _]. apply Hblank. lia. }
    split; [done|]. intros nn.
    unfold profile_at, blank_profile in Hp.
    rewrite (ElemGridSize_switch (md w') nn j 0 0 0 0); [reflexivity|].
    unfold has_profile. by simplify_eq.
Qed.

(** X20. [initFail] returns whenever the shared channel, if any, is open:
    it sets [c], [m], [f] and [workAvailable] to nil, closes that channel
    and touches neither the per-device slices, nor the flags, nor
    [initialzed], nor the goroutines. A second [initFail] finds no channel
    to close and changes only the log. *)
Theorem initFail_resets_once (w : World) :
  (forall ch, workAvailable (md w) = Some ch -> chans w !! ch = Some ChanOpen) ->
  exists w' w'',
    initFail w = Ret (tt, w') /\
    c (md w') = None /\ m (md w') = None /\ f (md w') = None /\
    workAvailable (md w') = None /\
    (forall ch, workAvailable (md w) = Some ch -> chans w' = <[ch := ChanClosed]> (chans w)) /\
    (workAvailable (md w) = None -> chans w' = chans w) /\
    kept_by_initFail w' = kept_by_initFail w /\
    initFail w' = Ret (tt, w'') /\
    md w'' = md w' /\ chans w'' = chans w' /\ kept_by_initFail w'' = kept_by_initFail w'.
Proof.
  intros Hopen.
  destruct w as [m0 qs chs gs lg cur lib]. destruct m0 as
    [? ? ? ? ? ? ? ? ? ? ? ? ? ? wa ? ? ? ?]. cbn in *.
  unfold initFail, bind, cudaLogf, modifyMD, getMD, closeChan, ret.
  destruct wa as [ch|]; cbn.
  - rewrite (Hopen ch eq_refl). cbn. eexists _, _. split; [reflexivity|]. cbn.
    repeat split; try done. by intros ? [= <-].
  - eexists _, _. split; [reflexivity|]. cbn. repeat split; done.
Qed.

(** X21. [Cleanup] on a registry without contexts returns and changes
    nothing; on a slice of contexts it cleans each one once, in place, and
    touches nothing else of the receiver. *)
Theorem Cleanup_cleans_contexts (cleanup : BatchedContext -> BatchedContext) (w : World) :
  (c (md w) = None -> Cleanup cleanup w = Ret (tt, w)) /\
  (forall ctxs, c (md w) = Some (Some <$> ctxs) ->
     Cleanup cleanup w
     = Ret (tt, set_md (set_c (Some (Some <$> (cleanup <$> ctxs))) (md w)) w)).
Proof.
  split.
  - intros Hc. unfold Cleanup, bind, getMD. by rewrite Hc.
  - intros ctxs Hc. unfold Cleanup, bind, getMD, lift, modifyMD. rewrite Hc.
    assert (Hloop : cleanupLoop cleanup (Some <$> ctxs) = Ret (Some <$> (cleanup <$> ctxs))).
    { clear Hc. induction ctxs as [|ctx ctxs IH]; [done|]. cbn. by rewrite IH. }
    by rewrite Hloop.
Qed.
End RegistryOutcomes.

Section RegistryOutcomesExamples.
Local Existing Instance simExternals.

Lemma sim_devices_ready (n : nat) (i : nat) :
  device_ready (simDriver (Z.of_nat n) (-1)) (Z.of_nat i).
Proof.
  unfold device_ready. cbn.
  destruct (Z.eqb_spec (Z.of_nat i) (-1)) as [?|_]; [lia|].
  repeat split; lia.
Qed.

Lemma init_without_devices_witness :
  init (simDriver 0 (-1)) emptyWorld
  = Ret (tt, set_logged [LogNoDevices] emptyWorld).
Proof.
  destruct (init_without_devices (simDriver 0 (-1)) emptyWorld eq_refl)
    as (_ & Hzero & _).
  exact (Hzero eq_refl).
Defined.

Lemma init_sets_up_all_witness :
  exists w',
    init (simDriver 2 (-1)) emptyWorld = Ret (tt, w') /\
    initialzed (md w') = true /\
    mtpb (md w') = [1024; 1024] /\
    length (goroutines w') = 3%nat /\
    HasFunc (md w') "elembinop" = false.
Proof.
  destruct (init_sets_up_all (simDriver 2 (-1)) emptyWorld 2 eq_refl eq_refl
              ltac:(lia) (fun i _ => sim_devices_ready 2 i))
    as (w' & Hrun & _ & Hfunc & _).
  exists w'. split; [exact Hrun|].
  assert (Hw : Ret (tt, w') = init (simDriver 2 (-1)) emptyWorld)
    by (symmetry; exact Hrun).
  vm_compute in Hw. injection Hw as ->.
  split; [reflexivity|]. split; [reflexivity|]. split; [reflexivity|]. apply Hfunc.
Defined.

Lemma DoWork_after_init_witness :
  exists w',
    init (simDriver 2 (-1)) emptyWorld = Ret (tt, w') /\ DoWork w' = Ret (None, w').
Proof.
  exact (DoWork_after_init (simDriver 2 (-1)) emptyWorld 2 eq_refl eq_refl
           ltac:(lia) (fun i _ => sim_devices_ready 2 i) eq_refl).
Defined.

Lemma ElemGridSize_after_init_witness :
  exists w',
    init (simDriver 2 (-1)) emptyWorld = Ret (tt, w') /\
    ElemGridSize (md w') 3000 1 = Ret (mkGridSize 3 1 1 1024 1 1).
Proof.
  destruct (ElemGridSize_after_init (simDriver 2 (-1)) emptyWorld 2 1
              1024 65535 65535 65535 eq_refl eq_refl
              (fun i _ => sim_devices_ready 2 i) ltac:(lia)
              eq_refl eq_refl eq_refl eq_refl) as (w' & Hrun & Hgrid).
  exists w'. split; [exact Hrun|]. exact (Hgrid 3000).
Defined.

Lemma arena_after_init_witness :
  exists w',
    init (simDriver 2 (-1)) emptyWorld = Ret (tt, w') /\
    Get 1 4096 w' = Ret (notFound, w') /\
    exists w1, Put 1 (block 700) 4096 w' = Ret (tt, w1).
Proof.
  destruct (arena_after_init (simDriver 2 (-1)) emptyWorld 2 eq_refl eq_refl
              ltac:(lia) (fun i _ => sim_devices_ready 2 i))
    as (w' & Hrun & _ & Hget & Hput).
  exists w'. split; [exact Hrun|]. split; [apply Hget; lia|].
  destruct (Hput 1%nat (block 700) 4096%N ltac:(lia)) as (w1 & Hw1 & _).
  exists w1. exact Hw1.
Defined.

(** Three devices; the context of device 1 cannot be made. *)
Lemma init_failure_leaves_rest_blank_witness :
  exists w',
    init (simDriver 3 1) emptyWorld = Ret (tt, w') /\
    Put 1 (block 700) 4096 w' = Panic NilMapAssign /\
    ElemGridSize (md w') 3000 2 = Panic DivideByZero.
Proof.
  destruct (init_failure_leaves_rest_blank (simDriver 3 1) emptyWorld 3 1)
    as (w' & Hrun & _ & Hmaps & Hblank).
  - reflexivity.
  - reflexivity.
  - lia.
  - intros i Hi. assert (i = 0%nat) as -> by lia.
    unfold device_ready; cbn; repeat split; lia.
  - unfold device_fails. cbn. right. left. split; [reflexivity|discriminate].
  - exists w'. split; [exact Hrun|]. split.
    + destruct (Hmaps 1%nat ltac:(lia)) as [_ Hput]. exact (Hput (block 700) 4096%N).
    + destruct (Hblank 2%nat ltac:(lia)) as [_ Hgrid]. exact (Hgrid 3000).
Defined.

(** A registry whose shared channel is open. *)
Lemma initFail_resets_once_witness :
  exists w' w'',
    initFail (set_chans [ChanOpen]
                (set_md (set_workAvailable (Some 0%nat) zeroExternMetadata) emptyWorld))
    = Ret (tt, w') /\
    c (md w') = None /\ workAvailable (md w') = None /\ chans w' = [ChanClosed] /\
    initFail w' = Ret (tt, w'') /\ md w'' = md w' /\ chans w'' = chans w'.
Proof.
  destruct (initFail_resets_once
              (set_chans [ChanOpen]
                 (set_md (set_workAvailable (Some 0%nat) zeroExternMetadata) emptyWorld)))
    as (w' & w'' & Hrun & Hc & _ & _ & Hwa & Hclosed & _ & _ & Hagain & Hmd & Hch & _).
  - intros ch [= <-]. reflexivity.
  - exists w', w''. split; [exact Hrun|]. split; [exact Hc|]. split; [exact Hwa|].
    split; [exact (Hclosed 0%nat eq_refl)|].
    split; [exact Hagain|]. split; [exact Hmd|exact Hch].
Defined.

(** Two contexts with calls queued; the clean-up drops the queues. *)
Lemma Cleanup_cleans_contexts_witness :
  exists w',
    Cleanup (sim_flush : @BatchedContext simExternals -> @BatchedContext simExternals)
      (flushWorld [true; false] [queued 0 None; queued 1 None])
    = Ret (tt, w') /\
    c (md w') = Some [Some (mkSimContext 0 [] None); Some (mkSimContext 1 [] None)] /\
    hasWork (md w') = [true; false].
Proof.
  destruct (Cleanup_cleans_contexts
              (sim_flush : @BatchedContext simExternals -> @BatchedContext simExternals)
              (flushWorld [true; false] [queued 0 None; queued 1 None])) as [_ Hclean].
  eexists. split.
  - exact (Hclean [mkSimContext 0 [None] None; mkSimContext 1 [None] None] eq_refl).
  - split; reflexivity.
Defined.

End RegistryOutcomesExamples.

(** ** The work-signal relays: conservation *)

Section RelayFlow.

Lemma receivedBy_cons i e t :
  receivedBy i (e :: t) = ((if isSignalOf i e then 1 else 0) + receivedBy i t)%nat.
Proof.
  unfold receivedBy. rewrite filter_cons.
  destruct (isSignalOf i e); case_decide; try done.
Qed.

Lemma forwardedBy_cons i e t :
  forwardedBy i (e :: t) = ((if isDeliveryOf i e then 1 else 0) + forwardedBy i t)%nat.
Proof.
  unfold forwardedBy. rewrite filter_cons.
  destruct (isDeliveryOf i e); case_decide; try done.
Qed.

(** One step moves one signal of the relay it names, and no other. *)
Lemma hubStep_flow (h h' : Hub) (e : event) (i : nat) pc :
  hubStep h e = Some h' -> relayAt h !! i = Some pc ->
  exists pc', relayAt h' !! i = Some pc' /\
    ((if isSignalOf i e then 1 else 0) + in_flight pc
     = (if isDeliveryOf i e then 1 else 0) + in_flight pc')%nat /\
    (pc = Stopped -> relayOf e <> i /\ pc' = Stopped).
Proof.
  intros Hstep Hpc.
  pose proof (lookup_lt_Some _ _ _ Hpc) as Hlt.
  destruct (decide (relayOf e = i)) as [<-|Hne].
  - unfold hubStep in Hstep.
    destruct e as [j|j|j|j]; cbn [relayOf] in *; rewrite Hpc in Hstep;
      destruct pc; try done.
    + injection Hstep as <-. cbn. rewrite list_lookup_insert_eq by done.
      eexists. split; [done|]. rewrite Nat.eqb_refl. done.
    + injection Hstep as <-. cbn. rewrite list_lookup_insert_eq by done.
      eexists. split; [done|]. done.
    + destruct (j <? length (hubHasWork h))%nat; [|done].
      injection Hstep as <-. cbn. rewrite list_lookup_insert_eq by done.
      eexists. split; [done|]. done.
    + injection Hstep as <-. cbn. rewrite list_lookup_insert_eq by done.
      eexists. split; [done|]. rewrite Nat.eqb_refl. done.
  - destruct (hubStep_inv _ _ _ Hstep) as (_ & _ & _ & _ & Hother & _).
    exists pc. rewrite (Hother i) by done. split; [done|].
    assert (isSignalOf i e = false) as ->.
    { destruct e; try done. cbn in *. apply Nat.eqb_neq. congruence. }
    assert (isDeliveryOf i e = false) as ->.
    { destruct e; try done. cbn in *. apply Nat.eqb_neq. congruence. }
    split; [done|]. intros ->. done.
Qed.

Lemma hubRun_flow (t : list event) : forall (h h' : Hub) (i : nat) pc,
  hubRun h t = Some h' -> relayAt h !! i = Some pc ->
  exists pc', relayAt h' !! i = Some pc' /\
    (receivedBy i t + in_flight pc = forwardedBy i t + in_flight pc')%nat /\
    (pc = Stopped -> Forall (fun e => relayOf e <> i) t /\ pc' = Stopped).
Proof.
  induction t as [|e t IH]; intros h h' i pc Hrun Hpc; cbn in Hrun.
  - injection Hrun as <-. exists pc. split; [done|]. split; [done|].
    intros ->. split; [constructor|done].
  - destruct (hubStep h e) as [h1|] eqn:Hstep; [|done].
    destruct (hubStep_flow _ _ _ i pc Hstep Hpc) as (pc1 & Hpc1 & Hflow1 & Hstop1).
    destruct (IH _ _ i pc1 Hrun Hpc1) as (pc' & Hpc' & Hflow & Hstop).
    exists pc'. split; [done|]. rewrite receivedBy_cons, forwardedBy_cons. split; [lia|].
    intros ->. destruct (Hstop1 eq_refl) as [Hne ->].
    destruct (Hstop eq_refl) as [Hall ->]. split; [by constructor|done].
Qed.

(** X22. A relay neither loses nor invents signals: along any run from the
    state [init] leaves, each relay has forwarded as many signals as it has
    received, less the one it may hold between its receive and its send. *)
Theorem relay_conserves_signals (n : nat) (t : list event) (h' : Hub) (i : nat) :
  hubRun (hubStart n) t = Some h' -> (i < n)%nat ->
  exists pc', relayAt h' !! i = Some pc' /\
    receivedBy i t = (forwardedBy i t + in_flight pc')%nat /\
    (forwardedBy i t <= receivedBy i t <= forwardedBy i t + 1)%nat.
Proof.
  intros Hrun Hi.
  destruct (hubRun_flow t _ _ i AwaitSignal Hrun) as (pc' & Hpc' & Hflow & _).
  { cbn. by apply lookup_replicate_2. }
  exists pc'. split; [done|]. cbn in Hflow. split; [lia|]. destruct pc'; cbn in *; lia.
Qed.

Lemma hubRun_app (t1 t2 : list event) : forall (h : Hub),
  hubRun h (t1 ++ t2) = match hubRun h t1 with Some h1 => hubRun h1 t2 | None => None end.
Proof.
  induction t1 as [|e t1 IH]; intros h; [done|]. cbn.
  destruct (hubStep h e); [apply IH|done].
Qed.

(** X23. Closing the source of a relay ends its loop: after the step that
    sees the source closed the relay takes no step for the rest of the run
    and ends stopped. *)
Theorem closed_relay_stays_silent (h h' : Hub) (t1 t2 : list event) (i : nat) :
  hubRun h (t1 ++ SourceClosed i :: t2) = Some h' ->
  Forall (fun e => relayOf e <> i) t2 /\ relayAt h' !! i = Some Stopped.
Proof.
  rewrite hubRun_app. destruct (hubRun h t1) as [h1|]; [|done]. cbn [hubRun].
  destruct (hubStep h1 (SourceClosed i)) as [h2|] eqn:Hstep; [|done]. intros Hrun.
  assert (Hstopped : relayAt h2 !! i = Some Stopped).
  { unfold hubStep in Hstep. cbn in Hstep.
    destruct (relayAt h1 !! i) as [[]|] eqn:Hpc; try done.
    injection Hstep as <-. cbn. apply list_lookup_insert_eq. by eapply lookup_lt_Some. }
  destruct (hubRun_flow t2 _ _ i Stopped Hrun Hstopped) as (pc' & Hpc' & _ & Hstop).
  destruct (Hstop eq_refl) as [Hall ->]. done.
Qed.



Lemma relay_conserves_signals_witness :
  exists h',
    hubRun (hubStart 2)
      [SourceSignal 0; Mark 0; Deliver 0; SourceSignal 0; SourceSignal 1] = Some h' /\
    relayAt h' !! 0%nat = Some MarkWork /\
    receivedBy 0 [SourceSignal 0; Mark 0; Deliver 0; SourceSignal 0; SourceSignal 1]
    = (forwardedBy 0 [SourceSignal 0; Mark 0; Deliver 0; SourceSignal 0; SourceSignal 1]
       + 1)%nat.
Proof.
  eexists. split; [reflexivity|].
  destruct (relay_conserves_signals 2
              [SourceSignal 0; Mark 0; Deliver 0; SourceSignal 0; SourceSignal 1]
              _ 0 eq_refl ltac:(lia)) as (pc' & Hpc & Hflow & _).
  cbn in Hpc. injection Hpc as <-. split; [reflexivity|exact Hflow].
Defined.

Lemma closed_relay_stays_silent_witness :
  exists h',
    hubRun (hubStart 2) ([SourceSignal 1] ++ SourceClosed 0 :: [Mark 1; Deliver 1]) = Some h' /\
    relayAt h' !! 0%nat = Some Stopped.
Proof.
  eexists. split; [reflexivity|].
  destruct (closed_relay_stays_silent (hubStart 2) _ [SourceSignal 1] [Mark 1; Deliver 1] 0
              eq_refl) as [_ Hstopped].
  exact Hstopped.
Defined.


End RelayFlow.

(** ** The work-signal relays: the fan-in *)

Section FanInCount.

(** A step keeps the flag of a relay that stands at its send. *)
Lemma hubStep_marked (h h' : Hub) (e : event) (i : nat) :
  hubStep h e = Some h' ->
  (relayAt h !! i = Some Forward -> hubHasWork h !! i = Some true) ->
  relayAt h' !! i = Some Forward -> hubHasWork h' !! i = Some true.
Proof.
  intros Hstep Hinv Hfwd.
  destruct (hubStep_inv _ _ _ Hstep) as (_ & _ & _ & _ & Hother & Hkeep & Hmark & Horigin & _).
  destruct (decide (relayOf e = i)) as [<-|Hne].
  - rewrite (Horigin Hfwd) in Hmark. by destruct (Hmark _ eq_refl).
  - apply Hkeep, Hinv. by rewrite <- (Hother i).
Qed.

(** Along a run, a relay that stands at its send has set its flag. *)
Lemma hubRun_sends_marked (t : list event) : forall (h h' : Hub) (i : nat),
  hubRun h t = Some h' ->
  (relayAt h !! i = Some Forward -> hubHasWork h !! i = Some true) ->
  relayAt h' !! i = Some Forward -> hubHasWork h' !! i = Some true.
Proof.
  induction t as [|e t IH]; intros h h' i Hrun Hinv; cbn in Hrun.
  - by injection Hrun as <-.
  - destruct (hubStep h e) as [h1|] eqn:Hstep; [|done].
    apply (IH _ _ i Hrun). by apply (hubStep_marked h h1 e).
Qed.

(** C9. The fan-in preserves the count: from the state [init] leaves, along
    any interleaving of the relays in which each of the [n] relays has taken
    exactly one signal from its source and has forwarded it (it has sent
    exactly one signal or, which the loop makes the same, it holds none at
    the end), the consumer has received exactly [n] signals from the shared
    channel. Every send is made in a state in which the flag of the
    sender's device is already set, the relay having set it in the same
    turn of its loop, and the flags of all devices end set. *)
Theorem fan_in_preserves_count (n : nat) (t : list event) (h' : Hub) :
  hubRun (hubStart n) t = Some h' ->
  (forall i, (i < n)%nat ->
     receivedBy i t = 1%nat /\
     (forwardedBy i t = 1%nat \/
      exists pc, relayAt h' !! i = Some pc /\ in_flight pc = 0%nat)) ->
  yielded h' = n /\
  (forall i, (i < n)%nat ->
     forwardedBy i t = 1%nat /\
     exists pc, relayAt h' !! i = Some pc /\ in_flight pc = 0%nat) /\
  (forall t1 t2 i, t = t1 ++ Deliver i :: t2 ->
     exists h1, hubRun (hubStart n) t1 = Some h1 /\
       relayAt h1 !! i = Some Forward /\ hubHasWork h1 !! i = Some true) /\
  marked_before_delivery t /\
  (forall i, (i < n)%nat -> hubHasWork h' !! i = Some true).
Proof.
  intros Hrun Hone.
  destruct (hubRun_yielded t _ _ Hrun) as [Hy Hbound].
  cbn in Hy, Hbound. rewrite length_replicate in Hbound.
  assert (Hdone : forall i, (i < n)%nat ->
     forwardedBy i t = 1%nat /\
     exists pc, relayAt h' !! i = Some pc /\ in_flight pc = 0%nat).
  { intros i Hi. destruct (Hone i Hi) as (Hrecv & Hsent).
    destruct (hubRun_flow t _ _ i AwaitSignal Hrun) as (pc' & Hpc' & Hflow & _).
    { cbn. by apply lookup_replicate_2. }
    cbn in Hflow. destruct Hsent as [Hsent|(pc & Hpc & Hnone)].
    - split; [done|]. exists pc'. split; [done|]. lia.
    - rewrite Hpc in Hpc'. injection Hpc' as <-.
      split; [lia|]. exists pc. done. }
  assert (Hfwd : forall i, (i < n)%nat -> forwardedBy i t = 1%nat)
    by (intros i Hi; apply Hdone, Hi).
  assert (Hsend : forall t1 t2 i, t = t1 ++ Deliver i :: t2 ->
     exists h1, hubRun (hubStart n) t1 = Some h1 /\
       relayAt h1 !! i = Some Forward /\ hubHasWork h1 !! i = Some true).
  { intros t1 t2 i ->. rewrite hubRun_app in Hrun.
    destruct (hubRun (hubStart n) t1) as [h1|] eqn:Hrun1; [|done].
    exists h1. split; [done|]. cbn [hubRun] in Hrun.
    destruct (hubStep h1 (Deliver i)) as [h2|] eqn:Hstep; [|done].
    destruct (hubStep_inv _ _ _ Hstep) as (_ & _ & _ & _ & _ & _ & _ & _ & Hdel).
    pose proof (Hdel i eq_refl) as Hpc. split; [done|].
    apply (hubRun_sends_marked t1 _ _ i Hrun1); [|done].
    cbn. intros Hstart. apply lookup_replicate in Hstart as [? _]. done. }
  assert (Horder : marked_before_delivery t).
  { intros t1 t2 i Hsplit.
    destruct (hubRun_order t _ _ Hrun t1 t2 i Hsplit) as [?|[Hpc _]]; [done|].
    cbn in Hpc. apply lookup_replicate in Hpc as [? _]. done. }
  split; [|split; [done|split; [done|split; [done|]]]].
  - rewrite Hy. by apply deliveries_by_relay.
  - intros i Hi. specialize (Hfwd i Hi). unfold forwardedBy in Hfwd.
    destruct (filter (fun e => isDeliveryOf i e = true) t) as [|e l] eqn:Hf; [done|].
    assert (He : e ∈ filter (fun e => isDeliveryOf i e = true) t)
      by (rewrite Hf; apply list_elem_of_here).
    apply list_elem_of_filter in He as [Hdel Hin].
    destruct e; try done. cbn in Hdel. apply Nat.eqb_eq in Hdel as <-.
    apply list_elem_of_split in Hin as (t1 & t2 & ->).
    destruct (Hsend t1 t2 i eq_refl) as (h1 & Hrun1 & _ & Hflag).
    rewrite hubRun_app, Hrun1 in Hrun.
    apply (hubRun_flags _ _ _ i Hrun). by left.
Qed.

(** Two devices; the signals are marked and delivered in opposite orders. *)
Lemma fan_in_preserves_count_witness :
  exists h',
    hubRun (hubStart 2)
      [SourceSignal 0; SourceSignal 1; Mark 1; Mark 0; Deliver 1; Deliver 0] = Some h' /\
    yielded h' = 2%nat /\ hubHasWork h' = [true; true] /\
    (exists h1,
       hubRun (hubStart 2) [SourceSignal 0; SourceSignal 1; Mark 1; Mark 0] = Some h1 /\
       hubHasWork h1 !! 1%nat = Some true).
Proof.
  eexists. split; [reflexivity|].
  destruct (fan_in_preserves_count 2
              [SourceSignal 0; SourceSignal 1; Mark 1; Mark 0; Deliver 1; Deliver 0]
              _ eq_refl) as (Hy & _ & Hsend & _ & _).
  - intros i Hi. destruct i as [|[|i]]; [| |lia].
    + split; [reflexivity|]. left. reflexivity.
    + split; [reflexivity|]. right. exists AwaitSignal. split; reflexivity.
  - split; [exact Hy|]. split; [reflexivity|].
    destruct (Hsend [SourceSignal 0; SourceSignal 1; Mark 1; Mark 0] [Deliver 0] 1%nat eq_refl)
      as (h1 & Hrun1 & _ & Hflag).
    exists h1. split; [exact Hrun1 | exact Hflag].
Defined.

End FanInCount.

(** ** The BLAS relay and the direct signal: theorems *)

Section FullFanIn.


Lemma held_insert (rs : list relayPC) (i : nat) (pc pc' : relayPC) :
  rs !! i = Some pc ->
  (held (<[i := pc']> rs) + in_flight pc = held rs + in_flight pc')%nat.
Proof.
  unfold held. revert i. induction rs as [|r rs IH]; intros i Hpc; [done|].
  destruct i as [|i].
  - injection Hpc as ->. cbn. lia.
  - specialize (IH i Hpc). cbn. rewrite <- !Nat.add_assoc. by f_equal.
Qed.

Lemma held_waiting (n : nat) : held (replicate n AwaitSignal) = 0%nat.
Proof. unfold held. induction n as [|n IH]; [done|]. cbn. by rewrite IH. Qed.

(** A step of a device relay takes a signal in, hands one to the consumer,
    or keeps the number of signals held. *)
Lemma hubStep_balance (h h' : Hub) (e : event) :
  hubStep h e = Some h' ->
  ((if isSignal e then 1 else 0) + yielded h + held (relayAt h)
   = yielded h' + held (relayAt h'))%nat.
Proof.
  unfold hubStep. intros Hstep.
  destruct e as [i|i|i|i]; cbn [relayOf isSignal] in *;
    destruct (relayAt h !! i) as [[]|] eqn:Hpc; try done.
  - injection Hstep as <-.
    pose proof (held_insert _ _ _ MarkWork Hpc) as Hh.
    cbn [relay_goto relayAt yielded in_flight] in *. lia.
  - injection Hstep as <-.
    pose proof (held_insert _ _ _ Stopped Hpc) as Hh.
    cbn [relay_goto relayAt yielded in_flight] in *. lia.
  - destruct (i <? length (hubHasWork h))%nat; [|done].
    injection Hstep as <-.
    pose proof (held_insert _ _ _ Forward Hpc) as Hh.
    cbn [relayAt yielded in_flight] in *. lia.
  - injection Hstep as <-.
    pose proof (held_insert _ _ _ AwaitSignal Hpc) as Hh.
    cbn [relayAt yielded in_flight] in *. lia.
Qed.

Lemma fullStep_balance (h h' : FullHub) (e : fullEvent) :
  fullStep h e = Some h' ->
  ((if enters e then 1 else 0) + yielded (deviceHub h) + heldFull h
   = yielded (deviceHub h') + heldFull h')%nat.
Proof.
  unfold fullStep, heldFull. intros Hstep.
  destruct e as [e| | | | |]; cbn [enters].
  - destruct (hubStep (deviceHub h) e) as [d|] eqn:Hd; [|by destruct (blasAt h)].
    assert (h' = mkFullHub d (blasAt h) (hubBlasHasWork h)) as ->
      by (destruct (blasAt h); congruence).
    pose proof (hubStep_balance _ _ _ Hd). cbn [deviceHub blasAt]. lia.
  - destruct (blasAt h) eqn:Hb; try done. injection Hstep as <-.
    cbn [deviceHub blasAt in_flight]. lia.
  - destruct (blasAt h) eqn:Hb; try done. injection Hstep as <-.
    cbn [deviceHub blasAt in_flight]. lia.
  - destruct (blasAt h) eqn:Hb; try done. injection Hstep as <-.
    cbn [deviceHub blasAt in_flight]. lia.
  - destruct (blasAt h) eqn:Hb; try done. injection Hstep as <-.
    cbn [deviceHub blasAt in_flight yield_one relayAt yielded]. lia.
  - assert (h' = mkFullHub (yield_one (deviceHub h)) (blasAt h) (hubBlasHasWork h)) as ->
      by (destruct (blasAt h); congruence).
    cbn [deviceHub blasAt in_flight yield_one relayAt yielded]. lia.
Qed.

Lemma fullRun_balance (t : list fullEvent) : forall (h h' : FullHub),
  fullRun h t = Some h' ->
  (length (filter (fun e => enters e = true) t) + yielded (deviceHub h) + heldFull h
   = yielded (deviceHub h') + heldFull h')%nat.
Proof.
  induction t as [|e t IH]; intros h h' Hrun; cbn in Hrun.
  - by injection Hrun as <-.
  - destruct (fullStep h e) as [h1|] eqn:Hstep; [|done].
    pose proof (fullStep_balance _ _ _ Hstep). pose proof (IH _ _ Hrun).
    rewrite filter_cons. destruct (enters e); case_decide; try done; cbn in *; lia.
Qed.

(** X25. With the BLAS relay and the direct [signal] taken in, no signal
    is lost or invented on its way to the consumer: along any run from the
    state [init] leaves, the signals taken from the device sources and the
    BLAS source, together with the sends of [signal], are those the consumer
    has received and those a relay holds between its receive and its send.
    When no relay holds one, the consumer has received as many as entered. *)
Theorem fan_in_counts_every_source (n : nat) (backend : bool) (t : list fullEvent)
    (h' : FullHub) :
  fullRun (fullStart n backend) t = Some h' ->
  length (filter (fun e => enters e = true) t)
  = (yielded (deviceHub h') + heldFull h')%nat /\
  (heldFull h' = 0%nat ->
     yielded (deviceHub h') = length (filter (fun e => enters e = true) t)).
Proof.
  intros Hrun.
  assert (Hcount : length (filter (fun e => enters e = true) t)
                   = (yielded (deviceHub h') + heldFull h')%nat).
  { rewrite <- (fullRun_balance _ _ _ Hrun).
    unfold heldFull, fullStart, hubStart. cbn [deviceHub blasAt relayAt yielded].
    rewrite held_waiting. destruct backend; cbn [in_flight]; lia. }
  split; [done|]. intros Hnone. lia.
Qed.




(** Two devices and the BLAS relay: four signals enter, three have reached
    the consumer and the relay of device 1 holds the fourth. *)
Lemma fan_in_counts_every_source_witness :
  exists h',
    fullRun (fullStart 2 true)
      [OfDevice (SourceSignal 0); BlasSignal; OfDevice (Mark 0); BlasMark;
       BlasDeliver; DirectSignal; OfDevice (SourceSignal 1); OfDevice (Deliver 0)]
    = Some h' /\
    yielded (deviceHub h') = 3%nat /\ heldFull h' = 1%nat /\
    length (filter (fun e => enters e = true)
      [OfDevice (SourceSignal 0); BlasSignal; OfDevice (Mark 0); BlasMark;
       BlasDeliver; DirectSignal; OfDevice (SourceSignal 1); OfDevice (Deliver 0)])
    = (3 + 1)%nat.
Proof.
  eexists. split; [reflexivity|]. split; [reflexivity|]. split; [reflexivity|].
  destruct (fan_in_counts_every_source 2 true
              [OfDevice (SourceSignal 0); BlasSignal; OfDevice (Mark 0); BlasMark;
               BlasDeliver; DirectSignal; OfDevice (SourceSignal 1); OfDevice (Deliver 0)]
              _ eq_refl) as [Hcount _].
  exact Hcount.
Defined.


End FullFanIn.

(** ** The kernel-source table: composition *)

Section StdLibCompose.
Context `{Ext : Externals}.

Lemma set_cudaStdLib_twice a a' (w : World) :
  set_cudaStdLib a (set_cudaStdLib a' w) = set_cudaStdLib a w.
Proof. by destruct w. Qed.

Lemma cudaStdLib_set a (w : World) : cudaStdLib (set_cudaStdLib a w) = a.
Proof. by destruct w. Qed.

(** X27. Registrations compose as updates of one table: registering a name
    again replaces its source (the last registration wins), and
    registrations of different names can be made in either order. *)
Theorem AddToStdLib_composes (w : World) (lib : gmap string string)
    (name name' d1 d2 : string) :
  cudaStdLib w = Some lib ->
  (AddToStdLib name d1 ;; AddToStdLib name d2) w = AddToStdLib name d2 w /\
  (name <> name' ->
     (AddToStdLib name d1 ;; AddToStdLib name' d2) w
     = (AddToStdLib name' d2 ;; AddToStdLib name d1) w).
Proof.
  intros Hlib. unfold bind, AddToStdLib. rewrite Hlib. cbn.
  rewrite !cudaStdLib_set. cbn. rewrite !set_cudaStdLib_twice. split.
  - by rewrite insert_insert_eq.
  - intros Hne. by rewrite insert_insert_ne.
Qed.

End StdLibCompose.

Section StdLibComposeExamples.
Local Existing Instance simExternals.

Lemma AddToStdLib_composes_witness :
  (AddToStdLib "sigmoid" "v1" ;; AddToStdLib "sigmoid" "v2") (worldWithStdLib (Some ∅))
  = AddToStdLib "sigmoid" "v2" (worldWithStdLib (Some ∅)).
Proof.
  destruct (AddToStdLib_composes (worldWithStdLib (Some ∅)) ∅ "sigmoid" "tanh" "v1" "v2"
              eq_refl) as [Hlast _].
  exact Hlast.
Defined.

End StdLibComposeExamples.
